(** * StarLine integration: account manager and entry lifecycle

    A shallow embedding of [homeassistant/components/starline/account.py]
    and [homeassistant/components/starline/__init__.py].

    Python objects that are mutated in place (the account, the config
    entry, the host) are fields of an explicit state; a method is a state
    transformer that returns either a value or the exception it raised,
    keeping whatever it had already written when it raised. *)

From Stdlib Require Import ZArith QArith String Ascii List Bool Lia Lqa.
From stdpp Require Import base gmap strings list fin_maps.

Local Open Scope string_scope.
Local Open Scope Z_scope.

(** ** Python values and exceptions *)

#[local] Set Warnings "-register-all".

(** [VFloat q] is the float whose value is the rational [q]; infinities
    and NaN are left out. *)
Inductive value : Type :=
| VNone
| VBool (b : bool)
| VInt (z : Z)
| VFloat (q : Q)
| VStr (s : string)
| VList (l : list value).

(** The exception classes the two modules can meet.  [BaseOnly] stands for
    the classes that derive from [BaseException] but not from [Exception]
    ([KeyboardInterrupt], [SystemExit], ...): an [except Exception] clause
    lets them through. *)
Inductive exn : Type :=
| KeyError (key : string)
| TypeError
| ValueError
| OverflowError
| ConfigEntryNotReady
| Invalid (msg : string)
| OtherException (name : string)
| BaseOnly (name : string).

Definition is_Exception (e : exn) : bool :=
  match e with
  | BaseOnly _ => false
  | _ => true
  end.

Inductive result (A : Type) : Type :=
| Ok (a : A)
| Raise (e : exn).
Arguments Ok {A} a.
Arguments Raise {A} e.

(** A [dict] whose iteration order is observable: insertion order, an
    assignment to a key already present keeps its place. *)
Definition pydict (V : Type) : Type := list (string * V).

Fixpoint dict_get {V} (k : string) (d : pydict V) : option V :=
  match d with
  | [] => None
  | (k', v) :: d' => if String.eqb k k' then Some v else dict_get k d'
  end.

Fixpoint dict_set {V} (k : string) (v : V) (d : pydict V) : pydict V :=
  match d with
  | [] => [(k, v)]
  | (k', v') :: d' =>
      if String.eqb k k' then (k', v) :: d' else (k', v') :: dict_set k v d'
  end.

Definition dict_keys {V} (d : pydict V) : list string := map fst d.
Definition dict_values {V} (d : pydict V) : list V := map snd d.

(** ** State and exceptions *)

Definition M (S A : Type) : Type := S -> result A * S.

Definition ret {S A} (a : A) : M S A := fun s => (Ok a, s).
Definition raise {S A} (e : exn) : M S A := fun s => (Raise e, s).

Definition bind {S A B} (c : M S A) (k : A -> M S B) : M S B :=
  fun s =>
    match c s with
    | (Ok a, s') => k a s'
    | (Raise e, s') => (Raise e, s')
    end.

Notation "'let*' x ':=' c 'in' k" := (bind c (fun x => k))
  (at level 10, x name, c at level 100, k at level 200).
Notation "c >>> k" := (bind c (fun _ => k))
  (at level 100, k at level 200, right associativity).

Definition get_state {S} : M S S := fun s => (Ok s, s).
Definition modify {S} (f : S -> S) : M S unit := fun s => (Ok tt, f s).

(** [try: body except Exception as err: handler err] *)
Definition try_except {S} (body : M S unit) (handler : exn -> M S unit) : M S unit :=
  fun s =>
    match body s with
    | (Ok a, s') => (Ok a, s')
    | (Raise e, s') => if is_Exception e then handler e s' else (Raise e, s')
    end.

(** [d[k]] on a mapping: [KeyError] when the key is absent. *)
Definition subscript {S V} (d : gmap string V) (k : string) : M S V :=
  match d !! k with
  | Some v => ret v
  | None => raise (KeyError k)
  end.

Definition dict_subscript {S V} (d : pydict V) (k : string) : M S V :=
  match dict_get k d with
  | Some v => ret v
  | None => raise (KeyError k)
  end.

Fixpoint for_each {S A} (l : list A) (body : A -> M S unit) : M S unit :=
  match l with
  | [] => ret tt
  | x :: l' => body x >>> for_each l' body
  end.

(** ** const.py *)

(** Modelled from the spec: [const.py] is not among the sources.  The two
    interval names are "state" and "obd-state", their defaults 180 s and
    60 min; the stored fields are the user id, the session token, its
    expiry and the identity token. *)
Definition DOMAIN : string := "starline".
Definition CONF_SCAN_INTERVAL : string := "state".
Definition CONF_SCAN_OBD_INTERVAL : string := "obd-state".
Definition DEFAULT_SCAN_INTERVAL : Z := 180.
Definition DEFAULT_SCAN_OBD_INTERVAL : Z := 3600.
Definition DATA_USER_ID : string := "user_id".
Definition DATA_SLNET_TOKEN : string := "session_token".
Definition DATA_EXPIRES : string := "session_expiry".
Definition DATA_SLID_TOKEN : string := "identity_token".
Definition SERVICE_UPDATE_STATE : string := "update_state".
Definition SERVICE_UPDATE_OBD_STATE : string := "update_obd_state".
Definition SERVICE_SET_SCAN_INTERVAL : string := "set_scan_interval".
Definition SERVICE_SET_SCAN_OBD_INTERVAL : string := "set_scan_obd_interval".

(** ** Data model *)

(** [starline.StarlineDevice]: the snapshot the remote client owns.  The
    properties the helpers read; [position], [balance], [errors] and
    [car_state] are mappings. *)
Record StarlineDevice : Type := mkDevice {
  device_id : string;
  name : value;
  fw_version : value;
  typename : value;
  online : value;
  position : gmap string value;
  balance : gmap string value;
  gsm_level : value;
  imei : value;
  phone : value;
  errors : gmap string value;
  car_state : gmap string value
}.

(** [starline.StarlineApi]: the in-memory client. *)
Record StarlineApi : Type := mkApi {
  api_user_id : value;
  api_slnet_token : value;
  available : bool;
  devices : pydict StarlineDevice
}.

(** A cancellation handle returned by [async_track_time_interval]: calling
    it removes the listener registered under that number. *)
Definition handle : Type := nat.

Record StarlineAccount : Type := mkAccount {
  _update_intervals : pydict Z;
  _unsubscribe_auto_updater : pydict (option handle);
  _api : StarlineApi
}.

(** What a recurring listener runs: one of the two bound methods of the
    account, or something another component registered. *)
Inductive callback : Type :=
| account_update
| account_update_obd
| foreign_callback (n : nat).

#[global] Instance callback_eq_dec : EqDecision callback.
Proof. solve_decision. Defined.

Record Listener : Type := mkListener {
  l_handle : handle;
  l_action : callback;
  l_seconds : Z
}.

Inductive update_listener : Type :=
| async_options_updated_listener
| foreign_listener (n : nat).

(** [options] holds the two polling intervals; they reach
    [set_update_interval], which takes an [int]. *)
Record ConfigEntry : Type := mkEntry {
  entry_id : string;
  data : gmap string value;
  options : gmap string Z;
  update_listeners : list update_listener
}.

(** [vol.Schema({vol.Required(key): vol.All(vol.Coerce(int), vol.Range(min=minimum))})] *)
Record Schema : Type := mkSchema {
  required_key : string;
  minimum : Z
}.

Inductive handler : Type :=
| handler_update
| handler_update_obd
| handler_set_scan_interval.

Record Service : Type := mkService {
  service_handler : handler;
  service_schema : option Schema
}.

Inductive task : Type :=
| forward_entry_setup (platform : string)
| run_update_listener (l : update_listener).

(** The record [device_info] builds, as [async_get_or_create] receives it. *)
Record DeviceEntry : Type := mkDeviceEntry {
  de_config_entry_id : string;
  de_identifiers : list (string * string);
  de_manufacturer : string;
  de_name : value;
  de_sw_version : value;
  de_model : value
}.

Record HomeAssistant : Type := mkHass {
  time_listeners : list Listener;
  next_handle : handle;
  hass_data : gmap string (gmap string StarlineAccount);
  device_registry : list DeviceEntry;
  tasks : list task;
  services : gmap (string * string) Service
}.

Inductive level : Type := DEBUG | ERROR.

Inductive log_arg : Type :=
| arg_value (v : value)
| arg_exn (e : exn).

Record LogRecord : Type := mkLog {
  log_level : level;
  log_msg : string;
  log_args : list log_arg
}.

(** Calls worth observing, in the order they happen. *)
Inductive event : Type :=
| call_update_slnet_token
| call_get_user_id (slid_token : value)
| call_set_slnet_token (token : value)
| call_set_user_id (user_id : value)
| call_api_update
| call_api_update_obd
| call_async_update_entry
| call_forward_entry_unload (platform : string).

(** Calls on the scheduler of the host, in the order they happen: a
    subscription, with the handle it returned, and the call of a handle. *)
Inductive scheduler_call : Type :=
| call_track_time_interval (action : callback) (seconds : Z) (h : handle)
| call_unsubscribe (h : handle).

(** Modelled from the spec: [PLATFORMS] of [const.py], the entity platforms
    that consume the helpers (device tracker, sensors, switches). *)
Definition PLATFORMS : list string := ["device_tracker"; "sensor"; "switch"].

(** ** The collaborators

    The remote client library, the wall clock, the host's store and the
    host's unloading of a platform are not part of the integration.  Their
    behaviour is an interface: each operation reads and advances an
    environment of some type [E], so two calls may answer differently, and
    each may raise. *)
Class Environment (E : Type) : Type := {
  (** [datetime.now().timestamp()] *)
  clock : E -> Q;
  (** [StarlineApi(user_id, slnet_token)] *)
  new_client : value -> value -> StarlineApi;
  (** [api.get_user_id(slid_token)]: the token exchange *)
  remote_get_user_id : value -> E -> result (value * value * value) * E;
  (** [api.update()] and [api.update_obd()]: refresh the snapshot in place *)
  remote_update : StarlineApi -> E -> result unit * (StarlineApi * E);
  remote_update_obd : StarlineApi -> E -> result unit * (StarlineApi * E);
  (** whether a write of the entry to the host's store goes through; a
      write that raises leaves the entry as it was *)
  store_write : E -> result unit * E;
  (** [hass.config_entries.async_forward_entry_unload(config_entry, domain)]:
      the host unloads the entities of a platform *)
  forward_entry_unload : string -> E -> result bool * E
}.

Section Integration.
Context {E : Type} `{Environment E}.

Record World : Type := mkWorld {
  hass : HomeAssistant;
  config_entry : ConfigEntry;
  env : E;
  log : list LogRecord;
  trace : list event;
  scheduler_calls : list scheduler_call
}.

(** A method of the account runs on the account object ([self]) and on
    everything the account can reach through [self._hass] and
    [self._config_entry]. *)
Record Ctx : Type := mkCtx {
  self : StarlineAccount;
  world : World
}.

Definition set_hass (f : HomeAssistant -> HomeAssistant) (w : World) : World :=
  mkWorld (f (hass w)) (config_entry w) (env w) (log w) (trace w) (scheduler_calls w).
Definition set_config_entry (f : ConfigEntry -> ConfigEntry) (w : World) : World :=
  mkWorld (hass w) (f (config_entry w)) (env w) (log w) (trace w) (scheduler_calls w).
Definition set_env (e : E) (w : World) : World :=
  mkWorld (hass w) (config_entry w) e (log w) (trace w) (scheduler_calls w).
Definition set_log (f : list LogRecord -> list LogRecord) (w : World) : World :=
  mkWorld (hass w) (config_entry w) (env w) (f (log w)) (trace w) (scheduler_calls w).
Definition set_trace (f : list event -> list event) (w : World) : World :=
  mkWorld (hass w) (config_entry w) (env w) (log w) (f (trace w)) (scheduler_calls w).
Definition set_scheduler_calls (f : list scheduler_call -> list scheduler_call) (w : World)
  : World :=
  mkWorld (hass w) (config_entry w) (env w) (log w) (trace w) (f (scheduler_calls w)).

Definition set_world (f : World -> World) (c : Ctx) : Ctx :=
  mkCtx (self c) (f (world c)).
Definition set_self (f : StarlineAccount -> StarlineAccount) (c : Ctx) : Ctx :=
  mkCtx (f (self c)) (world c).

Definition set_api (f : StarlineApi -> StarlineApi) (a : StarlineAccount) : StarlineAccount :=
  mkAccount (_update_intervals a) (_unsubscribe_auto_updater a) (f (_api a)).
Definition set_unsubscribe_auto_updater
    (f : pydict (option handle) -> pydict (option handle)) (a : StarlineAccount)
  : StarlineAccount :=
  mkAccount (_update_intervals a) (f (_unsubscribe_auto_updater a)) (_api a).

(** Run a computation of the host on the world a method sees. *)
Definition in_world {A} (c : M World A) : M Ctx A :=
  fun s => let '(r, w') := c (world s) in (r, mkCtx (self s) w').

Definition emit (ev : event) : M World unit :=
  modify (set_trace (fun t => (t ++ [ev])%list)).

Definition LOGGER (lv : level) (msg : string) (args : list log_arg) : M World unit :=
  modify (set_log (fun l => (l ++ [mkLog lv msg args])%list)).

(** *** Host primitives *)

(** [hass.async_create_task(...)]: the task runs later, on the event loop. *)
Definition async_create_task (t : task) : M World unit :=
  modify (set_hass (fun h =>
    mkHass (time_listeners h) (next_handle h) (hass_data h) (device_registry h)
           (tasks h ++ [t])%list (services h))).

(** [hass.config_entries.async_update_entry(entry, data=..., options=...)]:
    replaces what it is given, then schedules every update listener. *)
Definition async_update_entry
    (new_data : option (gmap string value)) (new_options : option (gmap string Z))
  : M World unit :=
  emit call_async_update_entry >>>
  let* w := get_state in
  let '(r, e') := store_write (env w) in
  modify (set_env e') >>>
  match r with
  | Raise err => raise err
  | Ok _ =>
      modify (set_config_entry (fun ce =>
        mkEntry (entry_id ce)
                (default (data ce) new_data)
                (default (options ce) new_options)
                (update_listeners ce))) >>>
      let* w := get_state in
      for_each (update_listeners (config_entry w))
               (fun l => async_create_task (run_update_listener l))
  end.

(** [timedelta(seconds=interval)] for an [int]: the number of days must
    stay within [-999999999, 999999999], or the constructor raises
    [OverflowError]. *)
Definition timedelta_min_seconds : Z := -999999999 * 86400.
Definition timedelta_max_seconds : Z := 999999999 * 86400 + 86399.

Definition timedelta {S} (seconds : Z) : M S Z :=
  if (timedelta_min_seconds <=? seconds) && (seconds <=? timedelta_max_seconds)
  then ret seconds
  else raise OverflowError.

(** [async_track_time_interval(hass, action, delta)]: registers the
    listener and returns the handle that removes it. *)
Definition async_track_time_interval (action : callback) (delta : Z) : M World handle :=
  let* w := get_state in
  let h := next_handle (hass w) in
  modify (set_hass (fun hs =>
    mkHass (time_listeners hs ++ [mkListener h action delta])%list (S h)
           (hass_data hs) (device_registry hs) (tasks hs) (services hs))) >>>
  modify (set_scheduler_calls (fun l =>
    (l ++ [call_track_time_interval action delta h])%list)) >>>
  ret h.

(** Calling a handle. *)
Definition call_handle (h : handle) : M World unit :=
  modify (set_hass (fun hs =>
    mkHass (filter (fun l => l_handle l <> h) (time_listeners hs))
           (next_handle hs) (hass_data hs) (device_registry hs) (tasks hs)
           (services hs))) >>>
  modify (set_scheduler_calls (fun l => (l ++ [call_unsubscribe h])%list)).

(** *** Python operators on the values the token check meets *)

(** [now + x] for a float [now]; [x] is what [dict.get] returned.  The
    sum is the exact one: Python returns the double nearest to it, the
    same number whenever the exact sum is a double. *)
Definition float_add_int {S} (now : Q) (x : option Z) : M S Q :=
  match x with
  | Some z => ret (now + inject_Z z)%Q
  | None => raise TypeError
  end.

Definition Qgtb (a b : Q) : bool := negb (Qle_bool a b).

(** The number a value is, when it is one ([bool] is an [int]). *)
Definition number_of (v : value) : option Q :=
  match v with
  | VInt z => Some (inject_Z z)
  | VBool b => Some (inject_Z (Z.b2z b))
  | VFloat q => Some q
  | VNone | VStr _ | VList _ => None
  end.

(** [a > v] for a float [a]: numbers compare, anything else is a
    [TypeError]. *)
Definition float_gt {S} (a : Q) (v : value) : M S bool :=
  match number_of v with
  | Some q => ret (Qgtb a q)
  | None => raise TypeError
  end.

(** ** account.py *)

(** [StarlineAccount.__init__] *)
Definition StarlineAccount_init : M World StarlineAccount :=
  let* w := get_state in
  let* user_id := subscript (data (config_entry w)) DATA_USER_ID in
  let* slnet_token := subscript (data (config_entry w)) DATA_SLNET_TOKEN in
  ret (mkAccount
         [(CONF_SCAN_INTERVAL, DEFAULT_SCAN_INTERVAL);
          (CONF_SCAN_OBD_INTERVAL, DEFAULT_SCAN_OBD_INTERVAL)]
         [(CONF_SCAN_INTERVAL, None); (CONF_SCAN_OBD_INTERVAL, None)]
         (new_client user_id slnet_token)).

(** [self._api.get_user_id(slid_token)] *)
Definition api_get_user_id (slid_token : value) : M World (value * value * value) :=
  emit (call_get_user_id slid_token) >>>
  let* w := get_state in
  let '(r, e') := remote_get_user_id slid_token (env w) in
  modify (set_env e') >>>
  match r with
  | Ok triple => ret triple
  | Raise err => raise err
  end.

Definition api_set_slnet_token (token : value) : M Ctx unit :=
  in_world (emit (call_set_slnet_token token)) >>>
  modify (set_self (set_api (fun a =>
    mkApi (api_user_id a) token (available a) (devices a)))).

Definition api_set_user_id (user_id : value) : M Ctx unit :=
  in_world (emit (call_set_user_id user_id)) >>>
  modify (set_self (set_api (fun a =>
    mkApi user_id (api_slnet_token a) (available a) (devices a)))).

(** [self._api.update()] / [self._api.update_obd()] *)
Definition api_refresh (ev : event)
    (remote : StarlineApi -> E -> result unit * (StarlineApi * E)) : M Ctx unit :=
  in_world (emit ev) >>>
  let* s := get_state in
  let '(r, (api', e')) := remote (_api (self s)) (env (world s)) in
  modify (set_self (set_api (fun _ => api'))) >>>
  in_world (modify (set_env e')) >>>
  match r with
  | Ok _ => ret tt
  | Raise err => raise err
  end.

(** [StarlineAccount._update_slnet_token] *)
Definition _update_slnet_token : M Ctx unit :=
  in_world (emit call_update_slnet_token) >>>
  let* s := get_state in
  let* slid_token := subscript (data (config_entry (world s))) DATA_SLID_TOKEN in
  try_except
    (let* triple := in_world (api_get_user_id slid_token) in
     let '(slnet_token, slnet_token_expires, user_id) := triple in
     api_set_slnet_token slnet_token >>>
     api_set_user_id user_id >>>
     let* s := get_state in
     in_world (async_update_entry
       (Some (<[DATA_USER_ID := user_id]>
               (<[DATA_EXPIRES := slnet_token_expires]>
                 (<[DATA_SLNET_TOKEN := slnet_token]>
                   (data (config_entry (world s)))))))
       None))
    (fun err =>
       in_world (LOGGER ERROR "Error updating SLNet token: %s" [arg_exn err])).

(** [StarlineAccount._check_slnet_token] *)
Definition _check_slnet_token : M Ctx unit :=
  let* s := get_state in
  let now := clock (env (world s)) in
  let* slnet_token_expires := subscript (data (config_entry (world s))) DATA_EXPIRES in
  let* lookahead :=
    float_add_int now (dict_get CONF_SCAN_INTERVAL (_update_intervals (self s))) in
  let* stale := float_gt lookahead slnet_token_expires in
  if stale : bool then _update_slnet_token else ret tt.

(** [StarlineAccount._update_data] *)
Definition _update_data : M Ctx unit :=
  _check_slnet_token >>>
  api_refresh call_api_update remote_update.

(** [StarlineAccount._update_obd_data] *)
Definition _update_obd_data : M Ctx unit :=
  _check_slnet_token >>>
  api_refresh call_api_update_obd remote_update_obd.

(** [StarlineAccount.update] and [update_obd]: the blocking method runs in
    the executor and the coroutine resumes when it has returned or
    raised. *)
Definition update : M Ctx unit := _update_data.
Definition update_obd : M Ctx unit := _update_obd_data.

(** [StarlineAccount.set_update_interval], in the two halves it is made of:
    up to the call of the previous handle, and from there on. *)
Definition set_update_interval_cancel (key : string) (interval : Z) : M Ctx unit :=
  in_world (LOGGER DEBUG "Setting update interval: %ds" [arg_value (VInt interval)]) >>>
  let* s := get_state in
  let* unsubscribe := dict_subscript (_unsubscribe_auto_updater (self s)) key in
  match unsubscribe with
  | Some h => in_world (call_handle h)
  | None => ret tt
  end.

Definition set_update_interval_install (key : string) (interval : Z) : M Ctx unit :=
  let method :=
    if String.eqb key CONF_SCAN_INTERVAL then account_update else account_update_obd in
  let* delta := timedelta interval in
  let* h := in_world (async_track_time_interval method delta) in
  modify (set_self (set_unsubscribe_auto_updater (dict_set key (Some h)))).

Definition set_update_interval (key : string) (interval : Z) : M Ctx unit :=
  set_update_interval_cancel key interval >>>
  set_update_interval_install key interval.

(** [StarlineAccount.unload] *)
Definition unload : M Ctx unit :=
  in_world (LOGGER DEBUG "Unloading StarLine API." []) >>>
  let* s := get_state in
  for_each (dict_keys (_unsubscribe_auto_updater (self s))) (fun key =>
    let* s := get_state in
    let* unsubscribe := dict_subscript (_unsubscribe_auto_updater (self s)) key in
    match unsubscribe with
    | Some h =>
        in_world (LOGGER DEBUG "Unload: %s" [arg_value (VStr key)]) >>>
        in_world (call_handle h) >>>
        modify (set_self (set_unsubscribe_auto_updater (dict_set key None)))
    | None => ret tt
    end).

End Integration.

(** ** Static helpers of the account *)

(** [round(x)] to the nearest integer, ties to even. *)
Definition round_half_even (x : Q) : Z :=
  let n := Qnum x in
  let d := Z.pos (Qden x) in
  let f := n / d in
  let r := n mod d in
  match (2 * r ?= d) with
  | Lt => f
  | Gt => f + 1
  | Eq => if Z.even f then f else f + 1
  end.

(** [2 ** k] *)
Definition pow2 (k : Z) : Q :=
  if 0 <=? k then inject_Z (2 ^ k) else (1 / inject_Z (2 ^ (- k)))%Q.

(** The double nearest to [x], ties to even, for an [x] within the range
    of the doubles: 53 significant bits, none below [2 ** -1074]. *)
Definition round_binary64 (x : Q) : Q :=
  if Qnum x =? 0 then 0%Q
  else
    let a := Qmake (Z.abs (Qnum x)) (Qden x) in
    let e0 := Z.log2 (Qnum a) - Z.log2 (Z.pos (Qden a)) in
    let e := if Qle_bool (pow2 e0) a then e0 else e0 - 1 in
    let q := Z.max (e - 52) (-1074) in
    let m := round_half_even (a / pow2 q)%Q in
    ((if Qnum x <? 0 then -1 else 1) * inject_Z m * pow2 q)%Q.

(** The civil date of a day number counted from 1970-01-01. *)
Definition civil_from_days (days : Z) : Z * Z * Z :=
  let z := days + 719468 in
  let era := z / 146097 in
  let doe := z - era * 146097 in
  let yoe := (doe - doe / 1460 + doe / 36524 - doe / 146096) / 365 in
  let doy := doe - (365 * yoe + yoe / 4 - yoe / 100) in
  let mp := (5 * doy + 2) / 153 in
  let d := doy - (153 * mp + 2) / 5 + 1 in
  let m := if mp <? 10 then mp + 3 else mp - 9 in
  let y := yoe + era * 400 + (if m <=? 2 then 1 else 0) in
  (y, m, d).

Definition digit (z : Z) : string :=
  String (ascii_of_nat (48 + Z.to_nat (z mod 10))) EmptyString.

(** [z] in decimal on [width] digits, padded with zeros. *)
Fixpoint zero_padded (width : nat) (z : Z) : string :=
  match width with
  | O => ""
  | S w => zero_padded w (z / 10) ++ digit z
  end.

(** The seconds and microseconds of a timestamp.  An [int] must fit the
    64 bits of [time_t]; a float is split into its whole and fractional
    parts, the fraction times [1e6] is taken as a double and rounded to an
    integer, ties to even, and a carry goes to the seconds. *)
Definition timeval_of (ts : value) : result (Z * Z) :=
  match ts with
  | VInt z =>
      if (- 2 ^ 63 <=? z) && (z <? 2 ^ 63) then Ok (z, 0) else Raise OverflowError
  | VBool b => Ok (Z.b2z b, 0)
  | VFloat q =>
      let intpart := Z.quot (Qnum q) (Z.pos (Qden q)) in
      let floatpart := (q - inject_Z intpart)%Q in
      let us := round_half_even (round_binary64 (floatpart * inject_Z 1000000)%Q) in
      let '(secs, us) :=
        if 1000000 <=? us then (intpart + 1, us - 1000000)
        else if us <? 0 then (intpart - 1, us + 1000000)
        else (intpart, us) in
      if (- 2 ^ 63 <=? secs) && (secs <=? 2 ^ 63) then Ok (secs, us)
      else Raise OverflowError
  | VNone | VStr _ | VList _ => Raise TypeError
  end.

(** [datetime.utcfromtimestamp(ts).isoformat()], as CPython gives it where
    [time_t] has 64 bits: a timestamp beyond [time_t] is an [OverflowError],
    one whose year [gmtime] cannot hold in an [int] an [OSError], a year
    outside 1..9999 a [ValueError]; the microseconds are printed when they
    are not zero. *)
Definition utcfromtimestamp_isoformat (ts : value) : result string :=
  match timeval_of ts with
  | Raise err => Raise err
  | Ok (secs, us) =>
      let '(y, m, d) := civil_from_days (secs / 86400) in
      let rest := secs mod 86400 in
      if negb ((- 2 ^ 31 <=? y - 1900) && (y - 1900 <? 2 ^ 31)) then
        Raise (OtherException "OSError")
      else if (1 <=? y) && (y <=? 9999) then
        Ok (zero_padded 4 y ++ "-" ++ zero_padded 2 m ++ "-" ++ zero_padded 2 d
            ++ "T" ++ zero_padded 2 (rest / 3600) ++ ":"
            ++ zero_padded 2 (rest mod 3600 / 60) ++ ":"
            ++ zero_padded 2 (rest mod 60)
            ++ (if us =? 0 then "" else "." ++ zero_padded 6 us))
      else Raise ValueError
  end.

(** [Mapping.get(key)]: [None] when the key is absent. *)
Definition get (d : gmap string value) (k : string) : value :=
  default VNone (d !! k).

Record DeviceInfo : Type := mkDeviceInfo {
  identifiers : list (string * string);
  manufacturer : string;
  info_name : value;
  sw_version : value;
  model : value
}.

(** [StarlineAccount.device_info] *)
Definition device_info (device : StarlineDevice) : DeviceInfo :=
  {| identifiers := [(DOMAIN, device_id device)];
     manufacturer := "StarLine";
     info_name := name device;
     sw_version := fw_version device;
     model := typename device |}.

(** [StarlineAccount.gps_attrs] *)
Definition gps_attrs (device : StarlineDevice) : result (pydict value) :=
  match position device !! "ts" with
  | None => Raise (KeyError "ts")
  | Some ts =>
      match utcfromtimestamp_isoformat ts with
      | Raise err => Raise err
      | Ok updated => Ok [("updated", VStr updated); ("online", online device)]
      end
  end.

(** [StarlineAccount.balance_attrs] *)
Definition balance_attrs (device : StarlineDevice) : pydict value :=
  [("operator", get (balance device) "operator");
   ("state", get (balance device) "state");
   ("updated", get (balance device) "ts")].

(** [StarlineAccount.gsm_attrs] *)
Definition gsm_attrs (device : StarlineDevice) : pydict value :=
  [("raw", gsm_level device);
   ("imei", imei device);
   ("phone", phone device);
   ("online", online device)].

(** [StarlineAccount.errors_attrs] *)
Definition errors_attrs (device : StarlineDevice) : pydict value :=
  [("errors", get (errors device) "errors")].

(** [StarlineAccount.engine_attrs] *)
Definition engine_attrs (device : StarlineDevice) : pydict value :=
  [("autostart", get (car_state device) "r_start");
   ("ignition", get (car_state device) "run")].

(** ** Service schemas *)

(** The white space [int] skips around the literal of an ASCII string:
    the space and the controls from tab to carriage return. *)
Definition is_space (c : ascii) : bool :=
  let n := nat_of_ascii c in
  ((9 <=? n) && (n <=? 13) || (n =? 32))%nat.

Definition digit_value (c : ascii) : option Z :=
  let n := nat_of_ascii c in
  if ((48 <=? n) && (n <=? 57))%nat then Some (Z.of_nat n - 48) else None.

Fixpoint lstrip (s : string) : string :=
  match s with
  | String c s' => if is_space c then lstrip s' else s
  | EmptyString => s
  end.

(** What is left of the literal after its first digit: digits, each
    optionally preceded by one underscore, then only white space. *)
Fixpoint int_digits (acc : Z) (s : string) : option Z :=
  match s with
  | EmptyString => Some acc
  | String c s' =>
      match digit_value c with
      | Some v => int_digits (10 * acc + v) s'
      | None =>
          if Ascii.eqb c "_" then
            match s' with
            | String c' s'' =>
                match digit_value c' with
                | Some v => int_digits (10 * acc + v) s''
                | None => None
                end
            | EmptyString => None
            end
          else if is_space c then
            match lstrip s' with
            | EmptyString => Some acc
            | String _ _ => None
            end
          else None
      end
  end.

Definition int_literal (s : string) : option Z :=
  match s with
  | String c s' =>
      match digit_value c with
      | Some v => int_digits v s'
      | None => None
      end
  | EmptyString => None
  end.

(** [int(v)], where it returns; a [str] is read as ASCII text. *)
Definition py_int (v : value) : option Z :=
  match v with
  | VInt z => Some z
  | VBool b => Some (Z.b2z b)
  | VFloat q => Some (Z.quot (Qnum q) (Z.pos (Qden q)))
  | VStr s =>
      match lstrip s with
      | String "-" s' => Z.opp <$> int_literal s'
      | String "+" s' => int_literal s'
      | s' => int_literal s'
      end
  | VNone | VList _ => None
  end.

(** Applying a schema to the data of a call: the required key must be
    there, no other key may be, the value must coerce to an [int] that is
    at least the minimum.  The result holds the coerced value. *)
Definition validate {S} (schema : Schema) (service_data : gmap string value)
  : M S (gmap string Z) :=
  match service_data !! required_key schema with
  | None => raise (Invalid "required key not provided")
  | Some v =>
      if bool_decide (dom service_data ⊆ {[required_key schema]}) then
        match py_int v with
        | None => raise (Invalid "expected int")
        | Some z =>
            if minimum schema <=? z
            then ret {[required_key schema := z]}
            else raise (Invalid "value must be at least the minimum")
        end
      else raise (Invalid "extra keys not allowed")
  end.

(** ** __init__.py *)

Section Lifecycle.
Context {E : Type} `{Environment E}.

Definition set_hass_data
    (f : gmap string (gmap string StarlineAccount) -> gmap string (gmap string StarlineAccount))
    (w : @World E) : @World E :=
  set_hass (fun h =>
    mkHass (time_listeners h) (next_handle h) (f (hass_data h)) (device_registry h)
           (tasks h) (services h)) w.

(** A call of a method on a local variable that holds the account. *)
Definition call_method {A} (account : StarlineAccount) (method : M (@Ctx E) A)
  : M (@World E) (A * StarlineAccount) :=
  fun w =>
    match method (mkCtx account w) with
    | (Ok a, c) => (Ok (a, self c), world c)
    | (Raise err, c) => (Raise err, world c)
    end.

(** [account = hass.data[DOMAIN][config_entry.entry_id]] followed by a call
    of a method on it: the object in the registry is the one mutated. *)
Definition call_registered {A} (method : M (@Ctx E) A) : M (@World E) A :=
  let* w := get_state in
  let* accounts := subscript (hass_data (hass w)) DOMAIN in
  let* account := subscript accounts (entry_id (config_entry w)) in
  fun w =>
    let '(r, c) := method (mkCtx account w) in
    (r, set_hass_data
          (fun d => <[DOMAIN := <[entry_id (config_entry w) := self c]> accounts]> d)
          (world c)).

(** [device_registry.async_get_or_create(config_entry_id=..., **info)]: the
    record with these identifiers is brought up to date, or appended. *)
Fixpoint get_or_create (entry : DeviceEntry) (registry : list DeviceEntry)
  : list DeviceEntry :=
  match registry with
  | [] => [entry]
  | e :: registry' =>
      if bool_decide (de_identifiers e = de_identifiers entry)
      then entry :: registry'
      else e :: get_or_create entry registry'
  end.

Definition async_get_or_create (config_entry_id : string) (info : DeviceInfo)
  : M (@World E) unit :=
  modify (set_hass (fun h =>
    mkHass (time_listeners h) (next_handle h) (hass_data h)
           (get_or_create
              (mkDeviceEntry config_entry_id (identifiers info) (manufacturer info)
                             (info_name info) (sw_version info) (model info))
              (device_registry h))
           (tasks h) (services h))).

(** [hass.services.async_register(domain, service, handler, schema)] *)
Definition async_register (domain service : string) (h : handler) (schema : option Schema)
  : M (@World E) unit :=
  modify (set_hass (fun hs =>
    mkHass (time_listeners hs) (next_handle hs) (hass_data hs) (device_registry hs)
           (tasks hs) (<[(domain, service) := mkService h schema]> (services hs)))).

(** [config_entry.add_update_listener(async_options_updated)] *)
Definition add_update_listener (l : update_listener) : M (@World E) unit :=
  modify (set_config_entry (fun ce =>
    mkEntry (entry_id ce) (data ce) (options ce) (update_listeners ce ++ [l])%list)).

(** [async_options_updated] *)
Definition async_options_updated : M (@World E) unit :=
  let* w := get_state in
  let* accounts := subscript (hass_data (hass w)) DOMAIN in
  let* _ := subscript accounts (entry_id (config_entry w)) in
  let scan_interval :=
    default DEFAULT_SCAN_INTERVAL (options (config_entry w) !! CONF_SCAN_INTERVAL) in
  let scan_obd_interval :=
    default DEFAULT_SCAN_OBD_INTERVAL (options (config_entry w) !! CONF_SCAN_OBD_INTERVAL) in
  call_registered (set_update_interval CONF_SCAN_INTERVAL scan_interval) >>>
  call_registered (set_update_interval CONF_SCAN_OBD_INTERVAL scan_obd_interval).

(** [async_set_scan_interval], the closure of [async_setup_entry]; [call_data]
    is [call.data], what the schema of the service returned. *)
Definition async_set_scan_interval (call_data : gmap string Z) : M (@World E) unit :=
  let* w := get_state in
  let options0 := options (config_entry w) in
  let* scan := subscript call_data CONF_SCAN_INTERVAL in
  let options1 := <[CONF_SCAN_INTERVAL := scan]> options0 in
  let* scan_obd := subscript call_data CONF_SCAN_OBD_INTERVAL in
  let options2 := <[CONF_SCAN_OBD_INTERVAL := scan_obd]> options1 in
  async_update_entry None (Some options2).

(** [async_setup_entry] *)
Definition async_setup_entry : M (@World E) bool :=
  let* account := StarlineAccount_init in
  let* r := call_method account update in
  let* r := call_method (snd r) update_obd in
  let account := snd r in
  if negb (available (_api account)) then raise ConfigEntryNotReady
  else
    let* w := get_state in
    let id := entry_id (config_entry w) in
    match hass_data (hass w) !! DOMAIN with
    | None => modify (set_hass_data (fun d => <[DOMAIN := ∅]> d))
    | Some _ => ret tt
    end >>>
    modify (set_hass_data (fun d =>
      <[DOMAIN := <[id := account]> (default ∅ (d !! DOMAIN))]> d)) >>>
    for_each (dict_values (devices (_api account)))
             (fun device => async_get_or_create id (device_info device)) >>>
    for_each PLATFORMS (fun domain => async_create_task (forward_entry_setup domain)) >>>
    async_register DOMAIN SERVICE_UPDATE_STATE handler_update None >>>
    async_register DOMAIN SERVICE_UPDATE_OBD_STATE handler_update_obd None >>>
    async_register DOMAIN SERVICE_SET_SCAN_INTERVAL handler_set_scan_interval
      (Some (mkSchema CONF_SCAN_INTERVAL 10)) >>>
    async_register DOMAIN SERVICE_SET_SCAN_OBD_INTERVAL handler_set_scan_interval
      (Some (mkSchema CONF_SCAN_OBD_INTERVAL 100)) >>>
    add_update_listener async_options_updated_listener >>>
    async_options_updated >>>
    ret true.

(** [await hass.config_entries.async_forward_entry_unload(config_entry, domain)]:
    what the host does to unload a platform is the collaborator's; what it
    raises is raised here. *)
Definition async_forward_entry_unload (domain : string) : M (@World E) bool :=
  emit (call_forward_entry_unload domain) >>>
  let* w := get_state in
  let '(r, e') := forward_entry_unload domain (env w) in
  modify (set_env e') >>>
  match r with
  | Ok unloaded => ret unloaded
  | Raise err => raise err
  end.

(** [async_unload_entry] *)
Definition async_unload_entry : M (@World E) bool :=
  for_each PLATFORMS (fun domain =>
    let* _ := async_forward_entry_unload domain in ret tt) >>>
  call_registered unload >>>
  ret true.

(** The integers among the data of a call. *)
Definition integers (service_data : gmap string value) : gmap string Z :=
  omap (fun v => match v with VInt z => Some z | _ => None end) service_data.

(** [hass.services.async_call(domain, service, service_data)]: the host
    looks the service up, applies its schema to the data and runs the
    handler on what the schema returned.  A service registered without a
    schema gets the data as they are; its handler here takes the call as
    [unused]. *)
Definition async_call (domain service : string) (service_data : gmap string value)
  : M (@World E) unit :=
  let* w := get_state in
  match services (hass w) !! (domain, service) with
  | None => raise (OtherException "ServiceNotFound")
  | Some svc =>
      let* call_data :=
        match service_schema svc with
        | Some schema => validate schema service_data
        | None => ret (integers service_data)
        end in
      match service_handler svc with
      | handler_update => call_registered update
      | handler_update_obd => call_registered update_obd
      | handler_set_scan_interval => async_set_scan_interval call_data
      end
  end.

End Lifecycle.

(** ** A scripted environment

    The collaborators answer the same way at every call: the clock shows
    [script_now], the exchange returns [script_exchange], a refresh leaves
    the client with [script_available], a write to the store ends as
    [script_write] says, the unloading of a platform returns [True]. *)
Record Script : Type := mkScript {
  script_now : Q;
  script_exchange : result (value * value * value);
  script_available : bool;
  script_write : result unit
}.

Definition scripted_refresh (api : StarlineApi) (e : Script)
  : result unit * (StarlineApi * Script) :=
  (Ok tt, (mkApi (api_user_id api) (api_slnet_token api) (script_available e) (devices api), e)).

#[export] Instance scripted : Environment Script := {|
  clock := script_now;
  new_client := fun user_id token => mkApi user_id token false [];
  remote_get_user_id := fun _ e => (script_exchange e, e);
  remote_update := scripted_refresh;
  remote_update_obd := scripted_refresh;
  store_write := fun e => (script_write e, e);
  forward_entry_unload := fun _ e => (Ok true, e)
|}.

Definition empty_hass : HomeAssistant := mkHass [] O ∅ [] [] ∅.

(** An entry whose session expires at [expires]. *)
Definition stored_entry (expires : Z) : ConfigEntry :=
  mkEntry "entry-1"
    (<[DATA_USER_ID := VStr "user"]>
      (<[DATA_SLNET_TOKEN := VStr "old-token"]>
        (<[DATA_EXPIRES := VInt expires]>
          (<[DATA_SLID_TOKEN := VStr "slid"]>
            (<["app_id" := VStr "app"]> ∅)))))
    ∅ [].

Definition world0 (e : Script) (expires : Z) : @World Script :=
  mkWorld empty_hass (stored_entry expires) e [] [] [].

(** ** What the properties speak about *)

Section Observations.
Context {E : Type} `{Environment E}.

(** The calls a method makes when it is run from [s]. *)
Definition events_of {A} (method : M (@Ctx E) A) (s : @Ctx E) : list event :=
  trace (world (snd (method (set_world (set_trace (fun _ => [])) s)))).

(** The state a method leaves, whatever it returned or raised. *)
Definition after {S A} (method : M S A) (s : S) : S := snd (method s).

(** The bound method [set_update_interval] subscribes for a name. *)
Definition method_of (key : string) : callback :=
  if String.eqb key CONF_SCAN_INTERVAL then account_update else account_update_obd.

(** The live subscriptions that run [action]. *)
Definition live (action : callback) (h : HomeAssistant) : list Listener :=
  filter (fun l => l_action l = action) (time_listeners h).

Definition handles (h : HomeAssistant) : list handle :=
  l_handle <$> time_listeners h.

(** How the account and the scheduler of the host fit together: the
    account has its two names; the handles of the scheduler are distinct
    and below the next one; a listener that runs a method of the account
    is the one whose handle the account holds under that name. *)
Record subscriptions_consistent (s : @Ctx E) : Prop := {
  sc_shape : exists a b,
    _unsubscribe_auto_updater (self s)
    = [(CONF_SCAN_INTERVAL, a); (CONF_SCAN_OBD_INTERVAL, b)];
  sc_fresh : forall l, l ∈ time_listeners (hass (world s)) ->
    (l_handle l < next_handle (hass (world s)))%nat;
  sc_nodup : NoDup (handles (hass (world s)));
  sc_owned : forall l key, l ∈ time_listeners (hass (world s)) ->
    key = CONF_SCAN_INTERVAL \/ key = CONF_SCAN_OBD_INTERVAL ->
    l_action l = method_of key ->
    dict_get key (_unsubscribe_auto_updater (self s)) = Some (Some (l_handle l))
}.

(** What the host does with an account over its life, one caller at a
    time: a call that raises does not stop the later ones. *)
Inductive operation : Type :=
| op_set_update_interval (key : string) (interval : Z)
| op_unload
| op_update
| op_update_obd.

Definition perform (o : operation) : M (@Ctx E) unit :=
  match o with
  | op_set_update_interval key interval => set_update_interval key interval
  | op_unload => unload
  | op_update => update
  | op_update_obd => update_obd
  end.

Fixpoint history (ops : list operation) (s : @Ctx E) : @Ctx E :=
  match ops with
  | [] => s
  | o :: ops' => history ops' (after (perform o) s)
  end.

(** [n] calls of [unload] in a row. *)
Fixpoint unloads (n : nat) (s : @Ctx E) : @Ctx E :=
  match n with
  | O => s
  | S n' => unloads n' (after unload s)
  end.

(** The part of the state the subscriptions live in. *)
Definition subscription_view (s : @Ctx E) :=
  (_unsubscribe_auto_updater (self s),
   time_listeners (hass (world s)),
   next_handle (hass (world s))).

(** The listeners left when the handle under [o], if any, is called. *)
Definition cancel_opt (o : option handle) (ls : list Listener) : list Listener :=
  match o with
  | Some h => filter (fun l => l_handle l <> h) ls
  | None => ls
  end.

(** The line [unload] always logs. *)
Definition unloading : LogRecord := mkLog DEBUG "Unloading StarLine API." [].

(** What a refresh leaves alone in the host. *)
Definition registries (h : HomeAssistant) :=
  (hass_data h, device_registry h, services h, time_listeners h, next_handle h).

(** The part of a state no refresh touches: the registries of the host
    and the two dictionaries of the account. *)
Definition untouched (s : @Ctx E) :=
  (registries (hass (world s)),
   _unsubscribe_auto_updater (self s),
   _update_intervals (self s)).

(** The stored fields after a renewal that returned [(t, e, u)]. *)
Definition renewed_data (d : gmap string value) (t e u : value) : gmap string value :=
  <[DATA_USER_ID := u]> (<[DATA_EXPIRES := e]> (<[DATA_SLNET_TOKEN := t]> d)).

(** The first lines of [async_setup_entry]: the account and its two
    initial refreshes. *)
Definition initial_refresh : M (@World E) StarlineAccount :=
  let* account := StarlineAccount_init in
  let* r := call_method account update in
  let* r := call_method (snd r) update_obd in
  ret (snd r).

End Observations.

(** The account a fresh setup leaves in the registry. *)
Definition registered_account {E} (w : @World E) : option StarlineAccount :=
  hass_data (hass w) !! DOMAIN ≫= fun accounts => accounts !! entry_id (config_entry w).

(** The account [StarlineAccount.__init__] builds on [world0]. *)
Definition fresh_account (e : Script) (expires : Z) : @Ctx Script :=
  mkCtx (mkAccount
           [(CONF_SCAN_INTERVAL, DEFAULT_SCAN_INTERVAL);
            (CONF_SCAN_OBD_INTERVAL, DEFAULT_SCAN_OBD_INTERVAL)]
           [(CONF_SCAN_INTERVAL, None); (CONF_SCAN_OBD_INTERVAL, None)]
           (mkApi (VStr "user") (VStr "old-token") false []))
        (world0 e expires).

(** Everything answers; the exchange returns a session good until 100000. *)
Definition script_ok (now : Q) (is_available : bool) : Script :=
  mkScript now (Ok (VStr "new-token", VInt 100000, VStr "user-2")) is_available (Ok tt).

(** The exchange fails; and: the exchange answers but the store refuses
    the write. *)
Definition script_exchange_fails : Script :=
  mkScript 0 (Raise (OtherException "ConnectionError")) true (Ok tt).

Definition script_write_fails : Script :=
  mkScript 0 (Ok (VStr "new-token", VInt 100000, VStr "user-2")) true
           (Raise (OtherException "RuntimeError")).

(** A snapshot with a position taken at [ts], and one without position
    data. *)
Definition device_at (ts : value) : StarlineDevice :=
  mkDevice "860000000000001" (VStr "Car") (VStr "2.1") (VStr "A96") (VBool true)
           {["ts" := ts]} ∅ VNone VNone VNone ∅ ∅.

Definition device_without_position : StarlineDevice :=
  mkDevice "860000000000001" (VStr "Car") (VStr "2.1") (VStr "A96") (VBool true)
           ∅ ∅ VNone VNone VNone ∅ ∅.

(** A host on which an entry was set up. *)
Definition world_ready : @World Script := after async_setup_entry (world0 (script_ok 0 true) 100).

(** ** More of what the properties speak about *)

Section MoreObservations.
Context {E : Type} `{Environment E}.

(** Everything a refresh leaves as it was: the registries and the
    scheduler of the host, the two dictionaries of the account, and of the
    entry all but its data. *)
Definition beyond_refresh (s : @Ctx E) :=
  (untouched s,
   entry_id (config_entry (world s)),
   options (config_entry (world s)),
   update_listeners (config_entry (world s))).

(** A handle the account holds under a name was given out by the
    scheduler, and a listener that carries it runs the method of the
    name. *)
Definition handles_owned (s : @Ctx E) : Prop :=
  forall key h,
    key = CONF_SCAN_INTERVAL \/ key = CONF_SCAN_OBD_INTERVAL ->
    dict_get key (_unsubscribe_auto_updater (self s)) = Some (Some h) ->
    (h < next_handle (hass (world s)))%nat
    /\ forall l, l ∈ time_listeners (hass (world s)) -> l_handle l = h ->
         l_action l = method_of key.

(** The account of [s] with [seconds] held under [key] in
    [_update_intervals]. *)
Definition with_interval (key : string) (seconds : Z) (s : @Ctx E) : @Ctx E :=
  set_self (fun a =>
    mkAccount (dict_set key seconds (_update_intervals a)) (_unsubscribe_auto_updater a)
              (_api a)) s.

(** The token check, run from [s], calls the renewal. *)
Definition renewal_due (s : @Ctx E) : Prop :=
  In call_update_slnet_token (events_of _check_slnet_token s).

(** The first statement of [async_unload_entry]: the unload is forwarded
    to each platform in turn. *)
Definition forward_unloads : M (@World E) unit :=
  for_each PLATFORMS (fun domain =>
    let* _ := async_forward_entry_unload domain in ret tt).

(** The entry of [s] with the stored field [key] set, or removed. *)
Definition with_stored (key : string) (v : value) (s : @Ctx E) : @Ctx E :=
  set_world (set_config_entry (fun ce =>
    mkEntry (entry_id ce) (<[key := v]> (data ce)) (options ce) (update_listeners ce))) s.

Definition without_stored (key : string) (s : @Ctx E) : @Ctx E :=
  set_world (set_config_entry (fun ce =>
    mkEntry (entry_id ce) (delete key (data ce)) (options ce) (update_listeners ce))) s.

(** The device registry after a record for each device was got or created. *)
Definition register_devices (id : string) (ds : list StarlineDevice)
    (registry : list DeviceEntry) : list DeviceEntry :=
  fold_left (fun r d =>
    get_or_create
      (mkDeviceEntry id (identifiers (device_info d)) (manufacturer (device_info d))
                     (info_name (device_info d)) (sw_version (device_info d))
                     (model (device_info d))) r) ds registry.

(** The services [async_setup_entry] registers, over those there were. *)
Definition with_services (sv : gmap (string * string) Service) : gmap (string * string) Service :=
  <[(DOMAIN, SERVICE_SET_SCAN_OBD_INTERVAL) :=
      mkService handler_set_scan_interval (Some (mkSchema CONF_SCAN_OBD_INTERVAL 100))]>
  (<[(DOMAIN, SERVICE_SET_SCAN_INTERVAL) :=
      mkService handler_set_scan_interval (Some (mkSchema CONF_SCAN_INTERVAL 10))]>
  (<[(DOMAIN, SERVICE_UPDATE_OBD_STATE) := mkService handler_update_obd None]>
  (<[(DOMAIN, SERVICE_UPDATE_STATE) := mkService handler_update None]> sv))).

(** The world [async_setup_entry] has built when it comes to apply the
    options: the account in the registry, a record for each device, the
    platforms scheduled, the services and the update listener in place. *)
Definition prepared (account : StarlineAccount) (w : @World E) : @World E :=
  let h := hass w in
  let ce := config_entry w in
  mkWorld
    (mkHass (time_listeners h) (next_handle h)
            (<[DOMAIN := <[entry_id ce := account]> (default ∅ (hass_data h !! DOMAIN))]>
               (hass_data h))
            (register_devices (entry_id ce) (dict_values (devices (_api account)))
                              (device_registry h))
            (tasks h ++ map forward_entry_setup PLATFORMS)%list
            (with_services (services h)))
    (mkEntry (entry_id ce) (data ce) (options ce)
             (update_listeners ce ++ [async_options_updated_listener])%list)
    (env w) (log w) (trace w) (scheduler_calls w).

(** A host none of whose listeners runs a method of the account. *)
Definition host_without_account (h : HomeAssistant) : Prop :=
  NoDup (handles h)
  /\ forall l, l ∈ time_listeners h ->
       (l_handle l < next_handle h)%nat /\ exists n, l_action l = foreign_callback n.

(** The intervals the options of an entry give, with their defaults. *)
Definition scan_interval_of (ce : ConfigEntry) : Z :=
  default DEFAULT_SCAN_INTERVAL (options ce !! CONF_SCAN_INTERVAL).
Definition scan_obd_interval_of (ce : ConfigEntry) : Z :=
  default DEFAULT_SCAN_OBD_INTERVAL (options ce !! CONF_SCAN_OBD_INTERVAL).

End MoreObservations.

(** The line [set_update_interval] always logs. *)
Definition setting (interval : Z) : LogRecord :=
  mkLog DEBUG "Setting update interval: %ds" [arg_value (VInt interval)].

(** The exchange is interrupted from the keyboard. *)
Definition script_interrupted : Script :=
  mkScript 0 (Raise (BaseOnly "KeyboardInterrupt")) true (Ok tt).

(** An account built on a host where another component already has a
    listener. *)
Definition shared_account : @Ctx Script :=
  mkCtx (self (fresh_account (script_ok 0 true) 100))
        (mkWorld (mkHass [mkListener 0%nat (foreign_callback 7) 60] 1%nat ∅ [] [] ∅)
                 (stored_entry 100) (script_ok 0 true) [] [] []).

(** The lines [unload] logs for a name: one when it holds a handle. *)
Definition unload_lines (key : string) (held : option handle) : list LogRecord :=
  match held with
  | Some _ => [mkLog DEBUG "Unload: %s" [arg_value (VStr key)]]
  | None => []
  end.

(** The account after the two initial refreshes against [script_ok]. *)
Definition refreshed_account : StarlineAccount :=
  mkAccount
    [(CONF_SCAN_INTERVAL, DEFAULT_SCAN_INTERVAL);
     (CONF_SCAN_OBD_INTERVAL, DEFAULT_SCAN_OBD_INTERVAL)]
    [(CONF_SCAN_INTERVAL, None); (CONF_SCAN_OBD_INTERVAL, None)]
    (mkApi (VStr "user-2") (VStr "new-token") true []).

(** The host of [shared_account], and that host after a setup. *)
Definition shared_world : @World Script := world shared_account.
Definition shared_world_ready : @World Script := after async_setup_entry shared_world.

(** The entry of [w] with the state interval [interval] among its options. *)
Definition with_scan_interval {E} (interval : Z) (w : @World E) : @World E :=
  set_config_entry (fun ce =>
    mkEntry (entry_id ce) (data ce) (<[CONF_SCAN_INTERVAL := interval]> (options ce))
            (update_listeners ce)) w.

(** The account a setup on [shared_world] leaves in the registry. *)
Definition ready_account : StarlineAccount :=
  mkAccount
    [(CONF_SCAN_INTERVAL, DEFAULT_SCAN_INTERVAL);
     (CONF_SCAN_OBD_INTERVAL, DEFAULT_SCAN_OBD_INTERVAL)]
    [(CONF_SCAN_INTERVAL, Some 1%nat); (CONF_SCAN_OBD_INTERVAL, Some 2%nat)]
    (mkApi (VStr "user-2") (VStr "new-token") true []).

(** * Properties *)

(** ** Sequencing and dictionaries *)

Lemma after_bind {S A B} (c : M S A) (k : A -> M S B) (s : S) :
  after (bind c k) s
  = match fst (c s) with
    | Ok a => after (k a) (after c s)
    | Raise _ => after c s
    end.
Proof. unfold after, bind. destruct (c s) as [[a|err] s']; reflexivity. Qed.

Lemma dict_get_set_eq {V} (k : string) (v : V) (d : pydict V) :
  dict_get k (dict_set k v d) = Some v.
Proof.
  induction d as [|[k' v'] d IH]; simpl.
  - by rewrite String.eqb_refl.
  - destruct (String.eqb k k') eqn:Hk; simpl; rewrite Hk; auto.
Qed.

Lemma dict_get_set_ne {V} (k k' : string) (v : V) (d : pydict V) :
  k' <> k -> dict_get k' (dict_set k v d) = dict_get k' d.
Proof.
  intros Hne. induction d as [|[k0 v0] d IH]; simpl.
  - apply String.eqb_neq in Hne. by rewrite Hne.
  - destruct (String.eqb_spec k k0) as [->|Hk]; simpl.
    + apply String.eqb_neq in Hne. by rewrite Hne.
    + by rewrite IH.
Qed.

Lemma Qgtb_lt (a b : Q) : Qgtb a b = true <-> (b < a)%Q.
Proof.
  unfold Qgtb. rewrite negb_true_iff, <- not_true_iff_false, Qle_bool_iff.
  split; [apply Qnot_le_lt | apply Qlt_not_le].
Qed.

(** ** Token renewal *)

Section Renewal.
Context {E : Type} `{Environment E}.

Ltac run_renewal :=
  unfold _update_slnet_token, api_get_user_id, api_set_slnet_token, api_set_user_id,
    async_update_entry, async_create_task, LOGGER, emit, in_world, try_except,
    subscript, bind, ret, raise, modify, get_state; simpl.

Lemma for_each_create_task (ls : list update_listener) (w : @World E) :
  for_each ls (fun l => async_create_task (run_update_listener l)) w
  = (Ok tt, set_hass (fun h =>
       mkHass (time_listeners h) (next_handle h) (hass_data h) (device_registry h)
              (tasks h ++ map run_update_listener ls)%list (services h)) w).
Proof.
  revert w. induction ls as [|l ls IH]; intros w; simpl.
  - unfold ret, set_hass. destruct w as [[] ? ? ? ? ?]; simpl. by rewrite app_nil_r.
  - unfold bind, async_create_task, modify. simpl. rewrite IH.
    unfold set_hass; simpl. by rewrite <- app_assoc.
Qed.

(** C4. When the token exchange raises an error, [_update_slnet_token]
    returns normally: the error is logged, the account (and with it the
    in-memory client) and the whole stored entry, session token and expiry
    included, are as they were. *)
Theorem renewal_failure_is_caught (s : @Ctx E) (slid : value) (err : exn) (e' : E) :
  data (config_entry (world s)) !! DATA_SLID_TOKEN = Some slid ->
  remote_get_user_id slid (env (world s)) = (Raise err, e') ->
  is_Exception err = true ->
  fst (_update_slnet_token s) = Ok tt
  /\ let s' := after _update_slnet_token s in
     self s' = self s
     /\ config_entry (world s') = config_entry (world s)
     /\ hass (world s') = hass (world s)
     /\ log (world s')
        = (log (world s)
           ++ [mkLog ERROR "Error updating SLNet token: %s" [arg_exn err]])%list.
Proof.
  intros Hslid Hremote Hexc. unfold after.
  run_renewal. rewrite Hslid. simpl. rewrite Hremote. simpl. rewrite Hexc. simpl.
  destruct s as [acc [[] ? ? ? ? ?]]; auto.
Qed.

(** C9. When the exchange returns a triple and the write goes through,
    [_update_slnet_token] leaves in the stored data the three new values
    under their keys and every other field as it was. *)
Theorem renewal_writes_back (s : @Ctx E) (slid t e u : value) (e1 e2 : E) :
  data (config_entry (world s)) !! DATA_SLID_TOKEN = Some slid ->
  remote_get_user_id slid (env (world s)) = (Ok (t, e, u), e1) ->
  store_write e1 = (Ok tt, e2) ->
  fst (_update_slnet_token s) = Ok tt
  /\ let d := data (config_entry (world s)) in
     let d' := data (config_entry (world (after _update_slnet_token s))) in
     d' = renewed_data d t e u
     /\ d' !! DATA_SLNET_TOKEN = Some t
     /\ d' !! DATA_EXPIRES = Some e
     /\ d' !! DATA_USER_ID = Some u
     /\ forall k, k <> DATA_SLNET_TOKEN -> k <> DATA_EXPIRES -> k <> DATA_USER_ID ->
          d' !! k = d !! k.
Proof.
  intros Hslid Hremote Hwrite. unfold after.
  run_renewal. rewrite Hslid. simpl. rewrite Hremote. simpl. rewrite Hwrite. simpl.
  rewrite for_each_create_task. simpl.
  split; [reflexivity|]. split; [reflexivity|].
  unfold renewed_data.
  repeat split.
  - rewrite lookup_insert_ne by done. rewrite lookup_insert_ne by done.
    apply lookup_insert_eq.
  - rewrite lookup_insert_ne by done. apply lookup_insert_eq.
  - apply lookup_insert_eq.
  - intros k H1 H2 H3. by rewrite !lookup_insert_ne.
Qed.

(** C10. When the exchange returns a triple and the write to the store
    raises an error, [_update_slnet_token] still returns normally: the
    client was given the new token and user id before the write was
    tried, the error is logged, and the stored data are the old ones. *)
Theorem renewal_is_not_atomic (s : @Ctx E) (slid t e u : value) (err : exn) (e1 e2 : E) :
  data (config_entry (world s)) !! DATA_SLID_TOKEN = Some slid ->
  remote_get_user_id slid (env (world s)) = (Ok (t, e, u), e1) ->
  store_write e1 = (Raise err, e2) ->
  is_Exception err = true ->
  fst (_update_slnet_token s) = Ok tt
  /\ let s' := after _update_slnet_token s in
     api_slnet_token (_api (self s')) = t
     /\ api_user_id (_api (self s')) = u
     /\ data (config_entry (world s')) = data (config_entry (world s))
     /\ events_of _update_slnet_token s
        = [call_update_slnet_token; call_get_user_id slid; call_set_slnet_token t;
           call_set_user_id u; call_async_update_entry]
     /\ log (world s')
        = (log (world s)
           ++ [mkLog ERROR "Error updating SLNet token: %s" [arg_exn err]])%list.
Proof.
  intros Hslid Hremote Hwrite Hexc. unfold after, events_of.
  run_renewal. rewrite Hslid. simpl. rewrite Hremote. simpl. rewrite Hwrite. simpl.
  rewrite Hexc. simpl. auto 10.
Qed.

(** Every run of the renewal starts by recording its call. *)
Lemma update_slnet_token_trace (s : @Ctx E) :
  exists rest,
    trace (world (after _update_slnet_token s))
    = (trace (world s) ++ call_update_slnet_token :: rest)%list.
Proof.
  unfold after. run_renewal.
  destruct (data (config_entry (world s)) !! DATA_SLID_TOKEN) as [slid|]; simpl;
    [|by eexists].
  destruct (remote_get_user_id slid (env (world s))) as [[[[t e] u]|err] e1]; simpl.
  - destruct (store_write e1) as [[[]|err] e2]; simpl.
    + rewrite for_each_create_task. simpl. rewrite <- !app_assoc. by eexists.
    + destruct (is_Exception err); simpl; rewrite <- !app_assoc; by eexists.
  - destruct (is_Exception err); simpl; rewrite <- !app_assoc; by eexists.
Qed.

Lemma api_refresh_trace ev remote (s : @Ctx E) :
  trace (world (after (api_refresh ev remote) s)) = (trace (world s) ++ [ev])%list.
Proof.
  unfold after, api_refresh, in_world, emit, bind, modify, get_state, ret, raise. simpl.
  destruct (remote _ _) as [[[]|err] [api' e']]; reflexivity.
Qed.

(** The check as the code makes it: the renewal runs iff the clock plus
    the value the account holds in [_update_intervals] under the state
    name is past the stored expiry. *)
Lemma update_data_renews_iff (s : @Ctx E) (seconds : Z) (expires : value) (q : Q) :
  dict_get CONF_SCAN_INTERVAL (_update_intervals (self s)) = Some seconds ->
  data (config_entry (world s)) !! DATA_EXPIRES = Some expires ->
  number_of expires = Some q ->
  In call_update_slnet_token (events_of _update_data s)
  <-> (q < clock (env (world s)) + inject_Z seconds)%Q.
Proof.
  intros Hint Hexp Hnum. rewrite <- Qgtb_lt.
  unfold events_of, _update_data, _check_slnet_token.
  unfold bind, get_state, subscript, float_add_int, float_gt. simpl.
  rewrite Hexp. simpl. rewrite Hint. simpl. rewrite Hnum. simpl.
  destruct (Qgtb _ q) eqn:Hgt.
  - split; [done|intros _].
    match goal with |- context [_update_slnet_token ?c] =>
      destruct (update_slnet_token_trace c) as [rest Hrest]; unfold after in Hrest;
      destruct (_update_slnet_token c) as [[[]|err] c'] end; simpl in *.
    + pose proof (api_refresh_trace call_api_update remote_update c') as Hr.
      unfold after in Hr. rewrite Hr, Hrest. simpl. auto.
    + rewrite Hrest. simpl. auto.
  - split; [|done]. unfold ret.
    match goal with |- context [api_refresh ?ev ?r ?c] =>
      pose proof (api_refresh_trace ev r c) as Hr end.
    unfold after in Hr. rewrite Hr. simpl. intros [?|[]]; done.
Qed.

End Renewal.

Lemma renewal_failure_is_caught_witness :
  let s := fresh_account script_exchange_fails 100 in
  let err := OtherException "ConnectionError" in
  (data (config_entry (world s)) !! DATA_SLID_TOKEN = Some (VStr "slid")
   /\ remote_get_user_id (VStr "slid") (env (world s)) = (Raise err, script_exchange_fails)
   /\ is_Exception err = true)
  /\ fst (_update_slnet_token s) = Ok tt
  /\ let s' := after _update_slnet_token s in
     self s' = self s
     /\ config_entry (world s') = config_entry (world s)
     /\ hass (world s') = hass (world s)
     /\ log (world s')
        = (log (world s)
           ++ [mkLog ERROR "Error updating SLNet token: %s" [arg_exn err]])%list.
Proof.
  intros s err. split; [repeat split|].
  apply (renewal_failure_is_caught s (VStr "slid") err script_exchange_fails);
    reflexivity.
Defined.

Lemma renewal_writes_back_witness :
  let s := fresh_account (script_ok 0 true) 100 in
  let d := data (config_entry (world s)) in
  let d' := data (config_entry (world (after _update_slnet_token s))) in
  (d !! DATA_SLID_TOKEN = Some (VStr "slid")
   /\ store_write (script_ok 0 true) = (Ok tt, script_ok 0 true))
  /\ fst (_update_slnet_token s) = Ok tt
  /\ d' = renewed_data d (VStr "new-token") (VInt 100000) (VStr "user-2")
  /\ d' !! DATA_SLNET_TOKEN = Some (VStr "new-token")
  /\ d' !! DATA_EXPIRES = Some (VInt 100000)
  /\ d' !! DATA_USER_ID = Some (VStr "user-2")
  /\ forall k, k <> DATA_SLNET_TOKEN -> k <> DATA_EXPIRES -> k <> DATA_USER_ID ->
       d' !! k = d !! k.
Proof.
  intros s d d'. split; [repeat split|].
  apply (renewal_writes_back s (VStr "slid") (VStr "new-token") (VInt 100000)
           (VStr "user-2") (script_ok 0 true) (script_ok 0 true));
    reflexivity.
Defined.

Lemma renewal_is_not_atomic_witness :
  let s := fresh_account script_write_fails 100 in
  let s' := after _update_slnet_token s in
  let err := OtherException "RuntimeError" in
  (store_write script_write_fails = (Raise err, script_write_fails)
   /\ is_Exception err = true)
  /\ fst (_update_slnet_token s) = Ok tt
  /\ api_slnet_token (_api (self s')) = VStr "new-token"
  /\ api_user_id (_api (self s')) = VStr "user-2"
  /\ data (config_entry (world s')) = data (config_entry (world s))
  /\ events_of _update_slnet_token s
     = [call_update_slnet_token; call_get_user_id (VStr "slid");
        call_set_slnet_token (VStr "new-token"); call_set_user_id (VStr "user-2");
        call_async_update_entry]
  /\ log (world s')
     = (log (world s)
        ++ [mkLog ERROR "Error updating SLNet token: %s" [arg_exn err]])%list.
Proof.
  intros s s' err. split; [repeat split|].
  apply (renewal_is_not_atomic s (VStr "slid") (VStr "new-token") (VInt 100000)
           (VStr "user-2") err script_write_fails script_write_fails);
    reflexivity.
Defined.

(** C1. The account is built, the state interval is set to 10 s, and the
    state is refreshed at time 0 with a session that expires at 100: the
    host polls every 10 s and [0 + 10 > 100] is false, yet the renewal runs,
    because the check adds the 180 s the account was built with. *)
Theorem renewal_ignores_configured_interval :
  let s0 := fresh_account (script_ok 0 true) 100 in
  let s := after (set_update_interval CONF_SCAN_INTERVAL 10) s0 in
  StarlineAccount_init (world0 (script_ok 0 true) 100) = (Ok (self s0), world s0)
  /\ fst (set_update_interval CONF_SCAN_INTERVAL 10 s0) = Ok tt
  /\ live account_update (hass (world s)) = [mkListener 0%nat account_update 10]
  /\ data (config_entry (world s)) !! DATA_EXPIRES = Some (VInt 100)
  /\ clock (env (world s)) = 0%Q
  /\ ~ (inject_Z 100 < clock (env (world s)) + inject_Z 10)%Q
  /\ dict_get CONF_SCAN_INTERVAL (_update_intervals (self s)) = Some 180
  /\ In call_update_slnet_token (events_of _update_data s).
Proof.
  repeat split.
  - vm_compute. discriminate.
  - vm_compute. auto.
Qed.

(** ** What a refresh leaves alone *)

Section Frames.
Context {E : Type} `{Environment E}.

Ltac run_renewal :=
  unfold _update_slnet_token, api_get_user_id, api_set_slnet_token, api_set_user_id,
    async_update_entry, LOGGER, emit, in_world, try_except,
    subscript, bind, ret, raise, modify, get_state; simpl.

Lemma update_slnet_token_frame (s : @Ctx E) :
  untouched (after _update_slnet_token s) = untouched s.
Proof.
  unfold untouched, after. run_renewal.
  destruct (data (config_entry (world s)) !! DATA_SLID_TOKEN) as [slid|]; simpl; [|done].
  destruct (remote_get_user_id slid (env (world s))) as [[[[t e] u]|err] e1]; simpl.
  - destruct (store_write e1) as [[[]|err] e2]; simpl.
    + rewrite for_each_create_task. reflexivity.
    + destruct (is_Exception err); reflexivity.
  - destruct (is_Exception err); reflexivity.
Qed.

Lemma check_slnet_token_frame (s : @Ctx E) :
  untouched (after _check_slnet_token s) = untouched s.
Proof.
  unfold after, _check_slnet_token, bind, get_state, subscript, float_add_int, float_gt,
    ret, raise. simpl.
  destruct (data (config_entry (world s)) !! DATA_EXPIRES) as [v|]; simpl; [|done].
  destruct (dict_get _ _) as [z|]; simpl; [|done].
  destruct (number_of v) as [q|]; simpl; [|done].
  destruct (Qgtb _ _); [|done]. apply update_slnet_token_frame.
Qed.

Lemma api_refresh_frame ev remote (s : @Ctx E) :
  untouched (after (api_refresh ev remote) s) = untouched s.
Proof.
  unfold untouched, after, api_refresh, in_world, emit, bind, modify, get_state, ret, raise. simpl.
  destruct (remote _ _) as [[[]|err] [api' e']]; reflexivity.
Qed.

Lemma update_untouched (s : @Ctx E) :
  untouched (after update s) = untouched s.
Proof.
  unfold update, _update_data. rewrite after_bind.
  destruct (fst (_check_slnet_token s)).
  - by rewrite api_refresh_frame, check_slnet_token_frame.
  - apply check_slnet_token_frame.
Qed.

Lemma update_obd_untouched (s : @Ctx E) :
  untouched (after update_obd s) = untouched s.
Proof.
  unfold update_obd, _update_obd_data. rewrite after_bind.
  destruct (fst (_check_slnet_token s)).
  - by rewrite api_refresh_frame, check_slnet_token_frame.
  - apply check_slnet_token_frame.
Qed.

Lemma update_registries (s : @Ctx E) :
  registries (hass (world (after update s))) = registries (hass (world s)).
Proof. pose proof (update_untouched s) as Hu. unfold untouched in Hu. congruence. Qed.

Lemma update_obd_registries (s : @Ctx E) :
  registries (hass (world (after update_obd s))) = registries (hass (world s)).
Proof. pose proof (update_obd_untouched s) as Hu. unfold untouched in Hu. congruence. Qed.

Lemma update_subscriptions (s : @Ctx E) :
  subscription_view (after update s) = subscription_view s.
Proof.
  pose proof (update_untouched s) as Hu.
  unfold untouched, registries, subscription_view in *. congruence.
Qed.

Lemma update_obd_subscriptions (s : @Ctx E) :
  subscription_view (after update_obd s) = subscription_view s.
Proof.
  pose proof (update_obd_untouched s) as Hu.
  unfold untouched, registries, subscription_view in *. congruence.
Qed.

End Frames.

(** ** Subscriptions *)

Section Subscriptions.
Context {E : Type} `{Environment E}.

Ltac run_subscribe :=
  unfold set_update_interval, set_update_interval_cancel, set_update_interval_install,
    timedelta, async_track_time_interval, call_handle, dict_subscript, LOGGER,
    in_world, bind, ret, raise, modify, get_state; simpl.

(** [set_update_interval] never writes [_update_intervals]. *)
Lemma set_update_interval_keeps_intervals key interval (s : @Ctx E) :
  _update_intervals (self (after (set_update_interval key interval) s))
  = _update_intervals (self s).
Proof.
  unfold after. run_subscribe.
  destruct (dict_get key _) as [[h|]|]; simpl; try reflexivity;
    destruct (_ && _); reflexivity.
Qed.

Lemma NoDup_filter_handles (P : Listener -> Prop) `{forall l, Decision (P l)}
    (ls : list Listener) :
  NoDup (l_handle <$> ls) -> NoDup (l_handle <$> filter P ls).
Proof.
  induction ls as [|l ls IH]; [done|].
  rewrite fmap_cons, NoDup_cons. intros [Hnotin Hnd].
  rewrite filter_cons. destruct (decide (P l)); [|auto].
  rewrite fmap_cons, NoDup_cons. split; [|auto].
  rewrite list_elem_of_fmap. intros (l' & Heq & Hin).
  apply Hnotin. rewrite list_elem_of_fmap. exists l'.
  apply list_elem_of_filter in Hin. tauto.
Qed.

(** Listeners that share a handle, in a list where handles are distinct,
    are at most one. *)
Lemma same_handle_at_most_one (h : handle) (ls : list Listener) :
  NoDup (l_handle <$> ls) -> (forall l, l ∈ ls -> l_handle l = h) ->
  (length ls <= 1)%nat.
Proof.
  intros Hnd Hall. destruct ls as [|l1 [|l2 ls]]; simpl; try lia.
  exfalso. rewrite !fmap_cons in Hnd. apply NoDup_cons in Hnd as [Hnotin _].
  apply Hnotin. rewrite (Hall l1), <- (Hall l2); [left| |left].
  right. left.
Qed.

Lemma filter_none {A} (P : A -> Prop) `{forall x, Decision (P x)} (l : list A) :
  (forall x, x ∈ l -> ~ P x) -> filter P l = [].
Proof.
  induction l as [|x l IH]; intros Hall; [done|].
  rewrite filter_cons_False by (apply Hall; left).
  apply IH. intros y Hy. apply Hall. by right.
Qed.

Lemma method_of_valid (key : string) :
  method_of key = method_of (if String.eqb key CONF_SCAN_INTERVAL
                             then CONF_SCAN_INTERVAL else CONF_SCAN_OBD_INTERVAL).
Proof. unfold method_of. destruct (String.eqb key _); reflexivity. Qed.

Lemma method_of_inj (k k' : string) :
  k = CONF_SCAN_INTERVAL \/ k = CONF_SCAN_OBD_INTERVAL ->
  k' = CONF_SCAN_INTERVAL \/ k' = CONF_SCAN_OBD_INTERVAL ->
  method_of k = method_of k' -> k = k'.
Proof. intros [->| ->] [->| ->]; simpl; done. Qed.

Lemma dict_set_shape {V} (k : string) (v : V) (a b : V) :
  k = CONF_SCAN_INTERVAL \/ k = CONF_SCAN_OBD_INTERVAL ->
  exists a' b',
    dict_set k v [(CONF_SCAN_INTERVAL, a); (CONF_SCAN_OBD_INTERVAL, b)]
    = [(CONF_SCAN_INTERVAL, a'); (CONF_SCAN_OBD_INTERVAL, b')].
Proof. intros [->| ->]; simpl; eauto. Qed.

(** In a consistent state each name has at most one live subscription. *)
Lemma consistent_at_most_one (s : @Ctx E) (key : string) :
  subscriptions_consistent s ->
  (length (live (method_of key) (hass (world s))) <= 1)%nat.
Proof.
  intros [_ _ Hnd Hown].
  set (key' := if String.eqb key CONF_SCAN_INTERVAL
               then CONF_SCAN_INTERVAL else CONF_SCAN_OBD_INTERVAL).
  assert (Hvalid : key' = CONF_SCAN_INTERVAL \/ key' = CONF_SCAN_OBD_INTERVAL)
    by (unfold key'; destruct (String.eqb key _); auto).
  rewrite (method_of_valid key). fold key'. unfold live.
  assert (Hstored : forall l,
             l ∈ filter (fun l => l_action l = method_of key')
                        (time_listeners (hass (world s))) ->
             dict_get key' (_unsubscribe_auto_updater (self s))
             = Some (Some (l_handle l))).
  { intros l [Hact Hin]%list_elem_of_filter. by apply Hown. }
  destruct (dict_get key' (_unsubscribe_auto_updater (self s))) as [[h|]|] eqn:Hget.
  - apply (same_handle_at_most_one h).
    + apply NoDup_filter_handles, Hnd.
    + intros l Hl. specialize (Hstored l Hl). congruence.
  - destruct (filter _ _) as [|l ls]; simpl; [lia|].
    specialize (Hstored l ltac:(left)). congruence.
  - destruct (filter _ _) as [|l ls]; simpl; [lia|].
    specialize (Hstored l ltac:(left)). congruence.
Qed.

Lemma consistent_view (s s' : @Ctx E) :
  subscription_view s' = subscription_view s ->
  subscriptions_consistent s -> subscriptions_consistent s'.
Proof.
  unfold subscription_view. intros [= Hd Hl Hn] [Hshape Hfresh Hnd Hown].
  constructor; unfold handles in *; rewrite ?Hd, ?Hl, ?Hn; auto.
Qed.

Lemma cancel_consistent key interval (s : @Ctx E) :
  subscriptions_consistent s ->
  subscriptions_consistent (after (set_update_interval_cancel key interval) s).
Proof.
  intros [Hshape Hfresh Hnd Hown]. unfold after. run_subscribe.
  destruct (dict_get key _) as [[h|]|]; simpl; constructor; simpl; try assumption.
  - intros l [_ Hin]%list_elem_of_filter. auto.
  - by apply NoDup_filter_handles.
  - intros l key' [_ Hin]%list_elem_of_filter. auto.
Qed.

(** When the first half returns, the name is one of the two and nothing
    is subscribed for it any more. *)
Lemma cancel_clears key interval (s : @Ctx E) :
  subscriptions_consistent s ->
  fst (set_update_interval_cancel key interval s) = Ok tt ->
  (key = CONF_SCAN_INTERVAL \/ key = CONF_SCAN_OBD_INTERVAL)
  /\ forall l,
       l ∈ time_listeners (hass (world (after (set_update_interval_cancel key interval) s))) ->
       l_action l <> method_of key.
Proof.
  intros [(a & b & Hshape) _ _ Hown]. unfold after. run_subscribe.
  assert (Hvalid : is_Some (dict_get key (_unsubscribe_auto_updater (self s))) ->
                   key = CONF_SCAN_INTERVAL \/ key = CONF_SCAN_OBD_INTERVAL).
  { rewrite Hshape. simpl.
    destruct (String.eqb_spec key CONF_SCAN_INTERVAL); [auto|].
    destruct (String.eqb_spec key CONF_SCAN_OBD_INTERVAL); [auto|].
    by intros [? ?]. }
  destruct (dict_get key _) as [[h|]|] eqn:Hget; simpl; [| |done]; intros _;
    (split; [by apply Hvalid|]).
  - intros l [Hne Hin]%list_elem_of_filter Hact.
    specialize (Hown l key Hin (Hvalid ltac:(done)) Hact). congruence.
  - intros l Hin Hact.
    specialize (Hown l key Hin (Hvalid ltac:(done)) Hact). congruence.
Qed.

Lemma cancel_keeps key interval (s : @Ctx E) :
  let s' := after (set_update_interval_cancel key interval) s in
  self s' = self s /\ next_handle (hass (world s')) = next_handle (hass (world s)).
Proof.
  unfold after. run_subscribe. destruct (dict_get key _) as [[h|]|]; simpl; auto.
Qed.

Lemma cancel_cancels key interval (s : @Ctx E) (h : handle) :
  dict_get key (_unsubscribe_auto_updater (self s)) = Some (Some h) ->
  h ∉ handles (hass (world (after (set_update_interval_cancel key interval) s))).
Proof.
  intros Hget. unfold after, handles. run_subscribe. rewrite Hget. simpl.
  rewrite list_elem_of_fmap. intros (l & -> & [Hne _]%list_elem_of_filter). done.
Qed.

Lemma install_consistent key interval (s : @Ctx E) :
  subscriptions_consistent s ->
  key = CONF_SCAN_INTERVAL \/ key = CONF_SCAN_OBD_INTERVAL ->
  (forall l, l ∈ time_listeners (hass (world s)) -> l_action l <> method_of key) ->
  subscriptions_consistent (after (set_update_interval_install key interval) s).
Proof.
  intros [(a & b & Hshape) Hfresh Hnd Hown] Hvalid Hnone. unfold after. run_subscribe.
  destruct (_ && _); simpl; [|by constructor; eauto].
  constructor; simpl.
  - rewrite Hshape. by apply dict_set_shape.
  - intros l [Hin| ->%list_elem_of_singleton]%elem_of_app; simpl; [|lia].
    specialize (Hfresh l Hin). lia.
  - unfold handles in *. simpl. rewrite fmap_app. apply NoDup_app. split; [done|].
    split; [|apply NoDup_singleton].
    intros h (l & -> & Hin)%list_elem_of_fmap Heq%list_elem_of_singleton.
    specialize (Hfresh l Hin). simpl in Heq. lia.
  - intros l key' [Hin| ->%list_elem_of_singleton]%elem_of_app Hvalid' Hact; simpl in *.
    + rewrite dict_get_set_ne; [by apply Hown|].
      intros ->. by apply (Hnone l).
    + fold (method_of key) in Hact.
      rewrite (method_of_inj key key' Hvalid Hvalid' Hact).
      apply dict_get_set_eq.
Qed.

Lemma install_effect key interval (s : @Ctx E) :
  fst (set_update_interval_install key interval s) = Ok tt ->
  let s' := after (set_update_interval_install key interval) s in
  let n := next_handle (hass (world s)) in
  time_listeners (hass (world s'))
  = (time_listeners (hass (world s)) ++ [mkListener n (method_of key) interval])%list
  /\ next_handle (hass (world s')) = S n
  /\ _unsubscribe_auto_updater (self s')
     = dict_set key (Some n) (_unsubscribe_auto_updater (self s)).
Proof.
  unfold after. run_subscribe. destruct (_ && _); simpl; [auto|done].
Qed.

Lemma set_update_interval_consistent key interval (s : @Ctx E) :
  subscriptions_consistent s ->
  subscriptions_consistent (after (set_update_interval key interval) s).
Proof.
  intros Hs. unfold set_update_interval. rewrite after_bind.
  destruct (fst (set_update_interval_cancel key interval s)) as [[]|err] eqn:Hc.
  - destruct (cancel_clears key interval s Hs Hc) as [Hvalid Hnone].
    by apply install_consistent; [apply cancel_consistent| |].
  - by apply cancel_consistent.
Qed.

(** After a call that returns, the name has exactly the subscription the
    call installed, and the handle it held before is gone. *)
Lemma set_update_interval_live key interval (s : @Ctx E) :
  subscriptions_consistent s ->
  fst (set_update_interval key interval s) = Ok tt ->
  let s' := after (set_update_interval key interval) s in
  let n := next_handle (hass (world s)) in
  live (method_of key) (hass (world s')) = [mkListener n (method_of key) interval]
  /\ next_handle (hass (world s')) = S n
  /\ dict_get key (_unsubscribe_auto_updater (self s')) = Some (Some n)
  /\ forall h, dict_get key (_unsubscribe_auto_updater (self s)) = Some (Some h) ->
       h <> n -> h ∉ handles (hass (world s')).
Proof.
  intros Hs Hret.
  pose proof (cancel_clears key interval s Hs) as Hclr.
  pose proof (cancel_keeps key interval s) as Hkeep.
  pose proof (cancel_cancels key interval s) as Hcan.
  assert (Hafter : after (set_update_interval key interval) s
    = match fst (set_update_interval_cancel key interval s) with
      | Ok _ => after (set_update_interval_install key interval)
                  (after (set_update_interval_cancel key interval) s)
      | Raise _ => after (set_update_interval_cancel key interval) s
      end) by apply after_bind.
  revert Hret. unfold set_update_interval at 1. unfold bind.
  unfold after in Hclr, Hkeep, Hcan, Hafter.
  destruct (set_update_interval_cancel key interval s) as [[[]|err] sc];
    simpl in *; [|done].
  intros Hi. destruct Hclr as [Hvalid Hnone]; [done|]. destruct Hkeep as [Hself Hnext].
  destruct (install_effect key interval sc Hi) as (Hls & Hn & Hd).
  unfold after in *. rewrite Hafter. rewrite Hnext in Hls, Hn, Hd.
  repeat split.
  - unfold live. rewrite Hls, filter_app, (filter_none _ _ Hnone). simpl.
    by rewrite filter_cons_True, filter_nil.
  - done.
  - rewrite Hd. apply dict_get_set_eq.
  - intros h Hget Hne. unfold handles. rewrite Hls, fmap_app.
    intros [Hin|Hin%list_elem_of_singleton]%elem_of_app; [|done].
    by apply (Hcan h).
Qed.

(** The calls a call that returns makes on the scheduler: the handle it
    held, if any, is called first, then the subscription is made. *)
Lemma set_update_interval_calls key interval (s : @Ctx E) (held : option handle) :
  dict_get key (_unsubscribe_auto_updater (self s)) = Some held ->
  fst (set_update_interval key interval s) = Ok tt ->
  scheduler_calls (world (after (set_update_interval key interval) s))
  = (scheduler_calls (world s)
     ++ match held with Some h => [call_unsubscribe h] | None => [] end
     ++ [call_track_time_interval (method_of key) interval (next_handle (hass (world s)))])%list.
Proof.
  intros Hget. unfold after, method_of. run_subscribe. rewrite Hget. simpl.
  destruct held as [h|]; simpl; destruct (_ && _); simpl; try done; intros _;
    by rewrite <- ?app_assoc.
Qed.

End Subscriptions.

(** ** Unloading, and the account over its life *)

Section Life.
Context {E : Type} `{Environment E}.

Lemma unload_effect (s : @Ctx E) (a b : option handle) :
  _unsubscribe_auto_updater (self s)
  = [(CONF_SCAN_INTERVAL, a); (CONF_SCAN_OBD_INTERVAL, b)] ->
  fst (unload s) = Ok tt
  /\ let s' := after unload s in
     _unsubscribe_auto_updater (self s')
     = [(CONF_SCAN_INTERVAL, None); (CONF_SCAN_OBD_INTERVAL, None)]
     /\ time_listeners (hass (world s'))
        = cancel_opt b (cancel_opt a (time_listeners (hass (world s))))
     /\ next_handle (hass (world s')) = next_handle (hass (world s)).
Proof.
  destruct s as [[iv unsub api] w]. simpl. intros ->. unfold after.
  destruct a as [ha|], b as [hb|]; repeat split.
Qed.

(** With nothing subscribed, [unload] only writes its first log line. *)
Lemma unload_nothing (s : @Ctx E) :
  _unsubscribe_auto_updater (self s)
  = [(CONF_SCAN_INTERVAL, None); (CONF_SCAN_OBD_INTERVAL, None)] ->
  unload s = (Ok tt, set_world (set_log (fun l => (l ++ [unloading])%list)) s).
Proof.
  destruct s as [[iv unsub api] w]. simpl. intros ->. reflexivity.
Qed.

Lemma unloads_nothing (n : nat) (s : @Ctx E) :
  _unsubscribe_auto_updater (self s)
  = [(CONF_SCAN_INTERVAL, None); (CONF_SCAN_OBD_INTERVAL, None)] ->
  unloads n s = set_world (set_log (fun l => (l ++ repeat unloading n)%list)) s.
Proof.
  revert s. induction n as [|n IH]; intros s Hshape; simpl.
  - destruct s as [acc [? ? ? ? ? ?]]. unfold set_world, set_log. simpl.
    by rewrite app_nil_r.
  - unfold after. rewrite (unload_nothing s Hshape). simpl.
    rewrite IH by done. unfold set_world, set_log. simpl.
    by rewrite <- app_assoc.
Qed.

Lemma elem_of_cancel_opt (o : option handle) (ls : list Listener) (l : Listener) :
  l ∈ cancel_opt o ls <-> l ∈ ls /\ o <> Some (l_handle l).
Proof.
  destruct o as [h|]; simpl.
  - rewrite list_elem_of_filter. split; intros [? ?]; split; congruence.
  - split; [by intros ?|tauto].
Qed.

(** After [unload] no listener runs a method of the account. *)
Lemma unload_clears (s : @Ctx E) :
  subscriptions_consistent s ->
  forall l key, l ∈ time_listeners (hass (world (after unload s))) ->
    l_action l <> method_of key.
Proof.
  intros [(a & b & Hshape) _ _ Hown] l key.
  destruct (unload_effect s a b Hshape) as (_ & _ & -> & _).
  intros [[Hin Ha]%elem_of_cancel_opt Hb]%elem_of_cancel_opt Hact.
  rewrite method_of_valid in Hact.
  destruct (String.eqb key CONF_SCAN_INTERVAL).
  - specialize (Hown l CONF_SCAN_INTERVAL Hin ltac:(auto) Hact).
    rewrite Hshape in Hown. simpl in Hown. congruence.
  - specialize (Hown l CONF_SCAN_OBD_INTERVAL Hin ltac:(auto) Hact).
    rewrite Hshape in Hown. simpl in Hown. congruence.
Qed.

Lemma unload_consistent (s : @Ctx E) :
  subscriptions_consistent s -> subscriptions_consistent (after unload s).
Proof.
  intros Hs. pose proof (unload_clears s Hs) as Hclr.
  destruct Hs as [(a & b & Hshape) Hfresh Hnd Hown].
  destruct (unload_effect s a b Hshape) as (_ & Hd & Hl & Hn).
  constructor.
  - rewrite Hd. eauto.
  - rewrite Hl, Hn.
    intros l [[Hin _]%elem_of_cancel_opt _]%elem_of_cancel_opt. auto.
  - unfold handles in *. rewrite Hl.
    destruct a, b; simpl; auto using NoDup_filter_handles.
  - intros l key Hin _ Hact. by destruct (Hclr l key Hin).
Qed.

Lemma perform_consistent (o : operation) (s : @Ctx E) :
  subscriptions_consistent s -> subscriptions_consistent (after (perform o) s).
Proof.
  destruct o as [key interval| | |]; simpl.
  - apply set_update_interval_consistent.
  - apply unload_consistent.
  - apply consistent_view, update_subscriptions.
  - apply consistent_view, update_obd_subscriptions.
Qed.

Lemma history_consistent (ops : list operation) (s : @Ctx E) :
  subscriptions_consistent s -> subscriptions_consistent (history ops s).
Proof.
  revert s. induction ops as [|o ops IH]; intros s Hs; simpl; [done|].
  by apply IH, perform_consistent.
Qed.

(** The constructor establishes the invariant on a host whose listeners
    all belong to other components. *)
Lemma init_consistent (w w' : @World E) (account : StarlineAccount) :
  StarlineAccount_init w = (Ok account, w') ->
  NoDup (handles (hass w)) ->
  (forall l, l ∈ time_listeners (hass w) ->
     (l_handle l < next_handle (hass w))%nat /\ exists n, l_action l = foreign_callback n) ->
  subscriptions_consistent (mkCtx account w').
Proof.
  unfold StarlineAccount_init, bind, get_state, subscript, ret, raise. simpl.
  destruct (_ !! DATA_USER_ID); simpl; [|done].
  destruct (_ !! DATA_SLNET_TOKEN); simpl; [|done].
  intros [= <- <-] Hnd Hforeign. constructor; simpl.
  - eauto.
  - intros l Hin. by apply Hforeign.
  - done.
  - intros l key Hin _ Hact. destruct (Hforeign l Hin) as [_ [n Hn]].
    rewrite Hn in Hact. unfold method_of in Hact. by destruct (String.eqb _ _).
Qed.

(** C3. From a consistent account, after any sequence of calls of
    [set_update_interval], [unload] and the two refreshes: every name has
    at most one live subscription.  A further call of
    [set_update_interval] cancels before it subscribes: once its first
    half has returned the name has no live subscription at all and the
    handle it held is gone from the scheduler, a call that returns adds
    its listener to the scheduler as the cancellation left it, and the
    calls it made on the scheduler are the call of the handle it held, if
    any, followed by the subscription.  Two calls for one name in
    succession that both return leave exactly the subscription of the
    second, the handle of the first being gone from the scheduler. *)
Theorem at_most_one_subscription
    (s0 : @Ctx E) (ops : list operation) (key : string) (first second : Z) :
  subscriptions_consistent s0 ->
  let s := history ops s0 in
  let s1 := after (set_update_interval key first) s in
  let s2 := after (set_update_interval key second) s1 in
  (forall name, (length (live (method_of name) (hass (world s))) <= 1)%nat)
  /\ (forall name interval,
        (length (live (method_of name)
                  (hass (world (after (set_update_interval_cancel name interval) s))))
         <= 1)%nat)
  /\ (forall name interval,
        let mid := after (set_update_interval_cancel name interval) s in
        fst (set_update_interval_cancel name interval s) = Ok tt ->
        live (method_of name) (hass (world mid)) = []
        /\ (forall h,
              dict_get name (_unsubscribe_auto_updater (self s)) = Some (Some h) ->
              h ∉ handles (hass (world mid))))
  /\ (forall name interval,
        let mid := after (set_update_interval_cancel name interval) s in
        fst (set_update_interval name interval s) = Ok tt ->
        fst (set_update_interval_cancel name interval s) = Ok tt
        /\ time_listeners (hass (world (after (set_update_interval name interval) s)))
           = (time_listeners (hass (world mid))
              ++ [mkListener (next_handle (hass (world s))) (method_of name) interval])%list)
  /\ (forall name interval held,
        dict_get name (_unsubscribe_auto_updater (self s)) = Some held ->
        fst (set_update_interval name interval s) = Ok tt ->
        scheduler_calls (world (after (set_update_interval name interval) s))
        = (scheduler_calls (world s)
           ++ match held with Some h => [call_unsubscribe h] | None => [] end
           ++ [call_track_time_interval (method_of name) interval
                 (next_handle (hass (world s)))])%list)
  /\ (fst (set_update_interval key first s) = Ok tt ->
      fst (set_update_interval key second s1) = Ok tt ->
      live (method_of key) (hass (world s2))
      = [mkListener (S (next_handle (hass (world s)))) (method_of key) second]
      /\ next_handle (hass (world s)) ∉ handles (hass (world s2))).
Proof.
  intros Hs0 s s1 s2.
  assert (Hs : subscriptions_consistent s) by by apply history_consistent.
  split; [|split; [|split; [|split; [|split]]]].
  - intros name. by apply consistent_at_most_one.
  - intros name interval. by apply consistent_at_most_one, cancel_consistent.
  - intros name interval mid Hret.
    destruct (cancel_clears name interval s Hs Hret) as [_ Hnone].
    split.
    + apply filter_none. intros l Hin. by apply Hnone.
    + intros h Hget. by apply (cancel_cancels name interval s h).
  - intros name interval mid.
    assert (Hafter : after (set_update_interval name interval) s
      = match fst (set_update_interval_cancel name interval s) with
        | Ok _ => after (set_update_interval_install name interval) mid
        | Raise _ => mid
        end) by apply after_bind.
    pose proof (cancel_keeps name interval s) as [_ Hn]. fold mid in Hn.
    unfold set_update_interval at 1. unfold bind at 1.
    assert (Hmid : mid = snd (set_update_interval_cancel name interval s)) by done.
    destruct (set_update_interval_cancel name interval s) as [[[]|err] c];
      simpl in *; [|done].
    intros Hret. split; [done|]. subst c.
    rewrite Hafter.
    destruct (install_effect name interval mid Hret) as (Hl & _ & _).
    by rewrite Hl, Hn.
  - intros name interval held. apply set_update_interval_calls.
  - intros Hret1 Hret2.
    destruct (set_update_interval_live key first s Hs Hret1) as (_ & Hn1 & Hd1 & _).
    assert (Hs1 : subscriptions_consistent s1)
      by by apply set_update_interval_consistent.
    destruct (set_update_interval_live key second s1 Hs1 Hret2) as (Hl2 & _ & _ & Hgone).
    fold s1 in Hn1, Hd1. fold s2 in Hl2, Hgone. rewrite Hn1 in Hl2, Hgone.
    split; [done|]. apply Hgone; [done|lia].
Qed.

(** C8. From a consistent account [unload] returns; afterwards both
    handles are cleared, the handles the account held are gone from the
    scheduler and no listener runs a method of the account.  Any number of
    further calls return as well and change nothing but the log, which
    gets the line every call writes. *)
Theorem unload_idempotent (s : @Ctx E) (n : nat) :
  subscriptions_consistent s ->
  let s1 := after unload s in
  fst (unload s) = Ok tt
  /\ _unsubscribe_auto_updater (self s1)
     = [(CONF_SCAN_INTERVAL, None); (CONF_SCAN_OBD_INTERVAL, None)]
  /\ (forall key h,
        dict_get key (_unsubscribe_auto_updater (self s)) = Some (Some h) ->
        h ∉ handles (hass (world s1)))
  /\ live account_update (hass (world s1)) = []
  /\ live account_update_obd (hass (world s1)) = []
  /\ unloads n s1 = set_world (set_log (fun l => (l ++ repeat unloading n)%list)) s1
  /\ fst (unload (unloads n s1)) = Ok tt.
Proof.
  intros Hs s1. pose proof (unload_clears s Hs) as Hclr. fold s1 in Hclr.
  destruct Hs as [(a & b & Hshape) _ _ _].
  destruct (unload_effect s a b Hshape) as (Hret & Hd & Hl & _).
  fold s1 in Hd, Hl.
  assert (Hn : unloads n s1
               = set_world (set_log (fun l => (l ++ repeat unloading n)%list)) s1)
    by by apply unloads_nothing.
  repeat split; try done.
  - intros key h. rewrite Hshape. unfold handles. rewrite Hl. simpl.
    rewrite list_elem_of_fmap.
    destruct (String.eqb key CONF_SCAN_INTERVAL);
      [|destruct (String.eqb key CONF_SCAN_OBD_INTERVAL); [|done]];
      intros [= ->] (l & -> & [[Hin Ha]%elem_of_cancel_opt Hb]%elem_of_cancel_opt);
      done.
  - apply filter_none. intros l Hin. apply (Hclr l CONF_SCAN_INTERVAL Hin).
  - apply filter_none. intros l Hin. apply (Hclr l CONF_SCAN_OBD_INTERVAL Hin).
  - rewrite Hn. rewrite unload_nothing; [done|]. by rewrite <- Hd.
Qed.

End Life.

Section Installing.
Context {E : Type} `{Environment E}.

(** What [set_update_interval] does for a name the account has and an
    interval [timedelta] accepts: the handle held is called, a listener
    for the method of the name is registered with that many seconds and
    its handle kept; [_update_intervals] is not written. *)
Lemma set_update_interval_effect key interval (s : @Ctx E) (prev : option handle) :
  dict_get key (_unsubscribe_auto_updater (self s)) = Some prev ->
  timedelta_min_seconds <= interval <= timedelta_max_seconds ->
  fst (set_update_interval key interval s) = Ok tt
  /\ let s' := after (set_update_interval key interval) s in
     let n := next_handle (hass (world s)) in
     time_listeners (hass (world s'))
     = (cancel_opt prev (time_listeners (hass (world s)))
        ++ [mkListener n (method_of key) interval])%list
     /\ _unsubscribe_auto_updater (self s')
        = dict_set key (Some n) (_unsubscribe_auto_updater (self s))
     /\ _update_intervals (self s') = _update_intervals (self s).
Proof.
  intros Hget [Hlo Hhi]. unfold after.
  unfold set_update_interval, set_update_interval_cancel, set_update_interval_install,
    timedelta, async_track_time_interval, call_handle, dict_subscript, LOGGER,
    in_world, bind, ret, raise, modify, get_state; simpl.
  rewrite Hget. simpl.
  apply Z.leb_le in Hlo, Hhi.
  destruct prev as [h|]; simpl; rewrite Hlo, Hhi; simpl; auto.
Qed.

(** What the token check reads is the same before and after
    [set_update_interval]. *)
Lemma set_update_interval_keeps_check key interval (s : @Ctx E) :
  let s' := after (set_update_interval key interval) s in
  config_entry (world s') = config_entry (world s)
  /\ env (world s') = env (world s)
  /\ _update_intervals (self s') = _update_intervals (self s).
Proof.
  unfold after.
  unfold set_update_interval, set_update_interval_cancel, set_update_interval_install,
    timedelta, async_track_time_interval, call_handle, dict_subscript, LOGGER,
    in_world, bind, ret, raise, modify, get_state; simpl.
  destruct (dict_get key _) as [[h|]|]; simpl; auto;
    destruct (_ && _); simpl; auto.
Qed.

(** Whatever interval is set for whatever name, the next refresh renews
    the token iff the clock plus the value the account held before is past
    the expiry: the interval set plays no part. *)
Lemma renewal_after_set_update_interval key interval (s : @Ctx E)
    (seconds : Z) (expires : value) (q : Q) :
  dict_get CONF_SCAN_INTERVAL (_update_intervals (self s)) = Some seconds ->
  data (config_entry (world s)) !! DATA_EXPIRES = Some expires ->
  number_of expires = Some q ->
  In call_update_slnet_token
     (events_of _update_data (after (set_update_interval key interval) s))
  <-> (q < clock (env (world s)) + inject_Z seconds)%Q.
Proof.
  intros Hint Hexp Hnum.
  destruct (set_update_interval_keeps_check key interval s) as (Hce & Henv & Hiv).
  rewrite <- Henv. apply (update_data_renews_iff _ seconds expires q);
    [by rewrite Hiv|by rewrite Hce|done].
Qed.

End Installing.

Lemma fresh_account_consistent (e : Script) (expires : Z) :
  subscriptions_consistent (fresh_account e expires).
Proof.
  constructor; simpl.
  - eauto.
  - intros l Hin. inversion Hin.
  - constructor.
  - intros l key Hin. inversion Hin.
Defined.

Lemma at_most_one_subscription_witness :
  let s0 := fresh_account (script_ok 0 true) 100 in
  let s := history [op_set_update_interval CONF_SCAN_INTERVAL 30; op_update; op_unload;
                    op_set_update_interval CONF_SCAN_OBD_INTERVAL 600;
                    op_set_update_interval CONF_SCAN_INTERVAL 45] s0 in
  let s1 := after (set_update_interval CONF_SCAN_INTERVAL 60) s in
  let s2 := after (set_update_interval CONF_SCAN_INTERVAL 10) s1 in
  let t := history [op_set_update_interval CONF_SCAN_INTERVAL 30; op_update; op_unload;
                    op_set_update_interval CONF_SCAN_OBD_INTERVAL 600;
                    op_set_update_interval CONF_SCAN_INTERVAL 45;
                    op_set_update_interval CONF_SCAN_INTERVAL 60] s0 in
  let mid := after (set_update_interval_cancel CONF_SCAN_INTERVAL 10) t in
  let t' := after (set_update_interval CONF_SCAN_INTERVAL 10) t in
  subscriptions_consistent s0
  /\ fst (set_update_interval CONF_SCAN_INTERVAL 60 s) = Ok tt
  /\ fst (set_update_interval CONF_SCAN_INTERVAL 10 s1) = Ok tt
  /\ (forall name, (length (live (method_of name) (hass (world s))) <= 1)%nat)
  /\ (time_listeners (hass (world t))
      = [mkListener 1%nat account_update_obd 600; mkListener 3%nat account_update 60]
      /\ live account_update (hass (world mid)) = []
      /\ (3%nat ∉ handles (hass (world mid)))
      /\ time_listeners (hass (world t'))
         = (time_listeners (hass (world mid)) ++ [mkListener 4%nat account_update 10])%list
      /\ scheduler_calls (world t')
         = (scheduler_calls (world t)
            ++ [call_unsubscribe 3%nat]
            ++ [call_track_time_interval account_update 10 4%nat])%list)
  /\ live account_update (hass (world s2)) = [mkListener 4%nat account_update 10]
  /\ 3%nat ∉ handles (hass (world s2)).
Proof.
  intros s0 s s1 s2 t mid t'.
  pose proof (at_most_one_subscription s0
    [op_set_update_interval CONF_SCAN_INTERVAL 30; op_update; op_unload;
     op_set_update_interval CONF_SCAN_OBD_INTERVAL 600;
     op_set_update_interval CONF_SCAN_INTERVAL 45]
    CONF_SCAN_INTERVAL 60 10 (fresh_account_consistent _ _))
    as (Hone & _ & _ & _ & _ & Htwice).
  pose proof (at_most_one_subscription s0
    [op_set_update_interval CONF_SCAN_INTERVAL 30; op_update; op_unload;
     op_set_update_interval CONF_SCAN_OBD_INTERVAL 600;
     op_set_update_interval CONF_SCAN_INTERVAL 45;
     op_set_update_interval CONF_SCAN_INTERVAL 60]
    CONF_SCAN_INTERVAL 60 10 (fresh_account_consistent _ _))
    as (_ & _ & Hmid & Hadd & Hcalls & _).
  fold s0 t in Hmid, Hadd, Hcalls.
  assert (Hc : fst (set_update_interval_cancel CONF_SCAN_INTERVAL 10 t) = Ok tt)
    by (vm_compute; reflexivity).
  assert (Hr : fst (set_update_interval CONF_SCAN_INTERVAL 10 t) = Ok tt)
    by (vm_compute; reflexivity).
  assert (Hh : dict_get CONF_SCAN_INTERVAL (_unsubscribe_auto_updater (self t))
               = Some (Some 3%nat)) by (vm_compute; reflexivity).
  destruct (Hmid CONF_SCAN_INTERVAL 10 Hc) as [Hnone Hgone].
  destruct (Hadd CONF_SCAN_INTERVAL 10 Hr) as [_ Hnew].
  apply conj; [apply fresh_account_consistent|].
  apply conj; [reflexivity|]. apply conj; [reflexivity|]. apply conj; [exact Hone|].
  apply conj; [|exact (Htwice eq_refl eq_refl)].
  apply conj; [vm_compute; reflexivity|]. apply conj; [exact Hnone|].
  apply conj; [exact (Hgone 3%nat Hh)|]. apply conj; [exact Hnew|].
  exact (Hcalls CONF_SCAN_INTERVAL 10 (Some 3%nat) Hh Hr).
Defined.

Lemma unload_idempotent_witness :
  let s := history [op_set_update_interval CONF_SCAN_INTERVAL 30;
                    op_set_update_interval CONF_SCAN_OBD_INTERVAL 600]
                   (fresh_account (script_ok 0 true) 100) in
  let s1 := after unload s in
  (subscriptions_consistent s
   /\ handles (hass (world s)) = [0%nat; 1%nat])
  /\ fst (unload s) = Ok tt
  /\ _unsubscribe_auto_updater (self s1)
     = [(CONF_SCAN_INTERVAL, None); (CONF_SCAN_OBD_INTERVAL, None)]
  /\ (forall key h,
        dict_get key (_unsubscribe_auto_updater (self s)) = Some (Some h) ->
        h ∉ handles (hass (world s1)))
  /\ live account_update (hass (world s1)) = []
  /\ live account_update_obd (hass (world s1)) = []
  /\ unloads 3 s1 = set_world (set_log (fun l => (l ++ repeat unloading 3)%list)) s1
  /\ fst (unload (unloads 3 s1)) = Ok tt.
Proof.
  intros s s1.
  assert (Hs : subscriptions_consistent s)
    by (apply history_consistent, fresh_account_consistent).
  split; [split; [exact Hs|reflexivity]|].
  exact (unload_idempotent s 3 Hs).
Defined.

(** C2. The account is built and the state interval is set to 10 s: the
    call returns, the scheduler holds the one listener that runs [update]
    every 10 s and the account holds its handle, but the value the account
    keeps for the name is still the 180 s it was built with. *)
Theorem set_update_interval_does_not_store :
  let s0 := fresh_account (script_ok 0 true) 100 in
  let s := after (set_update_interval CONF_SCAN_INTERVAL 10) s0 in
  fst (set_update_interval CONF_SCAN_INTERVAL 10 s0) = Ok tt
  /\ time_listeners (hass (world s)) = [mkListener 0%nat account_update 10]
  /\ _unsubscribe_auto_updater (self s)
     = [(CONF_SCAN_INTERVAL, Some 0%nat); (CONF_SCAN_OBD_INTERVAL, None)]
  /\ _update_intervals (self s)
     = [(CONF_SCAN_INTERVAL, 180); (CONF_SCAN_OBD_INTERVAL, 3600)]
  /\ dict_get CONF_SCAN_INTERVAL (_update_intervals (self s)) <> Some 10.
Proof. repeat split. discriminate. Qed.

(** ** Setting an entry up *)

Section Setup.
Context {E : Type} `{Environment E}.

Lemma call_method_registries {A} (account : StarlineAccount) (method : M (@Ctx E) A)
    (w : @World E) :
  (forall s, registries (hass (world (after method s))) = registries (hass (world s))) ->
  registries (hass (after (call_method account method) w)) = registries (hass w).
Proof.
  intros Hm. specialize (Hm (mkCtx account w)). revert Hm.
  unfold after, call_method. destruct (method _) as [[a|err] c]; simpl; auto.
Qed.

Lemma init_keeps_world (w : @World E) : after StarlineAccount_init w = w.
Proof.
  unfold after, StarlineAccount_init, bind, get_state, subscript, ret, raise. simpl.
  destruct (_ !! DATA_USER_ID); simpl; [|done].
  destruct (_ !! DATA_SLNET_TOKEN); done.
Qed.

Lemma initial_refresh_registries (w : @World E) :
  registries (hass (after initial_refresh w)) = registries (hass w).
Proof.
  unfold initial_refresh. rewrite after_bind, init_keeps_world.
  destruct (fst (StarlineAccount_init w)) as [account|]; [|done].
  rewrite after_bind.
  pose proof (call_method_registries account update w update_registries) as H1.
  destruct (fst (call_method account update w)) as [r1|]; [|done].
  rewrite after_bind.
  pose proof (call_method_registries (snd r1) update_obd
                (after (call_method account update) w) update_obd_registries) as H2.
  destruct (fst (call_method _ update_obd _)) as [r2|]; [|congruence].
  unfold after at 1, ret. simpl. congruence.
Qed.

(** C5. When the account is built, both refreshes complete and the client
    is not available after them, [async_setup_entry] raises
    [ConfigEntryNotReady]; the registry of accounts, the device registry,
    the services and the scheduler of the host are as they were before. *)
Theorem setup_not_ready (w w1 : @World E) (account : StarlineAccount) :
  initial_refresh w = (Ok account, w1) ->
  available (_api account) = false ->
  async_setup_entry w = (Raise ConfigEntryNotReady, w1)
  /\ hass_data (hass w1) = hass_data (hass w)
  /\ device_registry (hass w1) = device_registry (hass w)
  /\ services (hass w1) = services (hass w)
  /\ time_listeners (hass w1) = time_listeners (hass w).
Proof.
  intros Hrefresh Hav. split.
  - revert Hrefresh. unfold async_setup_entry, initial_refresh, bind.
    destruct (StarlineAccount_init w) as [[a0|err] w0]; [|done].
    destruct (call_method a0 update w0) as [[r1|err] w01]; [|done].
    destruct (call_method (snd r1) update_obd w01) as [[r2|err] w02]; [|done].
    unfold ret, raise. intros [= -> ->]. by rewrite Hav.
  - pose proof (initial_refresh_registries w) as Hf. unfold after in Hf.
    rewrite Hrefresh in Hf. simpl in Hf. unfold registries in Hf.
    by simplify_eq.
Qed.

End Setup.


Lemma setup_not_ready_witness :
  let w := world0 (script_ok 0 false) 100 in
  let w1 := after initial_refresh w in
  (fst (initial_refresh w)
   = Ok (mkAccount
           [(CONF_SCAN_INTERVAL, DEFAULT_SCAN_INTERVAL);
            (CONF_SCAN_OBD_INTERVAL, DEFAULT_SCAN_OBD_INTERVAL)]
           [(CONF_SCAN_INTERVAL, None); (CONF_SCAN_OBD_INTERVAL, None)]
           (mkApi (VStr "user-2") (VStr "new-token") false []))
   /\ trace w1
      = [call_update_slnet_token; call_get_user_id (VStr "slid");
         call_set_slnet_token (VStr "new-token"); call_set_user_id (VStr "user-2");
         call_async_update_entry; call_api_update; call_api_update_obd])
  /\ async_setup_entry w = (Raise ConfigEntryNotReady, w1)
  /\ hass_data (hass w1) = hass_data (hass w)
  /\ device_registry (hass w1) = device_registry (hass w)
  /\ services (hass w1) = services (hass w)
  /\ time_listeners (hass w1) = time_listeners (hass w).
Proof.
  intros w w1. split; [split; vm_compute; reflexivity|].
  apply (setup_not_ready w w1
           (mkAccount
              [(CONF_SCAN_INTERVAL, DEFAULT_SCAN_INTERVAL);
               (CONF_SCAN_OBD_INTERVAL, DEFAULT_SCAN_OBD_INTERVAL)]
              [(CONF_SCAN_INTERVAL, None); (CONF_SCAN_OBD_INTERVAL, None)]
              (mkApi (VStr "user-2") (VStr "new-token") false []))).
  - vm_compute. reflexivity.
  - reflexivity.
Defined.

(** ** The services that set the intervals *)

Section Services.
Context {E : Type} `{Environment E}.

(** What a schema lets through is the one key it requires, coerced. *)
Lemma validate_accepts {S} (schema : Schema) (service_data : gmap string value)
    (call_data : gmap string Z) (s s' : S) :
  validate schema service_data s = (Ok call_data, s') ->
  s' = s
  /\ exists v z,
       service_data !! required_key schema = Some v
       /\ py_int v = Some z
       /\ minimum schema <= z
       /\ dom service_data ⊆ {[required_key schema]}
       /\ call_data = {[required_key schema := z]}.
Proof.
  unfold validate, ret, raise.
  destruct (service_data !! required_key schema) as [v|] eqn:Hlook; [|done].
  case_bool_decide as Hdom; [|done].
  destruct (py_int v) as [z|] eqn:Hint; [|done].
  destruct (minimum schema <=? z) eqn:Hmin; [|done].
  intros [= <- <-]. split; [done|]. exists v, z. apply Z.leb_le in Hmin.
  repeat split; done.
Qed.

(** The handler needs both keys: on data with a single key it raises
    [KeyError] before anything is written. *)
Lemma async_set_scan_interval_single (key : string) (z : Z) (w : @World E) :
  exists missing, async_set_scan_interval {[key := z]} w = (Raise (KeyError missing), w).
Proof.
  unfold async_set_scan_interval, bind, get_state, subscript, ret, raise. simpl.
  destruct (decide (key = CONF_SCAN_INTERVAL)) as [->|Hne].
  - exists CONF_SCAN_OBD_INTERVAL. rewrite lookup_singleton_eq. simpl.
    by rewrite lookup_singleton_ne.
  - exists CONF_SCAN_INTERVAL. by rewrite lookup_singleton_ne.
Qed.

(** A call of a service whose handler is [async_set_scan_interval] and
    that has a schema never returns: either the schema rejects the data,
    or the handler raises [KeyError]; the world is as before. *)
Lemma set_scan_interval_never_returns (domain service : string) (schema : Schema)
    (service_data : gmap string value) (w : @World E) :
  services (hass w) !! (domain, service)
  = Some (mkService handler_set_scan_interval (Some schema)) ->
  exists err, async_call domain service service_data w = (Raise err, w).
Proof.
  intros Hsvc. unfold async_call, bind, get_state. simpl. rewrite Hsvc. simpl.
  destruct (validate schema service_data w) as [[call_data|err] w'] eqn:Hv.
  - destruct (validate_accepts _ _ _ _ _ Hv) as (-> & v & z & _ & _ & _ & _ & ->).
    destruct (async_set_scan_interval_single (required_key schema) z w) as [missing Hm].
    rewrite Hm. eauto.
  - assert (w' = w) as ->; [|eauto].
    revert Hv. unfold validate, ret, raise.
    repeat (case_match || case_bool_decide); by intros [= _ <-].
Qed.

End Services.

(** C6. After a setup that succeeded, the service that sets the state
    interval takes [{state: 15}]: its schema asks for nothing about the OBD
    interval, the handler then raises [KeyError] for the OBD key and the
    options of the entry are not written.  The same service rejects
    [{state: 5, obd-state: 50}], and so does the service for the OBD
    interval. *)
Theorem set_scan_interval_accepted_not_persisted :
  let accepted : gmap string value := {[CONF_SCAN_INTERVAL := VInt 15]} in
  let low : gmap string value :=
    <[CONF_SCAN_OBD_INTERVAL := VInt 50]> {[CONF_SCAN_INTERVAL := VInt 5]} in
  fst (async_setup_entry (world0 (script_ok 0 true) 100)) = Ok true
  /\ services (hass world_ready) !! (DOMAIN, SERVICE_SET_SCAN_INTERVAL)
     = Some (mkService handler_set_scan_interval (Some (mkSchema CONF_SCAN_INTERVAL 10)))
  /\ fst (validate (mkSchema CONF_SCAN_INTERVAL 10) accepted world_ready)
     = Ok {[CONF_SCAN_INTERVAL := 15]}
  /\ fst (async_call DOMAIN SERVICE_SET_SCAN_INTERVAL accepted world_ready)
     = Raise (KeyError CONF_SCAN_OBD_INTERVAL)
  /\ options (config_entry
                (after (async_call DOMAIN SERVICE_SET_SCAN_INTERVAL accepted) world_ready))
     = options (config_entry world_ready)
  /\ options (config_entry world_ready) = ∅
  /\ fst (async_call DOMAIN SERVICE_SET_SCAN_INTERVAL low world_ready)
     = Raise (Invalid "extra keys not allowed")
  /\ fst (async_call DOMAIN SERVICE_SET_SCAN_OBD_INTERVAL low world_ready)
     = Raise (Invalid "extra keys not allowed").
Proof. intros accepted low. repeat (apply conj); vm_compute; reflexivity. Qed.

(** ** The attribute helpers *)

(** C7, as stated, fails: the location helper raises [KeyError] on a
    snapshot whose position has no timestamp. *)
Lemma gps_attrs_raises_without_ts :
  gps_attrs device_without_position = Raise (KeyError "ts").
Proof. reflexivity. Qed.

(** C7, amended.  The balance, GSM and errors helpers are total functions
    of the snapshot into a dictionary, and a field the snapshot lacks is
    [None] in it.  The location helper, a function of the snapshot as
    well, raises [KeyError] when the position has no timestamp, raises what
    the formatting raises, and returns the formatted time with the online
    flag otherwise. *)
Theorem attrs_of_snapshot (device : StarlineDevice) :
  (forall field, balance device !! field = None -> get (balance device) field = VNone)
  /\ (forall field, errors device !! field = None -> get (errors device) field = VNone)
  /\ balance_attrs device
     = [("operator", get (balance device) "operator");
        ("state", get (balance device) "state");
        ("updated", get (balance device) "ts")]
  /\ errors_attrs device = [("errors", get (errors device) "errors")]
  /\ gsm_attrs device
     = [("raw", gsm_level device); ("imei", imei device); ("phone", phone device);
        ("online", online device)]
  /\ (position device !! "ts" = None -> gps_attrs device = Raise (KeyError "ts"))
  /\ (forall ts err,
        position device !! "ts" = Some ts ->
        utcfromtimestamp_isoformat ts = Raise err ->
        gps_attrs device = Raise err)
  /\ (forall ts updated,
        position device !! "ts" = Some ts ->
        utcfromtimestamp_isoformat ts = Ok updated ->
        gps_attrs device = Ok [("updated", VStr updated); ("online", online device)]).
Proof.
  unfold gps_attrs, get.
  split; [by intros field ->|]. split; [by intros field ->|].
  do 3 (split; [reflexivity|]).
  split; [by intros ->|].
  split; intros ts r -> ->; reflexivity.
Qed.

Lemma attrs_of_snapshot_witness :
  (balance device_without_position !! "operator" = None
   /\ position device_without_position !! "ts" = None
   /\ position (device_at (VInt 0)) !! "ts" = Some (VInt 0)
   /\ utcfromtimestamp_isoformat (VInt 0) = Ok "1970-01-01T00:00:00"
   /\ position (device_at VNone) !! "ts" = Some VNone
   /\ utcfromtimestamp_isoformat VNone = Raise TypeError)
  /\ balance_attrs device_without_position
     = [("operator", VNone); ("state", VNone); ("updated", VNone)]
  /\ errors_attrs device_without_position = [("errors", VNone)]
  /\ gps_attrs device_without_position = Raise (KeyError "ts")
  /\ gps_attrs (device_at VNone) = Raise TypeError
  /\ gps_attrs (device_at (VInt 0))
     = Ok [("updated", VStr "1970-01-01T00:00:00"); ("online", VBool true)].
Proof.
  destruct (attrs_of_snapshot device_without_position)
    as (Hb & He & Hbal & Herr & _ & Hgps & _ & _).
  destruct (attrs_of_snapshot (device_at VNone)) as (_ & _ & _ & _ & _ & _ & Hraise & _).
  destruct (attrs_of_snapshot (device_at (VInt 0))) as (_ & _ & _ & _ & _ & _ & _ & Hok).
  split; [repeat (apply conj); vm_compute; reflexivity|].
  split; [rewrite Hbal, !Hb by reflexivity; reflexivity|].
  split; [rewrite Herr, He by reflexivity; reflexivity|].
  split; [apply Hgps; reflexivity|].
  split; [apply (Hraise VNone); reflexivity|].
  apply (Hok (VInt 0)); vm_compute; reflexivity.
Defined.

(** The formatting of a timestamp, on a few instants. *)
Example utcfromtimestamp_isoformat_samples :
  map utcfromtimestamp_isoformat
      [VInt 0; VInt 951782400; VFloat (-1 # 2); VFloat (1234567891234567 # 1000000);
       VInt 253402300799; VInt 253402300800; VInt (-62135596801); VStr "0";
       VFloat (5902958103587057 # 2361183241434822606848);
       VInt 67768036191676799; VInt 67768036191676800; VInt (2 ^ 63);
       VFloat (inject_Z (10 ^ 19))]
  = [Ok "1970-01-01T00:00:00"; Ok "2000-02-29T00:00:00";
     Ok "1969-12-31T23:59:59.500000"; Ok "2009-02-13T23:31:31.234567";
     Ok "9999-12-31T23:59:59"; Raise ValueError; Raise ValueError; Raise TypeError;
     Ok "1970-01-01T00:00:00.000002";
     Raise ValueError; Raise (OtherException "OSError"); Raise OverflowError;
     Raise OverflowError].
Proof. vm_compute. reflexivity. Qed.

(** [int(v)] on a few values. *)
Example py_int_samples :
  map py_int [VStr " 12 "; VStr "-7"; VStr "1_000"; VStr "1__0"; VStr "12a"; VStr "";
              VFloat (-7 # 2); VNone; VStr "+5"; VStr "_5"; VStr "5_"; VStr "1 2"]
  = [Some 12; Some (-7); Some 1000; None; None; None; Some (-3); None; Some 5; None;
     None; None].
Proof. reflexivity. Qed.

(** * Further properties *)

(** ** The token check and the refreshes *)

Section Refreshing.
Context {E : Type} `{Environment E}.

Ltac run_renewal :=
  unfold _update_slnet_token, api_get_user_id, api_set_slnet_token, api_set_user_id,
    async_update_entry, LOGGER, emit, in_world, try_except,
    subscript, bind, ret, raise, modify, get_state; simpl.

Ltac run_check :=
  unfold _update_data, _update_obd_data, _check_slnet_token, bind, get_state, subscript,
    float_add_int, float_gt; simpl.

Lemma Qgtb_le (a b : Q) : Qgtb a b = false <-> (a <= b)%Q.
Proof. unfold Qgtb. rewrite negb_false_iff. apply Qle_bool_iff. Qed.

(** A refresh of the client, spelled out. *)
Lemma api_refresh_run ev remote (s : @Ctx E) :
  api_refresh ev remote s
  = let '(r, (api', e')) := remote (_api (self s)) (env (world s)) in
    (match r with Ok _ => Ok tt | Raise err => Raise err end,
     mkCtx (set_api (fun _ => api') (self s))
           (set_env e' (set_trace (fun t => (t ++ [ev])%list) (world s)))).
Proof.
  unfold api_refresh, in_world, emit, bind, modify, get_state, ret, raise. simpl.
  destruct (remote _ _) as [[[]|err] [api' e']]; reflexivity.
Qed.

(** With a token that is not about to expire the check does nothing. *)
Lemma check_when_fresh (s : @Ctx E) (seconds : Z) (expires : value) (q : Q) :
  dict_get CONF_SCAN_INTERVAL (_update_intervals (self s)) = Some seconds ->
  data (config_entry (world s)) !! DATA_EXPIRES = Some expires ->
  number_of expires = Some q ->
  (clock (env (world s)) + inject_Z seconds <= q)%Q ->
  _check_slnet_token s = (Ok tt, s).
Proof.
  intros Hint Hexp Hnum Hle. apply Qgtb_le in Hle. run_check.
  rewrite Hexp. simpl. rewrite Hint. simpl. rewrite Hnum. simpl. by rewrite Hle.
Qed.

(** Whether the check calls the renewal hangs on the state interval the
    account holds and on the world, on nothing else of the account. *)
Lemma renewal_due_depends (s s' : @Ctx E) :
  dict_get CONF_SCAN_INTERVAL (_update_intervals (self s))
  = dict_get CONF_SCAN_INTERVAL (_update_intervals (self s')) ->
  world s = world s' ->
  renewal_due s <-> renewal_due s'.
Proof.
  destruct s as [a w], s' as [a' w']. simpl. intros Hint <-.
  unfold renewal_due, events_of. run_check. rewrite <- Hint.
  destruct (data (config_entry w) !! DATA_EXPIRES) as [expires|]; simpl; [|done].
  destruct (dict_get CONF_SCAN_INTERVAL (_update_intervals a)) as [seconds|]; simpl;
    [|done].
  destruct (number_of expires) as [q|]; simpl; [|done].
  destruct (Qgtb _ q); simpl; [|done].
  split; intros _;
    match goal with |- context [_update_slnet_token ?c] =>
      destruct (update_slnet_token_trace c) as [rest Hrest]; unfold after in Hrest;
      rewrite Hrest; simpl; auto end.
Qed.

(** A refresh calls the renewal iff its check does. *)
Lemma refresh_renews_iff_due ev remote (s : @Ctx E) :
  ev <> call_update_slnet_token ->
  In call_update_slnet_token (events_of (_check_slnet_token >>> api_refresh ev remote) s)
  <-> renewal_due s.
Proof.
  intros Hev. unfold renewal_due, events_of, bind.
  destruct (_check_slnet_token _) as [[[]|err] c]; simpl; [|done].
  pose proof (api_refresh_trace ev remote c) as Hr. unfold after in Hr. rewrite Hr.
  rewrite in_app_iff. simpl. split; [intros [?|[?|[]]]; done|auto].
Qed.

(** X1. The OBD refresh decides on the renewal as the state refresh does,
    from the same state: it calls the renewal iff the state refresh would;
    and the value the account holds under the OBD name plays no part in
    it, whatever it is changed to. *)
Theorem obd_refresh_renews_on_state_interval (s : @Ctx E) (seconds : Z) :
  (In call_update_slnet_token (events_of _update_obd_data s)
   <-> In call_update_slnet_token (events_of _update_data s))
  /\ (In call_update_slnet_token
         (events_of _update_obd_data (with_interval CONF_SCAN_OBD_INTERVAL seconds s))
      <-> In call_update_slnet_token (events_of _update_obd_data s)).
Proof.
  unfold _update_obd_data, _update_data.
  rewrite !refresh_renews_iff_due by done. split; [done|].
  apply renewal_due_depends; [|done].
  unfold with_interval. simpl. by rewrite dict_get_set_ne.
Qed.

(** X2. While the stored expiry is at least the clock plus the interval
    the account holds, the check changes nothing and each refresh makes
    the one call of the client, no token exchange. *)
Theorem fresh_token_is_not_renewed
    (s : @Ctx E) (seconds : Z) (expires : value) (q : Q) :
  dict_get CONF_SCAN_INTERVAL (_update_intervals (self s)) = Some seconds ->
  data (config_entry (world s)) !! DATA_EXPIRES = Some expires ->
  number_of expires = Some q ->
  (clock (env (world s)) + inject_Z seconds <= q)%Q ->
  _check_slnet_token s = (Ok tt, s)
  /\ events_of _update_data s = [call_api_update]
  /\ events_of _update_obd_data s = [call_api_update_obd].
Proof.
  intros Hint Hexp Hnum Hle. split; [by apply (check_when_fresh s seconds expires q)|].
  unfold events_of, _update_data, _update_obd_data, bind.
  rewrite (check_when_fresh _ seconds expires q) by done.
  rewrite !api_refresh_run.
  destruct (remote_update _ _) as [r [api' e']].
  destruct (remote_update_obd _ _) as [r2 [api2 e2]]. simpl. auto.
Qed.

(** X3. Without a stored expiry both refreshes raise [KeyError] before
    anything is called or changed. *)
Theorem refresh_needs_stored_expiry (s : @Ctx E) :
  data (config_entry (world s)) !! DATA_EXPIRES = None ->
  _update_data s = (Raise (KeyError DATA_EXPIRES), s)
  /\ _update_obd_data s = (Raise (KeyError DATA_EXPIRES), s).
Proof. intros Hexp. run_check. rewrite Hexp. auto. Qed.

(** X4. With a stored expiry that is not a number both refreshes raise
    [TypeError] before anything is called or changed. *)
Theorem refresh_needs_numeric_expiry (s : @Ctx E) (expires : value) :
  data (config_entry (world s)) !! DATA_EXPIRES = Some expires ->
  number_of expires = None ->
  _update_data s = (Raise TypeError, s)
  /\ _update_obd_data s = (Raise TypeError, s).
Proof.
  intros Hexp Hnum. run_check. rewrite Hexp. simpl.
  destruct (dict_get _ _); simpl; [rewrite Hnum|]; auto.
Qed.

(** X5. Without a stored identity token the renewal raises [KeyError]:
    the lookup stands before the [try], so the error is neither caught nor
    logged, and the exchange is not attempted. *)
Theorem renewal_needs_identity_token (s : @Ctx E) :
  data (config_entry (world s)) !! DATA_SLID_TOKEN = None ->
  _update_slnet_token s
  = (Raise (KeyError DATA_SLID_TOKEN),
     set_world (set_trace (fun t => (t ++ [call_update_slnet_token])%list)) s)
  /\ events_of _update_slnet_token s = [call_update_slnet_token].
Proof.
  intros Hslid. unfold events_of. run_renewal. rewrite Hslid. auto.
Qed.

(** X6. What the exchange raises that is not an [Exception] passes
    through the renewal: it reaches the caller, nothing is logged, the
    account and the stored entry are as they were. *)
Theorem renewal_lets_other_exceptions_through
    (s : @Ctx E) (slid : value) (err : exn) (e' : E) :
  data (config_entry (world s)) !! DATA_SLID_TOKEN = Some slid ->
  remote_get_user_id slid (env (world s)) = (Raise err, e') ->
  is_Exception err = false ->
  fst (_update_slnet_token s) = Raise err
  /\ let s' := after _update_slnet_token s in
     self s' = self s
     /\ config_entry (world s') = config_entry (world s)
     /\ log (world s') = log (world s).
Proof.
  intros Hslid Hremote Hexc. unfold after.
  run_renewal. rewrite Hslid. simpl. rewrite Hremote. simpl. rewrite Hexc. simpl.
  auto.
Qed.

(** X7. A renewal that fails does not stop the refresh: when the stored
    expiry lies a second or more before the clock plus the interval the
    account holds (clock and interval not negative, their sum within the
    integers a double holds exactly, so that the sum Python computes is
    past the expiry as well) and the exchange raises an error, the client
    is still refreshed, with the old token, and the result of the refresh
    is the result of [update]. *)
Theorem failed_renewal_does_not_stop_refresh
    (s : @Ctx E) (seconds : Z) (expires slid : value) (q : Q) (err : exn) (e' : E) :
  dict_get CONF_SCAN_INTERVAL (_update_intervals (self s)) = Some seconds ->
  data (config_entry (world s)) !! DATA_EXPIRES = Some expires ->
  number_of expires = Some q ->
  0 <= seconds ->
  (0 <= clock (env (world s)))%Q ->
  (clock (env (world s)) + inject_Z seconds <= inject_Z (2 ^ 53))%Q ->
  (q + 1 <= clock (env (world s)) + inject_Z seconds)%Q ->
  data (config_entry (world s)) !! DATA_SLID_TOKEN = Some slid ->
  remote_get_user_id slid (env (world s)) = (Raise err, e') ->
  is_Exception err = true ->
  events_of _update_data s
  = [call_update_slnet_token; call_get_user_id slid; call_api_update]
  /\ fst (_update_data s) = match fst (remote_update (_api (self s)) e') with
                            | Ok _ => Ok tt
                            | Raise err' => Raise err'
                            end
  /\ config_entry (world (after _update_data s)) = config_entry (world s).
Proof.
  intros Hint Hexp Hnum _ _ _ Hle Hslid Hremote Hexc.
  assert (Hlt : (q < clock (env (world s)) + inject_Z seconds)%Q) by lra.
  apply Qgtb_lt in Hlt.
  unfold events_of, after. run_check.
  rewrite Hexp. simpl. rewrite Hint. simpl. rewrite Hnum. simpl. rewrite Hlt.
  run_renewal. rewrite Hslid. simpl. rewrite Hremote. simpl. rewrite Hexc. simpl.
  rewrite !api_refresh_run. simpl.
  destruct (remote_update _ _) as [r [api' e'']]. simpl. auto.
Qed.

(** X8. What a renewal stores is what the next check reads: after a
    renewal that went through, with a new expiry at least the clock plus
    the interval the account holds, the check does nothing. *)
Theorem renewed_token_is_fresh
    (s : @Ctx E) (slid t e u : value) (e1 e2 : E) (seconds : Z) (q : Q) :
  data (config_entry (world s)) !! DATA_SLID_TOKEN = Some slid ->
  remote_get_user_id slid (env (world s)) = (Ok (t, e, u), e1) ->
  store_write e1 = (Ok tt, e2) ->
  dict_get CONF_SCAN_INTERVAL (_update_intervals (self s)) = Some seconds ->
  number_of e = Some q ->
  (clock e2 + inject_Z seconds <= q)%Q ->
  let s' := after _update_slnet_token s in
  env (world s') = e2
  /\ _check_slnet_token s' = (Ok tt, s').
Proof.
  intros Hslid Hremote Hwrite Hint Hnum Hle s'.
  assert (Hs' : env (world s') = e2
                /\ _update_intervals (self s') = _update_intervals (self s)
                /\ data (config_entry (world s')) !! DATA_EXPIRES = Some e).
  { unfold s', after. run_renewal. rewrite Hslid. simpl. rewrite Hremote. simpl.
    rewrite Hwrite. simpl. rewrite for_each_create_task. simpl.
    split; [done|]. split; [done|].
    rewrite lookup_insert_ne by done. apply lookup_insert_eq. }
  destruct Hs' as (Henv & Hiv & Hexp). split; [done|].
  apply (check_when_fresh s' seconds e q); [by rewrite Hiv|done..|].
  by rewrite Henv.
Qed.

End Refreshing.

Lemma fresh_token_is_not_renewed_witness :
  let s := fresh_account (script_ok 0 true) 1000 in
  (clock (env (world s)) + inject_Z 180 <= inject_Z 1000)%Q
  /\ _check_slnet_token s = (Ok tt, s)
  /\ events_of _update_data s = [call_api_update]
  /\ events_of _update_obd_data s = [call_api_update_obd].
Proof.
  intros s.
  assert (Hle : (clock (env (world s)) + inject_Z 180 <= inject_Z 1000)%Q)
    by (vm_compute; discriminate).
  split; [exact Hle|].
  apply (fresh_token_is_not_renewed s 180 (VInt 1000) (inject_Z 1000));
    [reflexivity..|exact Hle].
Defined.

Lemma refresh_needs_stored_expiry_witness :
  let s := without_stored DATA_EXPIRES (fresh_account (script_ok 0 true) 100) in
  _update_data s = (Raise (KeyError DATA_EXPIRES), s)
  /\ _update_obd_data s = (Raise (KeyError DATA_EXPIRES), s).
Proof.
  intros s. apply (refresh_needs_stored_expiry s). vm_compute. reflexivity.
Defined.

Lemma refresh_needs_numeric_expiry_witness :
  let s := with_stored DATA_EXPIRES (VStr "tomorrow") (fresh_account (script_ok 0 true) 100) in
  _update_data s = (Raise TypeError, s)
  /\ _update_obd_data s = (Raise TypeError, s).
Proof.
  intros s. apply (refresh_needs_numeric_expiry s (VStr "tomorrow")).
  - vm_compute. reflexivity.
  - reflexivity.
Defined.

Lemma renewal_needs_identity_token_witness :
  let s := without_stored DATA_SLID_TOKEN (fresh_account (script_ok 0 true) 100) in
  _update_slnet_token s
  = (Raise (KeyError DATA_SLID_TOKEN),
     set_world (set_trace (fun t => (t ++ [call_update_slnet_token])%list)) s)
  /\ events_of _update_slnet_token s = [call_update_slnet_token].
Proof.
  intros s. apply (renewal_needs_identity_token s). vm_compute. reflexivity.
Defined.

Lemma renewal_lets_other_exceptions_through_witness :
  let s := fresh_account script_interrupted 100 in
  let s' := after _update_slnet_token s in
  fst (_update_slnet_token s) = Raise (BaseOnly "KeyboardInterrupt")
  /\ self s' = self s
  /\ config_entry (world s') = config_entry (world s)
  /\ log (world s') = log (world s).
Proof.
  intros s s'.
  apply (renewal_lets_other_exceptions_through s (VStr "slid")
           (BaseOnly "KeyboardInterrupt") script_interrupted).
  - vm_compute. reflexivity.
  - reflexivity.
  - reflexivity.
Defined.

Lemma failed_renewal_does_not_stop_refresh_witness :
  let s := fresh_account script_exchange_fails 100 in
  (inject_Z 100 + 1 <= clock (env (world s)) + inject_Z 180)%Q
  /\ events_of _update_data s
     = [call_update_slnet_token; call_get_user_id (VStr "slid"); call_api_update]
  /\ fst (_update_data s) = Ok tt
  /\ config_entry (world (after _update_data s)) = config_entry (world s).
Proof.
  intros s.
  assert (Hle : (inject_Z 100 + 1 <= clock (env (world s)) + inject_Z 180)%Q)
    by (vm_compute; discriminate).
  split; [exact Hle|].
  destruct (failed_renewal_does_not_stop_refresh s 180 (VInt 100) (VStr "slid")
              (inject_Z 100) (OtherException "ConnectionError") script_exchange_fails)
    as (Hev & Hres & Hce);
    [reflexivity | vm_compute; reflexivity | reflexivity | lia
    | vm_compute; discriminate | vm_compute; discriminate | exact Hle
    | vm_compute; reflexivity | reflexivity | reflexivity |].
  split; [exact Hev|]. split; [rewrite Hres; reflexivity|exact Hce].
Defined.

Lemma renewed_token_is_fresh_witness :
  let s := fresh_account (script_ok 0 true) 100 in
  let s' := after _update_slnet_token s in
  (clock (script_ok 0 true) + inject_Z 180 <= inject_Z 100000)%Q
  /\ env (world s') = script_ok 0 true
  /\ _check_slnet_token s' = (Ok tt, s').
Proof.
  intros s s'.
  assert (Hle : (clock (script_ok 0 true) + inject_Z 180 <= inject_Z 100000)%Q)
    by (vm_compute; discriminate).
  split; [exact Hle|].
  apply (renewed_token_is_fresh s (VStr "slid") (VStr "new-token") (VInt 100000)
           (VStr "user-2") (script_ok 0 true) (script_ok 0 true) 180 (inject_Z 100000));
    [vm_compute; reflexivity | reflexivity | reflexivity | reflexivity | reflexivity
    | exact Hle].
Defined.

(** ** Subscriptions, beyond the count *)

Section Exclusive.
Context {E : Type} `{Environment E}.

Ltac run_subscribe :=
  unfold set_update_interval, set_update_interval_cancel, set_update_interval_install,
    timedelta, async_track_time_interval, call_handle, dict_subscript, LOGGER,
    in_world, bind, ret, raise, modify, get_state; simpl.

(** The three ways a call of [set_update_interval] can go. *)
Lemma set_update_interval_missing key interval (s : @Ctx E) :
  dict_get key (_unsubscribe_auto_updater (self s)) = None ->
  set_update_interval key interval s
  = (Raise (KeyError key),
     set_world (set_log (fun l => (l ++ [setting interval])%list)) s).
Proof. intros Hget. run_subscribe. rewrite Hget. reflexivity. Qed.

Lemma set_update_interval_out_of_range key interval (s : @Ctx E) prev :
  dict_get key (_unsubscribe_auto_updater (self s)) = Some prev ->
  interval < timedelta_min_seconds \/ timedelta_max_seconds < interval ->
  fst (set_update_interval key interval s) = Raise OverflowError
  /\ let s' := after (set_update_interval key interval) s in
     time_listeners (hass (world s')) = cancel_opt prev (time_listeners (hass (world s)))
     /\ next_handle (hass (world s')) = next_handle (hass (world s))
     /\ self s' = self s.
Proof.
  intros Hget Hrange. unfold after. run_subscribe. rewrite Hget. simpl.
  assert (Hb : (timedelta_min_seconds <=? interval)
               && (interval <=? timedelta_max_seconds) = false).
  { apply andb_false_iff. rewrite !Z.leb_gt. tauto. }
  destruct prev as [h|]; simpl; rewrite Hb; simpl; auto.
Qed.

Lemma set_update_interval_in_range key interval (s : @Ctx E) prev :
  dict_get key (_unsubscribe_auto_updater (self s)) = Some prev ->
  timedelta_min_seconds <= interval <= timedelta_max_seconds ->
  fst (set_update_interval key interval s) = Ok tt
  /\ let s' := after (set_update_interval key interval) s in
     let n := next_handle (hass (world s)) in
     time_listeners (hass (world s'))
     = (cancel_opt prev (time_listeners (hass (world s)))
        ++ [mkListener n (method_of key) interval])%list
     /\ next_handle (hass (world s')) = S n
     /\ _unsubscribe_auto_updater (self s')
        = dict_set key (Some n) (_unsubscribe_auto_updater (self s)).
Proof.
  intros Hget [Hlo Hhi]. unfold after. run_subscribe. rewrite Hget. simpl.
  apply Z.leb_le in Hlo, Hhi.
  destruct prev as [h|]; simpl; rewrite Hlo, Hhi; simpl; auto.
Qed.

Lemma held_name_is_valid key prev (s : @Ctx E) :
  subscriptions_consistent s ->
  dict_get key (_unsubscribe_auto_updater (self s)) = Some prev ->
  key = CONF_SCAN_INTERVAL \/ key = CONF_SCAN_OBD_INTERVAL.
Proof.
  intros [(a & b & Hshape) _ _ _]. rewrite Hshape. simpl.
  destruct (String.eqb_spec key CONF_SCAN_INTERVAL); [auto|].
  destruct (String.eqb_spec key CONF_SCAN_OBD_INTERVAL); [auto|done].
Qed.

(** X9. A name other than the two the account was built with makes
    [set_update_interval] raise [KeyError]: nothing is cancelled, nothing
    subscribed, only the debug line is logged. *)
Theorem set_update_interval_unknown_name key interval (s : @Ctx E) :
  subscriptions_consistent s ->
  key <> CONF_SCAN_INTERVAL -> key <> CONF_SCAN_OBD_INTERVAL ->
  set_update_interval key interval s
  = (Raise (KeyError key),
     set_world (set_log (fun l => (l ++ [setting interval])%list)) s).
Proof.
  intros Hs Hscan Hobd. apply set_update_interval_missing.
  destruct (dict_get key _) as [prev|] eqn:Hget; [|done].
  destruct (held_name_is_valid key prev s Hs Hget); done.
Qed.

(** X10. An interval [timedelta] does not accept makes
    [set_update_interval] raise [OverflowError] after the handle held for
    the name was called: the name is left without a live subscription and
    the account keeps the handle it had. *)
Theorem set_update_interval_overflow key interval (s : @Ctx E) (prev : option handle) :
  subscriptions_consistent s ->
  dict_get key (_unsubscribe_auto_updater (self s)) = Some prev ->
  interval < timedelta_min_seconds \/ timedelta_max_seconds < interval ->
  fst (set_update_interval key interval s) = Raise OverflowError
  /\ let s' := after (set_update_interval key interval) s in
     time_listeners (hass (world s')) = cancel_opt prev (time_listeners (hass (world s)))
     /\ live (method_of key) (hass (world s')) = []
     /\ self s' = self s.
Proof.
  intros Hs Hget Hrange.
  destruct (set_update_interval_out_of_range key interval s prev Hget Hrange)
    as (Hret & Hl & _ & Hself).
  split; [done|]. split; [done|]. split; [|done].
  assert (Hc : fst (set_update_interval_cancel key interval s) = Ok tt).
  { run_subscribe. rewrite Hget. by destruct prev. }
  destruct (cancel_clears key interval s Hs Hc) as [_ Hnone].
  unfold live. rewrite Hl. apply filter_none. intros l Hin. apply Hnone.
  revert Hin. unfold after. run_subscribe. rewrite Hget. by destruct prev.
Qed.

Lemma for_each_keeps {S A B} (view : S -> B) (l : list A) (body : A -> M S unit) :
  (forall x s, view (after (body x) s) = view s) ->
  forall s, view (after (for_each l body) s) = view s.
Proof.
  intros Hbody. induction l as [|x l IH]; intros s; simpl; [done|].
  rewrite after_bind. destruct (fst (body x s)); [rewrite IH|]; apply Hbody.
Qed.

Lemma unload_keeps_intervals (s : @Ctx E) :
  _update_intervals (self (after unload s)) = _update_intervals (self s).
Proof.
  unfold unload. rewrite after_bind. simpl. rewrite after_bind. simpl.
  unfold after at 2 3. simpl.
  rewrite (for_each_keeps (fun s => _update_intervals (self s))); [done|].
  intros key s'. unfold after, dict_subscript, LOGGER, call_handle, in_world, bind,
    ret, raise, modify, get_state. simpl.
  by destruct (dict_get key _) as [[h|]|].
Qed.

Lemma perform_keeps_intervals (o : operation) (s : @Ctx E) :
  _update_intervals (self (after (perform o) s)) = _update_intervals (self s).
Proof.
  destruct o as [key interval| | |]; simpl.
  - apply set_update_interval_keeps_intervals.
  - apply unload_keeps_intervals.
  - pose proof (update_untouched s) as Hu. unfold untouched in Hu. congruence.
  - pose proof (update_obd_untouched s) as Hu. unfold untouched in Hu. congruence.
Qed.

Lemma history_keeps_intervals (ops : list operation) (s : @Ctx E) :
  _update_intervals (self (history ops s)) = _update_intervals (self s).
Proof.
  revert s. induction ops as [|o ops IH]; intros s; simpl; [done|].
  by rewrite IH, perform_keeps_intervals.
Qed.

(** X11. Whatever the host does with an account after building it, the
    account holds the two default intervals, and each refresh decides on
    the renewal as it would with the account as it was built, in the same
    world: the intervals set since play no part. *)
Theorem lookahead_is_always_the_default
    (w w' : @World E) (account : StarlineAccount) (ops : list operation) :
  StarlineAccount_init w = (Ok account, w') ->
  let s := history ops (mkCtx account w') in
  _update_intervals (self s)
  = [(CONF_SCAN_INTERVAL, DEFAULT_SCAN_INTERVAL);
     (CONF_SCAN_OBD_INTERVAL, DEFAULT_SCAN_OBD_INTERVAL)]
  /\ (In call_update_slnet_token (events_of _update_data s)
      <-> In call_update_slnet_token (events_of _update_data (mkCtx account (world s))))
  /\ (In call_update_slnet_token (events_of _update_obd_data s)
      <-> In call_update_slnet_token
            (events_of _update_obd_data (mkCtx account (world s)))).
Proof.
  intros Hinit s.
  assert (Hkeep : _update_intervals (self s) = _update_intervals account)
    by (unfold s; by rewrite history_keeps_intervals).
  assert (Hiv : _update_intervals account
                = [(CONF_SCAN_INTERVAL, DEFAULT_SCAN_INTERVAL);
                   (CONF_SCAN_OBD_INTERVAL, DEFAULT_SCAN_OBD_INTERVAL)]).
  { revert Hinit.
    unfold StarlineAccount_init, bind, get_state, subscript, ret, raise. simpl.
    destruct (_ !! DATA_USER_ID); simpl; [|done].
    destruct (_ !! DATA_SLNET_TOKEN); simpl; [|done]. by intros [= <- _]. }
  split; [by rewrite Hkeep|].
  unfold _update_data, _update_obd_data. rewrite !refresh_renews_iff_due by done.
  split; apply renewal_due_depends; simpl; by rewrite ?Hkeep.
Qed.

Lemma elem_of_cancel_opt_1 (o : option handle) (ls : list Listener) (l : Listener) :
  l ∈ cancel_opt o ls -> l ∈ ls.
Proof. by intros [? _]%elem_of_cancel_opt. Qed.

Lemma owned_view (s s' : @Ctx E) :
  subscription_view s' = subscription_view s -> handles_owned s -> handles_owned s'.
Proof.
  unfold subscription_view, handles_owned. intros [= Hd Hl Hn] Ho.
  rewrite Hd, Hl, Hn. exact Ho.
Qed.

Lemma set_update_interval_owned key interval (s : @Ctx E) :
  subscriptions_consistent s -> handles_owned s ->
  handles_owned (after (set_update_interval key interval) s).
Proof.
  intros Hs Ho.
  destruct (dict_get key (_unsubscribe_auto_updater (self s))) as [prev|] eqn:Hget.
  - destruct (Z_lt_le_dec interval timedelta_min_seconds) as [Hlo|Hlo];
      [|destruct (Z_lt_le_dec timedelta_max_seconds interval) as [Hhi|Hhi]].
    1,2: destruct (set_update_interval_out_of_range key interval s prev Hget)
           as (_ & Hl & Hn & Hself); [auto|];
         intros key' h Hvalid Hst; rewrite Hself in Hst; rewrite Hl, Hn;
         destruct (Ho key' h Hvalid Hst) as [Hlt Hact]; split; [done|];
         intros l Hin%elem_of_cancel_opt_1; auto.
    destruct (set_update_interval_in_range key interval s prev Hget)
      as (_ & Hl & Hn & Hd); [lia|].
    intros key' h Hvalid Hst. rewrite Hl, Hn. rewrite Hd in Hst.
    destruct (decide (key' = key)) as [->|Hne].
    + rewrite dict_get_set_eq in Hst. injection Hst as <-. split; [lia|].
      intros l [Hin%elem_of_cancel_opt_1|Hin%list_elem_of_singleton]%elem_of_app Hh.
      * pose proof (sc_fresh s Hs l Hin). lia.
      * by subst l.
    + rewrite dict_get_set_ne in Hst by done.
      destruct (Ho key' h Hvalid Hst) as [Hlt Hact]. split; [lia|].
      intros l [Hin%elem_of_cancel_opt_1|Hin%list_elem_of_singleton]%elem_of_app Hh.
      * auto.
      * subst l. simpl in Hh. lia.
  - unfold after. rewrite (set_update_interval_missing key interval s Hget). simpl.
    exact Ho.
Qed.

Lemma unload_owned (s : @Ctx E) :
  subscriptions_consistent s -> handles_owned (after unload s).
Proof.
  intros [(a & b & Hshape) _ _ _].
  destruct (unload_effect s a b Hshape) as (_ & Hd & _).
  intros key h _. rewrite Hd. simpl.
  destruct (String.eqb key _); [done|]. by destruct (String.eqb key _).
Qed.

Lemma perform_owned (o : operation) (s : @Ctx E) :
  subscriptions_consistent s -> handles_owned s -> handles_owned (after (perform o) s).
Proof.
  intros Hs Ho. destruct o as [key interval| | |]; simpl.
  - by apply set_update_interval_owned.
  - by apply unload_owned.
  - apply (owned_view s); [apply update_subscriptions|done].
  - apply (owned_view s); [apply update_obd_subscriptions|done].
Qed.

Lemma filter_filter_implied {A} (P Q : A -> Prop)
    `{forall x, Decision (P x)} `{forall x, Decision (Q x)} (l : list A) :
  (forall x, x ∈ l -> P x -> Q x) -> filter P (filter Q l) = filter P l.
Proof.
  induction l as [|x l IH]; intros Himp; [done|].
  assert (IH' : filter P (filter Q l) = filter P l)
    by (apply IH; intros y Hy; apply Himp; by right).
  rewrite (filter_cons Q). destruct (decide (Q x)) as [Hq|Hq].
  - rewrite !filter_cons. by rewrite IH'.
  - rewrite IH'. rewrite filter_cons_False; [done|].
    intros Hp. apply Hq, Himp; [left|done].
Qed.

(** Calling the handle held for a name removes no listener that runs
    anything else. *)
Lemma live_cancel_opt (s : @Ctx E) key prev (c : callback) :
  subscriptions_consistent s -> handles_owned s ->
  dict_get key (_unsubscribe_auto_updater (self s)) = Some prev ->
  c <> method_of key ->
  filter (fun l => l_action l = c) (cancel_opt prev (time_listeners (hass (world s))))
  = filter (fun l => l_action l = c) (time_listeners (hass (world s))).
Proof.
  intros Hs Ho Hget Hc. destruct prev as [h|]; [|done]. simpl.
  apply filter_filter_implied. intros l Hin Hact Hh.
  destruct (Ho key h (held_name_is_valid key _ s Hs Hget) Hget) as [_ Hown].
  specialize (Hown l Hin Hh). congruence.
Qed.

Lemma set_update_interval_live_other key interval (s : @Ctx E) (c : callback) :
  subscriptions_consistent s -> handles_owned s ->
  c <> method_of key ->
  live c (hass (world (after (set_update_interval key interval) s)))
  = live c (hass (world s)).
Proof.
  intros Hs Ho Hc. unfold live.
  destruct (dict_get key (_unsubscribe_auto_updater (self s))) as [prev|] eqn:Hget.
  - destruct (Z_lt_le_dec interval timedelta_min_seconds) as [Hlo|Hlo];
      [|destruct (Z_lt_le_dec timedelta_max_seconds interval) as [Hhi|Hhi]].
    1,2: destruct (set_update_interval_out_of_range key interval s prev Hget)
           as (_ & -> & _); [auto|]; by apply (live_cancel_opt s key).
    destruct (set_update_interval_in_range key interval s prev Hget)
      as (_ & -> & _); [lia|].
    rewrite filter_app, filter_cons_False, filter_nil, app_nil_r by (simpl; congruence).
    by apply (live_cancel_opt s key).
  - unfold after. by rewrite (set_update_interval_missing key interval s Hget).
Qed.

(** X12. [set_update_interval] for one name leaves the listeners that run
    anything but the method of that name exactly as they were: the
    subscription of the other name, and what other components
    registered. *)
Theorem set_update_interval_spares_the_rest key interval (s : @Ctx E) (c : callback) :
  subscriptions_consistent s -> handles_owned s ->
  c <> method_of key ->
  live c (hass (world (after (set_update_interval key interval) s)))
  = live c (hass (world s)).
Proof. apply set_update_interval_live_other. Qed.

Lemma unload_live_foreign (s : @Ctx E) (n : nat) :
  subscriptions_consistent s -> handles_owned s ->
  live (foreign_callback n) (hass (world (after unload s)))
  = live (foreign_callback n) (hass (world s)).
Proof.
  intros Hs Ho. pose proof Hs as [(a & b & Hshape) _ _ _].
  destruct (unload_effect s a b Hshape) as (_ & _ & Hl & _).
  unfold live. rewrite Hl.
  transitivity (filter (fun l => l_action l = foreign_callback n)
                       (cancel_opt a (time_listeners (hass (world s))))).
  - destruct b as [h|]; [|done]. simpl.
    apply filter_filter_implied. intros l Hin%elem_of_cancel_opt_1 Hact Hh.
    destruct (Ho CONF_SCAN_OBD_INTERVAL h) as [_ Hown]; [auto|by rewrite Hshape|].
    specialize (Hown l Hin Hh). rewrite Hact in Hown. done.
  - apply (live_cancel_opt s CONF_SCAN_INTERVAL); [done..|by rewrite Hshape|done].
Qed.

Lemma perform_live_foreign (o : operation) (s : @Ctx E) (n : nat) :
  subscriptions_consistent s -> handles_owned s ->
  live (foreign_callback n) (hass (world (after (perform o) s)))
  = live (foreign_callback n) (hass (world s)).
Proof.
  intros Hs Ho. destruct o as [key interval| | |]; simpl.
  - apply set_update_interval_live_other; [done..|].
    unfold method_of. by destruct (String.eqb _ _).
  - by apply unload_live_foreign.
  - pose proof (update_subscriptions s) as Hv. unfold subscription_view in Hv.
    unfold live. congruence.
  - pose proof (update_obd_subscriptions s) as Hv. unfold subscription_view in Hv.
    unfold live. congruence.
Qed.

(** X13. Whatever the host does with an account, the listeners other
    components registered stay in the scheduler, in their order: the
    account only ever calls handles of its own. *)
Theorem foreign_listeners_survive (s : @Ctx E) (ops : list operation) (n : nat) :
  subscriptions_consistent s -> handles_owned s ->
  live (foreign_callback n) (hass (world (history ops s)))
  = live (foreign_callback n) (hass (world s)).
Proof.
  revert s. induction ops as [|o ops IH]; intros s Hs Ho; simpl; [done|].
  rewrite IH.
  - by apply perform_live_foreign.
  - by apply perform_consistent.
  - by apply perform_owned.
Qed.

Lemma history_owned (ops : list operation) (s : @Ctx E) :
  subscriptions_consistent s -> handles_owned s -> handles_owned (history ops s).
Proof.
  revert s. induction ops as [|o ops IH]; intros s Hs Ho; simpl; [done|].
  apply IH; [by apply perform_consistent|by apply perform_owned].
Qed.

End Exclusive.

Lemma shared_account_consistent : subscriptions_consistent shared_account.
Proof.
  constructor; simpl.
  - eauto.
  - intros l ->%list_elem_of_singleton. simpl. lia.
  - apply NoDup_singleton.
  - intros l key ->%list_elem_of_singleton [->| ->]; simpl; discriminate.
Defined.

Lemma shared_account_owned : handles_owned shared_account.
Proof. intros key h [->| ->]; simpl; discriminate. Defined.

Lemma set_update_interval_unknown_name_witness :
  let s := fresh_account (script_ok 0 true) 100 in
  set_update_interval "battery" 30 s
  = (Raise (KeyError "battery"),
     set_world (set_log (fun l => (l ++ [setting 30])%list)) s).
Proof.
  intros s.
  apply (set_update_interval_unknown_name "battery" 30 s
           (fresh_account_consistent _ _)); discriminate.
Defined.

Lemma set_update_interval_overflow_witness :
  let s := history [op_set_update_interval CONF_SCAN_INTERVAL 30]
                   (fresh_account (script_ok 0 true) 100) in
  let s' := after (set_update_interval CONF_SCAN_INTERVAL (10 ^ 15)) s in
  live account_update (hass (world s)) = [mkListener 0%nat account_update 30]
  /\ fst (set_update_interval CONF_SCAN_INTERVAL (10 ^ 15) s) = Raise OverflowError
  /\ time_listeners (hass (world s')) = cancel_opt (Some 0%nat) (time_listeners (hass (world s)))
  /\ live account_update (hass (world s')) = []
  /\ self s' = self s.
Proof.
  intros s s'. split; [reflexivity|].
  apply (set_update_interval_overflow CONF_SCAN_INTERVAL (10 ^ 15) s (Some 0%nat)).
  - apply history_consistent, fresh_account_consistent.
  - reflexivity.
  - right. vm_compute. reflexivity.
Defined.

Lemma lookahead_is_always_the_default_witness :
  let w := world0 (script_ok 0 true) 100 in
  let account := self (fresh_account (script_ok 0 true) 100) in
  let s := history [op_set_update_interval CONF_SCAN_INTERVAL 10; op_unload;
                    op_set_update_interval CONF_SCAN_INTERVAL 20]
                   (mkCtx account w) in
  StarlineAccount_init w = (Ok account, w)
  /\ _update_intervals (self s)
     = [(CONF_SCAN_INTERVAL, DEFAULT_SCAN_INTERVAL);
        (CONF_SCAN_OBD_INTERVAL, DEFAULT_SCAN_OBD_INTERVAL)]
  /\ (In call_update_slnet_token (events_of _update_data s)
      <-> In call_update_slnet_token (events_of _update_data (mkCtx account (world s))))
  /\ (In call_update_slnet_token (events_of _update_obd_data s)
      <-> In call_update_slnet_token
            (events_of _update_obd_data (mkCtx account (world s)))).
Proof.
  intros w account s.
  assert (Hinit : StarlineAccount_init w = (Ok account, w)) by reflexivity.
  split; [exact Hinit|].
  exact (lookahead_is_always_the_default w w account
           [op_set_update_interval CONF_SCAN_INTERVAL 10; op_unload;
            op_set_update_interval CONF_SCAN_INTERVAL 20] Hinit).
Defined.

Lemma set_update_interval_spares_the_rest_witness :
  let s := history [op_set_update_interval CONF_SCAN_INTERVAL 30;
                    op_set_update_interval CONF_SCAN_OBD_INTERVAL 600]
                   shared_account in
  let s' := after (set_update_interval CONF_SCAN_INTERVAL 10) s in
  (live account_update_obd (hass (world s)) = [mkListener 2%nat account_update_obd 600]
   /\ live account_update (hass (world s')) = [mkListener 3%nat account_update 10])
  /\ live account_update_obd (hass (world s')) = live account_update_obd (hass (world s)).
Proof.
  intros s s'. split; [split; reflexivity|].
  apply (set_update_interval_spares_the_rest CONF_SCAN_INTERVAL 10 s account_update_obd).
  - apply history_consistent, shared_account_consistent.
  - apply history_owned; [apply shared_account_consistent|apply shared_account_owned].
  - discriminate.
Defined.

Lemma foreign_listeners_survive_witness :
  let ops := [op_set_update_interval CONF_SCAN_INTERVAL 30;
              op_set_update_interval CONF_SCAN_OBD_INTERVAL 600;
              op_set_update_interval CONF_SCAN_INTERVAL 10; op_update; op_unload] in
  live (foreign_callback 7) (hass (world shared_account))
  = [mkListener 0%nat (foreign_callback 7) 60]
  /\ live (foreign_callback 7) (hass (world (history ops shared_account)))
     = live (foreign_callback 7) (hass (world shared_account)).
Proof.
  intros ops. split; [reflexivity|].
  apply (foreign_listeners_survive shared_account ops 7%nat
           shared_account_consistent shared_account_owned).
Defined.

(** ** What a refresh leaves alone, in full *)

Section Beyond.
Context {E : Type} `{Environment E}.

Ltac run_renewal :=
  unfold _update_slnet_token, api_get_user_id, api_set_slnet_token, api_set_user_id,
    async_update_entry, LOGGER, emit, in_world, try_except,
    subscript, bind, ret, raise, modify, get_state; simpl.

Lemma update_slnet_token_beyond (s : @Ctx E) :
  beyond_refresh (after _update_slnet_token s) = beyond_refresh s.
Proof.
  unfold beyond_refresh, untouched, after. run_renewal.
  destruct (data (config_entry (world s)) !! DATA_SLID_TOKEN) as [slid|]; simpl; [|done].
  destruct (remote_get_user_id slid (env (world s))) as [[[[t e] u]|err] e1]; simpl.
  - destruct (store_write e1) as [[[]|err] e2]; simpl.
    + rewrite for_each_create_task. reflexivity.
    + destruct (is_Exception err); reflexivity.
  - destruct (is_Exception err); reflexivity.
Qed.

Lemma check_slnet_token_beyond (s : @Ctx E) :
  beyond_refresh (after _check_slnet_token s) = beyond_refresh s.
Proof.
  unfold after, _check_slnet_token, bind, get_state, subscript, float_add_int, float_gt,
    ret, raise. simpl.
  destruct (data (config_entry (world s)) !! DATA_EXPIRES) as [v|]; simpl; [|done].
  destruct (dict_get _ _) as [z|]; simpl; [|done].
  destruct (number_of v) as [q|]; simpl; [|done].
  destruct (Qgtb _ _); [|done]. apply update_slnet_token_beyond.
Qed.

Lemma api_refresh_beyond ev remote (s : @Ctx E) :
  beyond_refresh (after (api_refresh ev remote) s) = beyond_refresh s.
Proof.
  unfold beyond_refresh, untouched, after, api_refresh, in_world, emit, bind, modify,
    get_state, ret, raise. simpl.
  destruct (remote _ _) as [[[]|err] [api' e']]; reflexivity.
Qed.

Lemma update_beyond (s : @Ctx E) :
  beyond_refresh (after update s) = beyond_refresh s.
Proof.
  unfold update, _update_data. rewrite after_bind.
  destruct (fst (_check_slnet_token s)).
  - by rewrite api_refresh_beyond, check_slnet_token_beyond.
  - apply check_slnet_token_beyond.
Qed.

Lemma update_obd_beyond (s : @Ctx E) :
  beyond_refresh (after update_obd s) = beyond_refresh s.
Proof.
  unfold update_obd, _update_obd_data. rewrite after_bind.
  destruct (fst (_check_slnet_token s)).
  - by rewrite api_refresh_beyond, check_slnet_token_beyond.
  - apply check_slnet_token_beyond.
Qed.


Lemma call_method_run {A} (account : StarlineAccount) (method : M (@Ctx E) A)
    (w w' : @World E) (a : A) (account' : StarlineAccount) :
  call_method account method w = (Ok (a, account'), w') ->
  account' = self (after method (mkCtx account w))
  /\ w' = world (after method (mkCtx account w)).
Proof.
  unfold call_method, after. destruct (method _) as [[a'|err] c]; [|done].
  by intros [= _ <- <-].
Qed.

(** The account and the world the initial refreshes leave. *)
Lemma initial_refresh_account (w w1 : @World E) (account : StarlineAccount) :
  initial_refresh w = (Ok account, w1) ->
  beyond_refresh (mkCtx account w1)
  = beyond_refresh
      (mkCtx (mkAccount
                [(CONF_SCAN_INTERVAL, DEFAULT_SCAN_INTERVAL);
                 (CONF_SCAN_OBD_INTERVAL, DEFAULT_SCAN_OBD_INTERVAL)]
                [(CONF_SCAN_INTERVAL, None); (CONF_SCAN_OBD_INTERVAL, None)]
                (_api account))
             w).
Proof.
  unfold initial_refresh, bind.
  destruct (StarlineAccount_init w) as [[a0|err] w0] eqn:Hinit; [|done].
  destruct (call_method a0 update w0) as [[[[] a1]|err] w01] eqn:H1; [|done].
  destruct (call_method (snd (tt, a1)) update_obd w01) as [[[[] a2]|err] w02] eqn:H2;
    [|done].
  unfold ret. intros [= <- <-]. simpl in H2.
  assert (Ha0 : a0 = mkAccount
                  [(CONF_SCAN_INTERVAL, DEFAULT_SCAN_INTERVAL);
                   (CONF_SCAN_OBD_INTERVAL, DEFAULT_SCAN_OBD_INTERVAL)]
                  [(CONF_SCAN_INTERVAL, None); (CONF_SCAN_OBD_INTERVAL, None)]
                  (_api a0) /\ w0 = w).
  { revert Hinit. unfold StarlineAccount_init, bind, get_state, subscript, ret, raise.
    simpl. destruct (_ !! DATA_USER_ID); simpl; [|done].
    destruct (_ !! DATA_SLNET_TOKEN); simpl; [|done]. by intros [= <- <-]. }
  destruct Ha0 as [Ha0 ->].
  destruct (call_method_run _ _ _ _ _ _ H1) as [Ha1 Hw1].
  destruct (call_method_run _ _ _ _ _ _ H2) as [Ha2 Hw2].
  pose proof (update_beyond (mkCtx a0 w)) as Hb1.
  pose proof (update_obd_beyond (mkCtx a1 w01)) as Hb2.
  destruct (after update (mkCtx a0 w)) as [acc1 w1']. simpl in Ha1, Hw1. subst a1 w01.
  destruct (after update_obd (mkCtx acc1 w1')) as [acc2 w2']. simpl in Ha2, Hw2.
  subst a2 w02. rewrite Hb2, Hb1. rewrite Ha0 at 1.
  reflexivity.
Qed.

End Beyond.

(** ** The life of an entry *)

Section EntryLife.
Context {E : Type} `{Environment E}.

Lemma for_each_get_or_create (id : string) (ds : list StarlineDevice) (w : @World E) :
  for_each ds (fun device => async_get_or_create id (device_info device)) w
  = (Ok tt, set_hass (fun h =>
       mkHass (time_listeners h) (next_handle h) (hass_data h)
              (register_devices id ds (device_registry h)) (tasks h) (services h)) w).
Proof.
  revert w. induction ds as [|d ds IH]; intros w; simpl.
  - unfold ret, set_hass. by destruct w as [[] ? ? ? ? ?].
  - unfold bind, async_get_or_create, modify. simpl. rewrite IH.
    unfold set_hass; simpl. reflexivity.
Qed.

Lemma setup_reaches_options (w w1 : @World E) (account : StarlineAccount) :
  initial_refresh w = (Ok account, w1) ->
  available (_api account) = true ->
  async_setup_entry w
  = let '(r, w') := async_options_updated (prepared account w1) in
    (match r with Ok _ => Ok true | Raise err => Raise err end, w').
Proof.
  intros Hrefresh Hav. remember (prepared account w1) as P eqn:HP.
  revert Hrefresh HP.
  unfold async_setup_entry, initial_refresh.
  unfold bind at 1 2 3 4 5 6 7.
  destruct (StarlineAccount_init w) as [[a0|err] w0]; [|done].
  destruct (call_method a0 update w0) as [[r1|err] w01]; [|done].
  destruct (call_method (snd r1) update_obd w01) as [[r2|err] w02]; [|done].
  unfold ret at 1. intros [= -> ->] HP. rewrite Hav.
  simpl.
  unfold bind, get_state, modify, ret, async_create_task, async_register,
    add_update_listener.
  simpl.
  assert (HP' : P = prepared account w1) by done. clear HP.
  destruct w1 as [[ls nh hd dr tk sv] [id d opts uls] e lg tr].
  simpl.
  unfold prepared, with_services in HP'. 
  simpl in HP'.
  destruct (hd !! DOMAIN) as [accounts|] eqn:Hd.
  all: simpl.
  all: rewrite for_each_get_or_create.
  all: cbv beta iota zeta delta [set_hass set_config_entry set_hass_data hass
    config_entry env log trace time_listeners next_handle hass_data device_registry
    tasks services entry_id data options update_listeners fst snd].
  all: rewrite ?lookup_insert_eq, ?insert_insert_eq.
  all: cbv beta iota zeta delta [default from_option Datatypes.id].
  all: rewrite <- ?app_assoc.
  all: simpl app.
  all: rewrite HP'; cbv beta iota delta [default from_option Datatypes.id].
  all: match goal with
       |- (let (_, _) := async_options_updated ?A in _)
          = (let (_, _) := async_options_updated ?B in _) =>
         replace A with B;
           [destruct (async_options_updated B) as [[[]|err] w']; reflexivity|]
       end.
  all: repeat f_equal; by rewrite Hd.
Qed.


Lemma registered_account_lookup (w : @World E) (account : StarlineAccount) :
  registered_account w = Some account ->
  exists accounts,
    hass_data (hass w) !! DOMAIN = Some accounts
    /\ accounts !! entry_id (config_entry w) = Some account.
Proof.
  unfold registered_account. destruct (hass_data (hass w) !! DOMAIN) as [accounts|];
    simpl; [eauto|done].
Qed.

(** A call of a method on the account in the registry, spelled out. *)
Lemma call_registered_run {A} (method : M (@Ctx E) A) (w : @World E)
    (accounts : gmap string StarlineAccount) (account : StarlineAccount) :
  hass_data (hass w) !! DOMAIN = Some accounts ->
  accounts !! entry_id (config_entry w) = Some account ->
  call_registered method w
  = (fst (method (mkCtx account w)),
     set_hass_data
       (fun d => <[DOMAIN := <[entry_id (config_entry w)
                               := self (after method (mkCtx account w))]> accounts]> d)
       (world (after method (mkCtx account w)))).
Proof.
  intros Hd Ha. unfold call_registered, bind, get_state, subscript, ret, after. simpl.
  rewrite Hd. simpl. rewrite Ha. simpl. by destruct (method _) as [r c].
Qed.

(** What [set_update_interval] leaves alone. *)
Lemma set_update_interval_keeps_rest key interval (s : @Ctx E) :
  let s' := after (set_update_interval key interval) s in
  config_entry (world s') = config_entry (world s)
  /\ hass_data (hass (world s')) = hass_data (hass (world s))
  /\ device_registry (hass (world s')) = device_registry (hass (world s))
  /\ tasks (hass (world s')) = tasks (hass (world s))
  /\ services (hass (world s')) = services (hass (world s))
  /\ _api (self s') = _api (self s).
Proof.
  unfold after.
  unfold set_update_interval, set_update_interval_cancel, set_update_interval_install,
    timedelta, async_track_time_interval, call_handle, dict_subscript, LOGGER,
    in_world, bind, ret, raise, modify, get_state; simpl.
  destruct (dict_get key _) as [[h|]|]; simpl; auto 10;
    destruct (_ && _); simpl; auto 10.
Qed.

Lemma held_of_shape key (s : @Ctx E) :
  subscriptions_consistent s ->
  key = CONF_SCAN_INTERVAL \/ key = CONF_SCAN_OBD_INTERVAL ->
  exists prev, dict_get key (_unsubscribe_auto_updater (self s)) = Some prev.
Proof.
  intros [(a & b & Hshape) _ _ _] [->| ->]; rewrite Hshape; simpl; eauto.
Qed.

(** The state of the account and of the scheduler after the options were
    applied to the account in the registry. *)
Lemma options_updated_state (w : @World E) (account : StarlineAccount) :
  registered_account w = Some account ->
  subscriptions_consistent (mkCtx account w) ->
  handles_owned (mkCtx account w) ->
  timedelta_min_seconds <= scan_interval_of (config_entry w) <= timedelta_max_seconds ->
  timedelta_min_seconds <= scan_obd_interval_of (config_entry w) <= timedelta_max_seconds ->
  let n := next_handle (hass w) in
  let w' := after async_options_updated w in
  fst (async_options_updated w) = Ok tt
  /\ (exists account',
        registered_account w' = Some account'
        /\ _api account' = _api account
        /\ dict_get CONF_SCAN_INTERVAL (_unsubscribe_auto_updater account') = Some (Some n)
        /\ dict_get CONF_SCAN_OBD_INTERVAL (_unsubscribe_auto_updater account')
           = Some (Some (S n))
        /\ subscriptions_consistent (mkCtx account' w')
        /\ handles_owned (mkCtx account' w'))
  /\ live account_update (hass w')
     = [mkListener n account_update (scan_interval_of (config_entry w))]
  /\ live account_update_obd (hass w')
     = [mkListener (S n) account_update_obd (scan_obd_interval_of (config_entry w))]
  /\ (forall k, live (foreign_callback k) (hass w') = live (foreign_callback k) (hass w))
  /\ config_entry w' = config_entry w
  /\ device_registry (hass w') = device_registry (hass w)
  /\ tasks (hass w') = tasks (hass w)
  /\ services (hass w') = services (hass w).
Proof.
  intros Hreg Hs Ho Hscan Hobd n w'.
  destruct (registered_account_lookup w account Hreg) as (accounts & Hd & Ha).
  set (scan := scan_interval_of (config_entry w)) in *.
  set (obd := scan_obd_interval_of (config_entry w)) in *.
  set (s0 := mkCtx account w) in *.
  set (c1 := after (set_update_interval CONF_SCAN_INTERVAL scan) s0).
  (* the first call *)
  destruct (held_of_shape CONF_SCAN_INTERVAL s0 Hs) as [a Hga]; [auto|].
  destruct (set_update_interval_in_range CONF_SCAN_INTERVAL scan s0 a Hga Hscan)
    as (Hret1 & _ & Hn1 & Hd1). fold c1 in Hn1, Hd1.
  destruct (set_update_interval_live CONF_SCAN_INTERVAL scan s0 Hs Hret1)
    as (Hlive1 & _ & Hst1 & _). fold c1 in Hlive1, Hst1.
  destruct (set_update_interval_keeps_rest CONF_SCAN_INTERVAL scan s0)
    as (Hce1 & Hhd1 & Hdr1 & Htk1 & Hsv1 & Hapi1). fold c1 in Hce1, Hhd1, Hdr1, Htk1, Hsv1, Hapi1.
  assert (Hs1 : subscriptions_consistent c1) by by apply set_update_interval_consistent.
  assert (Ho1 : handles_owned c1) by by apply set_update_interval_owned.
  (* the world between the two calls *)
  set (w1 := set_hass_data
               (fun d => <[DOMAIN := <[entry_id (config_entry w) := self c1]> accounts]> d)
               (world c1)).
  set (s1 := mkCtx (self c1) w1).
  assert (Hv1 : subscription_view s1 = subscription_view c1) by done.
  assert (Hs1' : subscriptions_consistent s1) by by apply (consistent_view c1).
  assert (Ho1' : handles_owned s1) by by apply (owned_view c1).
  assert (Hid1 : entry_id (config_entry w1) = entry_id (config_entry w))
    by (unfold w1; simpl; by rewrite Hce1).
  assert (Hopt1 : scan_obd_interval_of (config_entry w1) = obd)
    by (unfold w1, obd; simpl; by rewrite Hce1).
  set (c2 := after (set_update_interval CONF_SCAN_OBD_INTERVAL obd) s1).
  destruct (held_of_shape CONF_SCAN_OBD_INTERVAL s1 Hs1') as [b Hgb]; [auto|].
  destruct (set_update_interval_in_range CONF_SCAN_OBD_INTERVAL obd s1 b Hgb Hobd)
    as (Hret2 & _ & Hn2 & Hd2). fold c2 in Hn2, Hd2.
  destruct (set_update_interval_live CONF_SCAN_OBD_INTERVAL obd s1 Hs1' Hret2)
    as (Hlive2 & _ & Hst2 & _). fold c2 in Hlive2, Hst2.
  destruct (set_update_interval_keeps_rest CONF_SCAN_OBD_INTERVAL obd s1)
    as (Hce2 & Hhd2 & Hdr2 & Htk2 & Hsv2 & Hapi2). fold c2 in Hce2, Hhd2, Hdr2, Htk2, Hsv2, Hapi2.
  assert (Hs2 : subscriptions_consistent c2) by by apply set_update_interval_consistent.
  assert (Ho2 : handles_owned c2) by by apply set_update_interval_owned.
  (* the run *)
  assert (Hrun : async_options_updated w
                 = (Ok tt,
                    set_hass_data
                      (fun d => <[DOMAIN := <[entry_id (config_entry w1) := self c2]>
                                             (<[entry_id (config_entry w) := self c1]> accounts)]> d)
                      (world c2))).
  { unfold async_options_updated, bind, get_state, subscript.
    rewrite Hd. unfold ret at 1. rewrite Ha. unfold ret at 1.
    rewrite (call_registered_run _ w accounts account Hd Ha).
    fold (scan_interval_of (config_entry w)) (scan_obd_interval_of (config_entry w)).
    fold scan obd s0. fold c1. fold w1. rewrite Hret1.
    rewrite (call_registered_run _ w1 (<[entry_id (config_entry w) := self c1]> accounts)
               (self c1)).
    - fold s1 c2. by rewrite Hret2.
    - unfold w1. simpl. rewrite Hhd1. apply lookup_insert_eq.
    - rewrite Hid1. apply lookup_insert_eq. }
  unfold w', after. rewrite Hrun. simpl.
  assert (Hnext1 : next_handle (hass w1) = S n) by done.
  split; [done|]. split; [|split; [|split; [|split]]].
  - exists (self c2). split.
    { unfold registered_account. simpl. rewrite lookup_insert_eq. simpl.
      rewrite Hce2. apply lookup_insert_eq. }
    split; [etrans; [exact Hapi2|exact Hapi1]|].
    split; [rewrite Hd2, dict_get_set_ne by done; exact Hst1|].
    split; [rewrite Hst2; do 2 f_equal; exact Hnext1|].
    split.
    + apply (consistent_view c2); [|done]. by destruct c2.
    + apply (owned_view c2); [|done]. by destruct c2.
  - transitivity (live account_update (hass (world s1))).
    + by apply (set_update_interval_live_other CONF_SCAN_OBD_INTERVAL obd s1).
    + exact Hlive1.
  - etrans; [exact Hlive2|]. do 2 f_equal. exact Hnext1.
  - intros k. transitivity (live (foreign_callback k) (hass (world s1))).
    + by apply (set_update_interval_live_other CONF_SCAN_OBD_INTERVAL obd s1).
    + by apply (set_update_interval_live_other CONF_SCAN_INTERVAL scan s0).
  - split; [etrans; [exact Hce2|exact Hce1]|].
    split; [etrans; [exact Hdr2|exact Hdr1]|].
    split; [etrans; [exact Htk2|exact Htk1]|etrans; [exact Hsv2|exact Hsv1]].
Qed.


Lemma prepared_invariants (account : StarlineAccount) (w1 : @World E) :
  host_without_account (hass w1) ->
  _unsubscribe_auto_updater account
  = [(CONF_SCAN_INTERVAL, None); (CONF_SCAN_OBD_INTERVAL, None)] ->
  registered_account (prepared account w1) = Some account
  /\ subscriptions_consistent (mkCtx account (prepared account w1))
  /\ handles_owned (mkCtx account (prepared account w1)).
Proof.
  intros [Hnd Hforeign] Hshape. split; [|split].
  - unfold registered_account, prepared. simpl. rewrite lookup_insert_eq. simpl.
    apply lookup_insert_eq.
  - constructor; simpl.
    + rewrite Hshape. eauto.
    + intros l Hin. by apply Hforeign.
    + done.
    + intros l key Hin _ Hact. destruct (Hforeign l Hin) as [_ [k Hk]].
      rewrite Hk in Hact. unfold method_of in Hact. by destruct (String.eqb _ _).
  - intros key h _. simpl. rewrite Hshape. simpl.
    destruct (String.eqb key _); [done|]. by destruct (String.eqb key _).
Qed.

(** Where a setup that succeeds leaves the host. *)
Lemma setup_success_state (w w1 : @World E) (account : StarlineAccount) :
  initial_refresh w = (Ok account, w1) ->
  available (_api account) = true ->
  host_without_account (hass w) ->
  timedelta_min_seconds <= scan_interval_of (config_entry w) <= timedelta_max_seconds ->
  timedelta_min_seconds <= scan_obd_interval_of (config_entry w) <= timedelta_max_seconds ->
  let n := next_handle (hass w) in
  let w' := after async_setup_entry w in
  fst (async_setup_entry w) = Ok true
  /\ (exists account',
        registered_account w' = Some account'
        /\ _api account' = _api account
        /\ dict_get CONF_SCAN_INTERVAL (_unsubscribe_auto_updater account') = Some (Some n)
        /\ dict_get CONF_SCAN_OBD_INTERVAL (_unsubscribe_auto_updater account')
           = Some (Some (S n))
        /\ subscriptions_consistent (mkCtx account' w')
        /\ handles_owned (mkCtx account' w'))
  /\ live account_update (hass w')
     = [mkListener n account_update (scan_interval_of (config_entry w))]
  /\ live account_update_obd (hass w')
     = [mkListener (S n) account_update_obd (scan_obd_interval_of (config_entry w))]
  /\ (forall k, live (foreign_callback k) (hass w') = live (foreign_callback k) (hass w))
  /\ services (hass w') = with_services (services (hass w))
  /\ update_listeners (config_entry w')
     = (update_listeners (config_entry w) ++ [async_options_updated_listener])%list
  /\ tasks (hass w') = (tasks (hass w1) ++ map forward_entry_setup PLATFORMS)%list
  /\ device_registry (hass w')
     = register_devices (entry_id (config_entry w)) (dict_values (devices (_api account)))
                        (device_registry (hass w)).
Proof.
  intros Hrefresh Hav Hhost Hscan Hobd n w'.
  pose proof (initial_refresh_account w w1 account Hrefresh) as Hb.
  unfold beyond_refresh, untouched, registries in Hb. simpl in Hb.
  injection Hb as Hhd Hdr Hsv Hls Hnh Hshape _ Hid Hopt Hul.
  assert (Hhost1 : host_without_account (hass w1))
    by (unfold host_without_account, handles in *; by rewrite Hls, Hnh).
  destruct (prepared_invariants account w1 Hhost1 Hshape) as (Hreg & Hs & Ho).
  assert (Hce : scan_interval_of (config_entry (prepared account w1))
                = scan_interval_of (config_entry w)
                /\ scan_obd_interval_of (config_entry (prepared account w1))
                   = scan_obd_interval_of (config_entry w))
    by (unfold scan_interval_of, scan_obd_interval_of; simpl; by rewrite Hopt).
  destruct Hce as [Hce1 Hce2].
  destruct (options_updated_state (prepared account w1) account Hreg Hs Ho)
    as (Hret & Hacc & Hl1 & Hl2 & Hlf & Hcfg & Hdev & Htk & Hsvc);
    [by rewrite Hce1|by rewrite Hce2|].
  assert (Hw' : w' = after async_options_updated (prepared account w1)
                /\ fst (async_setup_entry w) = Ok true).
  { unfold w', after. rewrite (setup_reaches_options w w1 account Hrefresh Hav).
    destruct (async_options_updated _) as [r w2]. simpl in *. by rewrite Hret. }
  destruct Hw' as [-> Hok]. rewrite Hce1 in Hl1. rewrite Hce2 in Hl2.
  assert (Hn : next_handle (hass (prepared account w1)) = n) by (simpl; by rewrite Hnh).
  rewrite Hn in Hacc, Hl1, Hl2.
  split; [done|]. split; [done|]. split; [done|]. split; [done|].
  split; [intros k; rewrite Hlf; unfold live; simpl; by rewrite Hls|].
  split; [rewrite Hsvc; simpl; by rewrite Hsv|].
  split; [rewrite Hcfg; simpl; by rewrite Hul|].
  split; [by rewrite Htk|]. rewrite Hdev. simpl. by rewrite Hid, Hdr.
Qed.

Lemma unload_keeps_api (s : @Ctx E) (a b : option handle) :
  _unsubscribe_auto_updater (self s)
  = [(CONF_SCAN_INTERVAL, a); (CONF_SCAN_OBD_INTERVAL, b)] ->
  _api (self (after unload s)) = _api (self s)
  /\ config_entry (world (after unload s)) = config_entry (world s)
  /\ trace (world (after unload s)) = trace (world s).
Proof.
  destruct s as [[iv unsub api] w]. simpl. intros ->. unfold after.
  destruct a, b; repeat (apply conj); reflexivity.
Qed.

(** Forwarding the unloads touches the collaborators and the trace only;
    when every platform returns, the trace has the three calls. *)
Lemma forward_unloads_frame (w : @World E) :
  let w1 := after forward_unloads w in
  hass w1 = hass w /\ config_entry w1 = config_entry w /\ log w1 = log w
  /\ (fst (forward_unloads w) = Ok tt ->
      trace w1 = (trace w ++ map call_forward_entry_unload PLATFORMS)%list).
Proof.
  unfold after, forward_unloads, PLATFORMS, for_each, async_forward_entry_unload, emit,
    bind, modify, get_state, ret, raise. simpl.
  destruct (forward_entry_unload "device_tracker" _) as [[b1|err1] e1]; simpl; [|done].
  destruct (forward_entry_unload "sensor" _) as [[b2|err2] e2]; simpl; [|done].
  destruct (forward_entry_unload "switch" _) as [[b3|err3] e3]; simpl; [|done].
  rewrite <- !app_assoc. auto.
Qed.

(** [async_unload_entry] is the forwarding, then the unload of the account
    in the registry. *)
Lemma async_unload_entry_run (w : @World E) :
  async_unload_entry w
  = match forward_unloads w with
    | (Ok _, w1) => (call_registered unload >>> ret true) w1
    | (Raise err, w1) => (Raise err, w1)
    end.
Proof. unfold async_unload_entry, forward_unloads. unfold bind at 1. reflexivity. Qed.

(** The state after the account in the registry was unloaded. *)
Lemma unload_registered_state (w : @World E) (account : StarlineAccount) :
  registered_account w = Some account ->
  subscriptions_consistent (mkCtx account w) ->
  handles_owned (mkCtx account w) ->
  let w' := after (call_registered unload >>> ret true) w in
  fst ((call_registered unload >>> ret true) w) = Ok true
  /\ (exists account',
        registered_account w' = Some account'
        /\ _api account' = _api account
        /\ _unsubscribe_auto_updater account'
           = [(CONF_SCAN_INTERVAL, None); (CONF_SCAN_OBD_INTERVAL, None)])
  /\ live account_update (hass w') = []
  /\ live account_update_obd (hass w') = []
  /\ (forall k, live (foreign_callback k) (hass w') = live (foreign_callback k) (hass w))
  /\ trace w' = trace w.
Proof.
  intros Hreg Hs Ho w'.
  destruct (registered_account_lookup w account Hreg) as (accounts & Hd & Ha).
  set (s0 := mkCtx account w) in *.
  pose proof (unload_clears s0 Hs) as Hclr.
  pose proof Hs as [(a & b & Hshape) _ _ _].
  destruct (unload_effect s0 a b Hshape) as (Hret & Hdict & _).
  destruct (unload_keeps_api s0 a b Hshape) as (Hapi & Hce & Htr).
  assert (Hrun : (call_registered unload >>> ret true) w
                 = (Ok true,
                    set_hass_data
                      (fun d => <[DOMAIN := <[entry_id (config_entry w)
                                              := self (after unload s0)]> accounts]> d)
                      (world (after unload s0)))).
  { unfold bind, ret.
    rewrite (call_registered_run _ w accounts account Hd Ha). fold s0.
    by rewrite Hret. }
  assert (Hw' : w' = set_hass_data
                        (fun d => <[DOMAIN := <[entry_id (config_entry w)
                                                := self (after unload s0)]> accounts]> d)
                        (world (after unload s0)))
    by (unfold w'; unfold after at 1; by rewrite Hrun).
  clearbody w'. subst w'. rewrite Hrun. simpl.
  split; [done|]. split; [|split; [|split; [|split]]].
  - exists (self (after unload s0)). split; [|done].
    unfold registered_account. simpl. rewrite lookup_insert_eq. simpl.
    rewrite Hce. apply lookup_insert_eq.
  - apply filter_none. intros l Hin. apply (Hclr l CONF_SCAN_INTERVAL Hin).
  - apply filter_none. intros l Hin. apply (Hclr l CONF_SCAN_OBD_INTERVAL Hin).
  - intros k. by apply (unload_live_foreign s0).
  - exact Htr.
Qed.

(** The state after [async_unload_entry], when the platforms unloaded. *)
Lemma unload_entry_state (w : @World E) (account : StarlineAccount) :
  registered_account w = Some account ->
  subscriptions_consistent (mkCtx account w) ->
  handles_owned (mkCtx account w) ->
  fst (forward_unloads w) = Ok tt ->
  let w' := after async_unload_entry w in
  fst (async_unload_entry w) = Ok true
  /\ trace w' = (trace w ++ map call_forward_entry_unload PLATFORMS)%list
  /\ (exists account',
        registered_account w' = Some account'
        /\ _api account' = _api account
        /\ _unsubscribe_auto_updater account'
           = [(CONF_SCAN_INTERVAL, None); (CONF_SCAN_OBD_INTERVAL, None)])
  /\ live account_update (hass w') = []
  /\ live account_update_obd (hass w') = []
  /\ (forall k, live (foreign_callback k) (hass w') = live (foreign_callback k) (hass w)).
Proof.
  intros Hreg Hs Ho Hfw w'.
  destruct (forward_unloads_frame w) as (Hh & Hce & _ & Htr). specialize (Htr Hfw).
  set (w1 := after forward_unloads w) in *.
  assert (Hview : subscription_view (mkCtx account w1)
                  = subscription_view (mkCtx account w))
    by (unfold subscription_view; simpl; by rewrite Hh).
  destruct (unload_registered_state w1 account) as (Hret & Hacc & Hl1 & Hl2 & Hlf & Htr').
  { unfold registered_account. rewrite Hh, Hce. exact Hreg. }
  { by apply (consistent_view (mkCtx account w)). }
  { by apply (owned_view (mkCtx account w)). }
  assert (Hrun : async_unload_entry w = (call_registered unload >>> ret true) w1).
  { rewrite async_unload_entry_run. unfold w1, after.
    destruct (forward_unloads w) as [[[]|err] w2]; [done|discriminate Hfw]. }
  unfold w', after. rewrite Hrun. fold (after (call_registered unload >>> ret true) w1).
  split; [done|]. split; [by rewrite Htr', Htr|]. split; [done|].
  split; [done|]. split; [done|]. intros k. rewrite Hlf. by rewrite Hh.
Qed.


(** X15. With the account in the registry, [async_options_updated] leaves
    each name with exactly one live subscription, of the interval the
    options give for it or of its default, and the account holding the two
    new handles; the listeners of other components, the entry, the
    services and the device registry are as they were. *)
Theorem options_updated_applies_intervals (w : @World E) (account : StarlineAccount) :
  registered_account w = Some account ->
  subscriptions_consistent (mkCtx account w) ->
  handles_owned (mkCtx account w) ->
  timedelta_min_seconds <= scan_interval_of (config_entry w) <= timedelta_max_seconds ->
  timedelta_min_seconds <= scan_obd_interval_of (config_entry w) <= timedelta_max_seconds ->
  let n := next_handle (hass w) in
  let w' := after async_options_updated w in
  fst (async_options_updated w) = Ok tt
  /\ (exists account',
        registered_account w' = Some account'
        /\ _api account' = _api account
        /\ dict_get CONF_SCAN_INTERVAL (_unsubscribe_auto_updater account') = Some (Some n)
        /\ dict_get CONF_SCAN_OBD_INTERVAL (_unsubscribe_auto_updater account')
           = Some (Some (S n)))
  /\ live account_update (hass w')
     = [mkListener n account_update (scan_interval_of (config_entry w))]
  /\ live account_update_obd (hass w')
     = [mkListener (S n) account_update_obd (scan_obd_interval_of (config_entry w))]
  /\ (forall k, live (foreign_callback k) (hass w') = live (foreign_callback k) (hass w))
  /\ config_entry w' = config_entry w
  /\ device_registry (hass w') = device_registry (hass w)
  /\ services (hass w') = services (hass w).
Proof.
  intros Hreg Hs Ho Hscan Hobd n w'.
  destruct (options_updated_state w account Hreg Hs Ho Hscan Hobd)
    as (Hret & (account' & Hr & Hapi & H1 & H2 & _) & Hl1 & Hl2 & Hlf & Hce & Hdr & _ & Hsv).
  split; [done|]. split; [exists account'; auto|]. auto 10.
Qed.

(** X16. When the account is built, both refreshes complete and the
    client is available, [async_setup_entry] returns [True] on a host
    where no listener runs a method of the account yet: the account is in
    the registry under the id of the entry, each name has exactly one live
    subscription, of the interval the options give or of its default, the
    four services and the update listener are registered, a setup task is
    scheduled for each platform and every device went through the device
    registry; the listeners of other components are as they were. *)
Theorem setup_succeeds (w w1 : @World E) (account : StarlineAccount) :
  initial_refresh w = (Ok account, w1) ->
  available (_api account) = true ->
  host_without_account (hass w) ->
  timedelta_min_seconds <= scan_interval_of (config_entry w) <= timedelta_max_seconds ->
  timedelta_min_seconds <= scan_obd_interval_of (config_entry w) <= timedelta_max_seconds ->
  let n := next_handle (hass w) in
  let w' := after async_setup_entry w in
  fst (async_setup_entry w) = Ok true
  /\ (exists account',
        registered_account w' = Some account'
        /\ _api account' = _api account
        /\ dict_get CONF_SCAN_INTERVAL (_unsubscribe_auto_updater account') = Some (Some n)
        /\ dict_get CONF_SCAN_OBD_INTERVAL (_unsubscribe_auto_updater account')
           = Some (Some (S n)))
  /\ live account_update (hass w')
     = [mkListener n account_update (scan_interval_of (config_entry w))]
  /\ live account_update_obd (hass w')
     = [mkListener (S n) account_update_obd (scan_obd_interval_of (config_entry w))]
  /\ (forall k, live (foreign_callback k) (hass w') = live (foreign_callback k) (hass w))
  /\ services (hass w') = with_services (services (hass w))
  /\ update_listeners (config_entry w')
     = (update_listeners (config_entry w) ++ [async_options_updated_listener])%list
  /\ tasks (hass w') = (tasks (hass w1) ++ map forward_entry_setup PLATFORMS)%list
  /\ device_registry (hass w')
     = register_devices (entry_id (config_entry w)) (dict_values (devices (_api account)))
                        (device_registry (hass w)).
Proof.
  intros Hrefresh Hav Hhost Hscan Hobd n w'.
  destruct (setup_success_state w w1 account Hrefresh Hav Hhost Hscan Hobd)
    as (Hret & (account' & Hr & Hapi & H1 & H2 & _) & Hrest).
  split; [done|]. split; [exists account'; auto|]. exact Hrest.
Qed.


(** X18. A setup that succeeds followed by an unload whose platforms all
    return leaves the scheduler without any listener of the account and
    with the listeners of other components it had before the setup. *)
Theorem setup_then_unload (w w1 : @World E) (account : StarlineAccount) :
  initial_refresh w = (Ok account, w1) ->
  available (_api account) = true ->
  host_without_account (hass w) ->
  timedelta_min_seconds <= scan_interval_of (config_entry w) <= timedelta_max_seconds ->
  timedelta_min_seconds <= scan_obd_interval_of (config_entry w) <= timedelta_max_seconds ->
  fst (forward_unloads (after async_setup_entry w)) = Ok tt ->
  let w' := after async_unload_entry (after async_setup_entry w) in
  fst (async_setup_entry w) = Ok true
  /\ fst (async_unload_entry (after async_setup_entry w)) = Ok true
  /\ live account_update (hass w') = []
  /\ live account_update_obd (hass w') = []
  /\ (forall k, live (foreign_callback k) (hass w') = live (foreign_callback k) (hass w)).
Proof.
  intros Hrefresh Hav Hhost Hscan Hobd Hfw w'.
  destruct (setup_success_state w w1 account Hrefresh Hav Hhost Hscan Hobd)
    as (Hret & (account' & Hr & _ & _ & _ & Hs & Ho) & _ & _ & Hlf & _).
  destruct (unload_entry_state _ account' Hr Hs Ho Hfw)
    as (Hret' & _ & _ & Hl1 & Hl2 & Hlf').
  split; [done|]. split; [done|]. split; [done|]. split; [done|].
  intros k. unfold w'. by rewrite Hlf', Hlf.
Qed.

(** X19. Without the account in the registry, [async_options_updated]
    raises [KeyError] and changes nothing; [async_unload_entry] first
    forwards the unload to each platform and, once they have returned,
    raises the same [KeyError]: the host, the entry and the log are as
    they were, the three forwarded unloads are the calls it made. *)
Theorem entry_must_be_set_up (w : @World E) :
  registered_account w = None ->
  fst (forward_unloads w) = Ok tt ->
  let w' := after async_unload_entry w in
  exists key,
    async_options_updated w = (Raise (KeyError key), w)
    /\ fst (async_unload_entry w) = Raise (KeyError key)
    /\ hass w' = hass w
    /\ config_entry w' = config_entry w
    /\ log w' = log w
    /\ trace w' = (trace w ++ map call_forward_entry_unload PLATFORMS)%list.
Proof.
  intros Hreg Hfw w'.
  destruct (forward_unloads_frame w) as (Hh & Hce & Hlog & Htr). specialize (Htr Hfw).
  assert (Hw' : async_unload_entry w
                = (call_registered unload >>> ret true) (after forward_unloads w)).
  { rewrite async_unload_entry_run. unfold after.
    destruct (forward_unloads w) as [[[]|err] w2]; [done|discriminate Hfw]. }
  unfold w', after. rewrite Hw'. clear Hw' w'.
  set (w1 := after forward_unloads w) in *.
  revert Hreg.
  unfold registered_account, async_options_updated, call_registered, bind, get_state,
    subscript, ret, raise.
  rewrite Hh, Hce.
  destruct (hass_data (hass w) !! DOMAIN) as [accounts|]; simpl.
  - intros ->. exists (entry_id (config_entry w)). auto 10.
  - intros _. exists DOMAIN. auto 10.
Qed.

(** X20. Once the two services that set an interval are registered the
    way [async_setup_entry] registers them, no call of either returns,
    whatever the data: the schema rejects them or the handler raises
    [KeyError]; the options and everything else are as before. *)
Theorem set_interval_services_never_persist (w : @World E)
    (service_data : gmap string value) :
  services (hass w) !! (DOMAIN, SERVICE_SET_SCAN_INTERVAL)
  = Some (mkService handler_set_scan_interval (Some (mkSchema CONF_SCAN_INTERVAL 10))) ->
  services (hass w) !! (DOMAIN, SERVICE_SET_SCAN_OBD_INTERVAL)
  = Some (mkService handler_set_scan_interval (Some (mkSchema CONF_SCAN_OBD_INTERVAL 100))) ->
  (exists err, async_call DOMAIN SERVICE_SET_SCAN_INTERVAL service_data w = (Raise err, w))
  /\ (exists err,
        async_call DOMAIN SERVICE_SET_SCAN_OBD_INTERVAL service_data w = (Raise err, w)).
Proof.
  intros Hscan Hobd. split.
  - by apply (set_scan_interval_never_returns _ _ (mkSchema CONF_SCAN_INTERVAL 10)).
  - by apply (set_scan_interval_never_returns _ _ (mkSchema CONF_SCAN_OBD_INTERVAL 100)).
Qed.

(** X21. Once the two services that set an interval are registered the
    way [async_setup_entry] registers them, data whose state interval is
    not a string and does not coerce to an [int] of at least 10 ([None], a
    list, or a number whose [int] is below 10) are rejected by the schema
    of the first with [Invalid], and data whose OBD interval is not a
    string and does not coerce to an [int] of at least 100 by the schema of
    the second: the handler is not run and nothing changes. *)
Theorem interval_below_minimum_is_invalid (w : @World E)
    (service_data : gmap string value) :
  services (hass w) !! (DOMAIN, SERVICE_SET_SCAN_INTERVAL)
  = Some (mkService handler_set_scan_interval (Some (mkSchema CONF_SCAN_INTERVAL 10))) ->
  services (hass w) !! (DOMAIN, SERVICE_SET_SCAN_OBD_INTERVAL)
  = Some (mkService handler_set_scan_interval (Some (mkSchema CONF_SCAN_OBD_INTERVAL 100))) ->
  (forall v,
     service_data !! CONF_SCAN_INTERVAL = Some v ->
     (forall text, v <> VStr text) ->
     (forall z, py_int v = Some z -> z < 10) ->
     exists msg,
       async_call DOMAIN SERVICE_SET_SCAN_INTERVAL service_data w = (Raise (Invalid msg), w))
  /\ (forall v,
        service_data !! CONF_SCAN_OBD_INTERVAL = Some v ->
        (forall text, v <> VStr text) ->
        (forall z, py_int v = Some z -> z < 100) ->
        exists msg,
          async_call DOMAIN SERVICE_SET_SCAN_OBD_INTERVAL service_data w
          = (Raise (Invalid msg), w)).
Proof.
  intros Hscan Hobd.
  split; intros v Hv _ Hlow; unfold async_call, bind, get_state; simpl;
    [rewrite Hscan|rewrite Hobd]; simpl; unfold validate, raise; simpl; rewrite Hv;
    (case_bool_decide; [|eauto]);
    (destruct (py_int v) as [z|]; [|eauto]);
    specialize (Hlow z eq_refl); apply Z.leb_gt in Hlow; rewrite Hlow; eauto.
Qed.

(** X22. On an entry that lacks the stored user id or the stored session
    token, the constructor raises [KeyError], and so does
    [async_setup_entry], before any call of the collaborators and without
    a change. *)
Theorem setup_needs_credentials (w : @World E) :
  data (config_entry w) !! DATA_USER_ID = None
  \/ data (config_entry w) !! DATA_SLNET_TOKEN = None ->
  exists key,
    (key = DATA_USER_ID \/ key = DATA_SLNET_TOKEN)
    /\ StarlineAccount_init w = (Raise (KeyError key), w)
    /\ async_setup_entry w = (Raise (KeyError key), w).
Proof.
  intros Hmissing.
  unfold async_setup_entry, StarlineAccount_init, bind, get_state, subscript, ret, raise.
  simpl.
  destruct (data (config_entry w) !! DATA_USER_ID) as [u|]; simpl.
  - destruct Hmissing as [?|Ht]; [done|]. rewrite Ht. simpl.
    exists DATA_SLNET_TOKEN. auto.
  - exists DATA_USER_ID. auto.
Qed.



(** X24. [unload] logs its first line and then one line for each name
    that holds a handle, in the order of the dictionary; beside the log,
    the scheduler and the handles it touches nothing: the entry, the
    client, the intervals, the registries and the trace of the
    collaborators are as they were. *)
Theorem unload_touches_only_subscriptions (s : @Ctx E) (a b : option handle) :
  _unsubscribe_auto_updater (self s)
  = [(CONF_SCAN_INTERVAL, a); (CONF_SCAN_OBD_INTERVAL, b)] ->
  let s' := after unload s in
  log (world s')
  = (log (world s) ++ [unloading] ++ unload_lines CONF_SCAN_INTERVAL a
       ++ unload_lines CONF_SCAN_OBD_INTERVAL b)%list
  /\ _api (self s') = _api (self s)
  /\ _update_intervals (self s') = _update_intervals (self s)
  /\ config_entry (world s') = config_entry (world s)
  /\ env (world s') = env (world s)
  /\ trace (world s') = trace (world s)
  /\ hass_data (hass (world s')) = hass_data (hass (world s))
  /\ device_registry (hass (world s')) = device_registry (hass (world s))
  /\ services (hass (world s')) = services (hass (world s))
  /\ tasks (hass (world s')) = tasks (hass (world s))
  /\ next_handle (hass (world s')) = next_handle (hass (world s)).
Proof.
  destruct s as [[iv unsub api] w]. simpl. intros ->. unfold after.
  destruct a, b; simpl; rewrite <- ?app_assoc; repeat (apply conj); reflexivity.
Qed.

(** With the state interval out of the range of [timedelta],
    [async_options_updated] ends at the first call. *)
Lemma options_updated_overflow (w : @World E) (account : StarlineAccount)
    (prev : option handle) :
  registered_account w = Some account ->
  dict_get CONF_SCAN_INTERVAL (_unsubscribe_auto_updater account) = Some prev ->
  scan_interval_of (config_entry w) < timedelta_min_seconds
  \/ timedelta_max_seconds < scan_interval_of (config_entry w) ->
  let w' := after async_options_updated w in
  fst (async_options_updated w) = Raise OverflowError
  /\ registered_account w' = Some account
  /\ time_listeners (hass w') = cancel_opt prev (time_listeners (hass w))
  /\ next_handle (hass w') = next_handle (hass w)
  /\ config_entry w' = config_entry w
  /\ device_registry (hass w') = device_registry (hass w)
  /\ tasks (hass w') = tasks (hass w)
  /\ services (hass w') = services (hass w).
Proof.
  intros Hreg Hget Hrange w'.
  destruct (registered_account_lookup w account Hreg) as (accounts & Hd & Ha).
  set (scan := scan_interval_of (config_entry w)) in *.
  set (s0 := mkCtx account w) in *.
  set (c1 := after (set_update_interval CONF_SCAN_INTERVAL scan) s0).
  destruct (set_update_interval_out_of_range CONF_SCAN_INTERVAL scan s0 prev Hget Hrange)
    as (Hret & Hls & Hnh & Hself). fold c1 in Hls, Hnh, Hself.
  destruct (set_update_interval_keeps_rest CONF_SCAN_INTERVAL scan s0)
    as (Hce & Hhd & Hdr & Htk & Hsv & _). fold c1 in Hce, Hhd, Hdr, Htk, Hsv.
  assert (Hrun : async_options_updated w
                 = (Raise OverflowError,
                    set_hass_data
                      (fun d => <[DOMAIN := <[entry_id (config_entry w) := self c1]>
                                             accounts]> d)
                      (world c1))).
  { unfold async_options_updated, bind, get_state, subscript.
    rewrite Hd. unfold ret at 1. rewrite Ha. unfold ret at 1.
    rewrite (call_registered_run _ w accounts account Hd Ha).
    fold (scan_interval_of (config_entry w)). fold scan s0. fold c1. by rewrite Hret. }
  assert (Hw' : w' = set_hass_data
                        (fun d => <[DOMAIN := <[entry_id (config_entry w) := self c1]>
                                               accounts]> d)
                        (world c1))
    by (unfold w'; unfold after at 1; by rewrite Hrun).
  clearbody w'. subst w'. rewrite Hrun. simpl.
  split; [done|]. split.
  { unfold registered_account. simpl. rewrite lookup_insert_eq. simpl.
    rewrite Hce, Hself. apply lookup_insert_eq. }
  auto 10.
Qed.

(** X25. A setup is not rolled back.  When the state interval among the
    options is out of the range of [timedelta], [async_setup_entry] raises
    [OverflowError] from its last call, after the account went into the
    registry and the services, the update listener and the platform tasks
    were registered: they all stay, and no listener was subscribed. *)
Theorem setup_overflow_is_not_rolled_back (w w1 : @World E) (account : StarlineAccount) :
  initial_refresh w = (Ok account, w1) ->
  available (_api account) = true ->
  scan_interval_of (config_entry w) < timedelta_min_seconds
  \/ timedelta_max_seconds < scan_interval_of (config_entry w) ->
  let w' := after async_setup_entry w in
  fst (async_setup_entry w) = Raise OverflowError
  /\ registered_account w' = Some account
  /\ services (hass w') = with_services (services (hass w))
  /\ update_listeners (config_entry w')
     = (update_listeners (config_entry w) ++ [async_options_updated_listener])%list
  /\ tasks (hass w') = (tasks (hass w1) ++ map forward_entry_setup PLATFORMS)%list
  /\ time_listeners (hass w') = time_listeners (hass w).
Proof.
  intros Hrefresh Hav Hrange w'.
  pose proof (initial_refresh_account w w1 account Hrefresh) as Hb.
  unfold beyond_refresh, untouched, registries in Hb. simpl in Hb.
  injection Hb as Hhd Hdr Hsv Hls Hnh Hshape _ Hid Hopt Hul.
  assert (Hreg : registered_account (prepared account w1) = Some account).
  { unfold registered_account, prepared. simpl. rewrite lookup_insert_eq. simpl.
    apply lookup_insert_eq. }
  assert (Hce : scan_interval_of (config_entry (prepared account w1))
                = scan_interval_of (config_entry w))
    by (unfold scan_interval_of; simpl; by rewrite Hopt).
  destruct (options_updated_overflow (prepared account w1) account None Hreg)
    as (Hret & Hacc & Hl & _ & Hcfg & _ & Htk & Hsvc);
    [by rewrite Hshape|by rewrite Hce|].
  assert (Hw' : w' = after async_options_updated (prepared account w1)
                /\ fst (async_setup_entry w) = Raise OverflowError).
  { unfold w', after. rewrite (setup_reaches_options w w1 account Hrefresh Hav).
    destruct (async_options_updated _) as [r w2]. simpl in *. by rewrite Hret. }
  destruct Hw' as [-> Hraise].
  split; [done|]. split; [done|].
  split; [rewrite Hsvc; simpl; by rewrite Hsv|].
  split; [rewrite Hcfg; simpl; by rewrite Hul|].
  split; [by rewrite Htk|]. rewrite Hl. simpl. exact Hls.
Qed.

End EntryLife.

(** ** The life of an entry, on the scripted host *)

Lemma shared_host_without_account : host_without_account (hass shared_world).
Proof.
  split.
  - apply NoDup_singleton.
  - intros l ->%list_elem_of_singleton. simpl. split; [lia|by exists 7%nat].
Defined.

Lemma shared_world_refreshed :
  initial_refresh shared_world = (Ok refreshed_account, after initial_refresh shared_world).
Proof. vm_compute. reflexivity. Defined.

Lemma default_intervals_in_range :
  (timedelta_min_seconds <= DEFAULT_SCAN_INTERVAL <= timedelta_max_seconds)
  /\ (timedelta_min_seconds <= DEFAULT_SCAN_OBD_INTERVAL <= timedelta_max_seconds).
Proof. vm_compute. repeat (apply conj); discriminate. Defined.


Lemma shared_intervals_in_range :
  (timedelta_min_seconds <= scan_interval_of (config_entry shared_world)
   <= timedelta_max_seconds)
  /\ (timedelta_min_seconds <= scan_obd_interval_of (config_entry shared_world)
      <= timedelta_max_seconds).
Proof. vm_compute. repeat (apply conj); discriminate. Defined.


Lemma options_updated_applies_intervals_witness :
  let w := prepared refreshed_account shared_world in
  (scan_interval_of (config_entry w) = 180 /\ scan_obd_interval_of (config_entry w) = 3600)
  /\ (let n := next_handle (hass w) in
      let w' := after async_options_updated w in
      fst (async_options_updated w) = Ok tt
      /\ (exists account',
            registered_account w' = Some account'
            /\ _api account' = _api refreshed_account
            /\ dict_get CONF_SCAN_INTERVAL (_unsubscribe_auto_updater account') = Some (Some n)
            /\ dict_get CONF_SCAN_OBD_INTERVAL (_unsubscribe_auto_updater account')
               = Some (Some (S n)))
      /\ live account_update (hass w')
         = [mkListener n account_update (scan_interval_of (config_entry w))]
      /\ live account_update_obd (hass w')
         = [mkListener (S n) account_update_obd (scan_obd_interval_of (config_entry w))]
      /\ (forall k, live (foreign_callback k) (hass w') = live (foreign_callback k) (hass w))
      /\ config_entry w' = config_entry w
      /\ device_registry (hass w') = device_registry (hass w)
      /\ services (hass w') = services (hass w)).
Proof.
  intros w. apply conj; [apply conj; vm_compute; reflexivity|].
  destruct (prepared_invariants refreshed_account shared_world
              shared_host_without_account eq_refl) as (Hreg & Hs & Ho).
  apply (options_updated_applies_intervals w refreshed_account Hreg Hs Ho).
  - vm_compute. apply conj; discriminate.
  - vm_compute. apply conj; discriminate.
Defined.

Lemma setup_succeeds_witness :
  let w := shared_world in
  let w1 := after initial_refresh w in
  (live (foreign_callback 7) (hass w) = [mkListener 0%nat (foreign_callback 7) 60]
   /\ next_handle (hass w) = 1%nat)
  /\ (let n := next_handle (hass w) in
      let w' := after async_setup_entry w in
      fst (async_setup_entry w) = Ok true
      /\ (exists account',
            registered_account w' = Some account'
            /\ _api account' = _api refreshed_account
            /\ dict_get CONF_SCAN_INTERVAL (_unsubscribe_auto_updater account') = Some (Some n)
            /\ dict_get CONF_SCAN_OBD_INTERVAL (_unsubscribe_auto_updater account')
               = Some (Some (S n)))
      /\ live account_update (hass w')
         = [mkListener n account_update (scan_interval_of (config_entry w))]
      /\ live account_update_obd (hass w')
         = [mkListener (S n) account_update_obd (scan_obd_interval_of (config_entry w))]
      /\ (forall k, live (foreign_callback k) (hass w') = live (foreign_callback k) (hass w))
      /\ services (hass w') = with_services (services (hass w))
      /\ update_listeners (config_entry w')
         = (update_listeners (config_entry w) ++ [async_options_updated_listener])%list
      /\ tasks (hass w') = (tasks (hass w1) ++ map forward_entry_setup PLATFORMS)%list
      /\ device_registry (hass w')
         = register_devices (entry_id (config_entry w))
                            (dict_values (devices (_api refreshed_account)))
                            (device_registry (hass w))).
Proof.
  intros w w1. apply conj; [apply conj; vm_compute; reflexivity|].
  apply (setup_succeeds w w1 refreshed_account shared_world_refreshed eq_refl
           shared_host_without_account
           (proj1 shared_intervals_in_range) (proj2 shared_intervals_in_range)).
Defined.

Lemma shared_world_ready_unloads :
  fst (forward_unloads shared_world_ready) = Ok tt.
Proof. vm_compute. reflexivity. Defined.


Lemma setup_then_unload_witness :
  let w := shared_world in
  let w' := after async_unload_entry (after async_setup_entry w) in
  fst (async_setup_entry w) = Ok true
  /\ fst (async_unload_entry (after async_setup_entry w)) = Ok true
  /\ live account_update (hass w') = []
  /\ live account_update_obd (hass w') = []
  /\ (forall k, live (foreign_callback k) (hass w') = live (foreign_callback k) (hass w)).
Proof.
  intros w.
  apply (setup_then_unload w (after initial_refresh w) refreshed_account
           shared_world_refreshed eq_refl shared_host_without_account
           (proj1 shared_intervals_in_range) (proj2 shared_intervals_in_range)
           shared_world_ready_unloads).
Defined.

Lemma shared_world_unloads : fst (forward_unloads shared_world) = Ok tt.
Proof. vm_compute. reflexivity. Defined.

Lemma entry_must_be_set_up_witness :
  let w := shared_world in
  let w' := after async_unload_entry w in
  exists key,
    async_options_updated w = (Raise (KeyError key), w)
    /\ fst (async_unload_entry w) = Raise (KeyError key)
    /\ hass w' = hass w
    /\ config_entry w' = config_entry w
    /\ log w' = log w
    /\ trace w' = (trace w ++ map call_forward_entry_unload PLATFORMS)%list.
Proof.
  intros w. apply (entry_must_be_set_up w); [vm_compute; reflexivity|].
  exact shared_world_unloads.
Defined.

Lemma set_interval_services_never_persist_witness :
  let w := shared_world_ready in
  let service_data : gmap string value := {[CONF_SCAN_INTERVAL := VInt 15]} in
  (exists err, async_call DOMAIN SERVICE_SET_SCAN_INTERVAL service_data w = (Raise err, w))
  /\ (exists err,
        async_call DOMAIN SERVICE_SET_SCAN_OBD_INTERVAL service_data w = (Raise err, w)).
Proof.
  intros w service_data.
  apply (set_interval_services_never_persist w service_data); vm_compute; reflexivity.
Defined.

Lemma interval_below_minimum_is_invalid_witness :
  let w := shared_world_ready in
  (exists msg,
     async_call DOMAIN SERVICE_SET_SCAN_INTERVAL {[CONF_SCAN_INTERVAL := VInt 9]} w
     = (Raise (Invalid msg), w))
  /\ (exists msg,
        async_call DOMAIN SERVICE_SET_SCAN_OBD_INTERVAL
                   {[CONF_SCAN_OBD_INTERVAL := VNone]} w
        = (Raise (Invalid msg), w)).
Proof.
  intros w. apply conj.
  - apply (proj1 (interval_below_minimum_is_invalid w {[CONF_SCAN_INTERVAL := VInt 9]}
                    ltac:(vm_compute; reflexivity) ltac:(vm_compute; reflexivity))
                 (VInt 9)).
    + vm_compute. reflexivity.
    + discriminate.
    + intros z [= <-]. lia.
  - apply (proj2 (interval_below_minimum_is_invalid w
                    {[CONF_SCAN_OBD_INTERVAL := VNone]}
                    ltac:(vm_compute; reflexivity) ltac:(vm_compute; reflexivity))
                 VNone).
    + vm_compute. reflexivity.
    + discriminate.
    + discriminate.
Defined.

Lemma setup_needs_credentials_witness :
  let w := world (without_stored DATA_SLNET_TOKEN shared_account) in
  exists key,
    (key = DATA_USER_ID \/ key = DATA_SLNET_TOKEN)
    /\ StarlineAccount_init w = (Raise (KeyError key), w)
    /\ async_setup_entry w = (Raise (KeyError key), w).
Proof.
  intros w. apply (setup_needs_credentials w). right. vm_compute. reflexivity.
Defined.


Lemma unload_touches_only_subscriptions_witness :
  let s := mkCtx ready_account shared_world_ready in
  let s' := after unload s in
  log (world s')
  = (log (world s) ++ [unloading] ++ unload_lines CONF_SCAN_INTERVAL (Some 1%nat)
       ++ unload_lines CONF_SCAN_OBD_INTERVAL (Some 2%nat))%list
  /\ _api (self s') = _api (self s)
  /\ _update_intervals (self s') = _update_intervals (self s)
  /\ config_entry (world s') = config_entry (world s)
  /\ env (world s') = env (world s)
  /\ trace (world s') = trace (world s)
  /\ hass_data (hass (world s')) = hass_data (hass (world s))
  /\ device_registry (hass (world s')) = device_registry (hass (world s))
  /\ services (hass (world s')) = services (hass (world s))
  /\ tasks (hass (world s')) = tasks (hass (world s))
  /\ next_handle (hass (world s')) = next_handle (hass (world s)).
Proof.
  intros s.
  apply (unload_touches_only_subscriptions s (Some 1%nat) (Some 2%nat)). reflexivity.
Defined.

Lemma shared_world_overflow_refreshed :
  initial_refresh (with_scan_interval (10 ^ 15) shared_world)
  = (Ok refreshed_account, after initial_refresh (with_scan_interval (10 ^ 15) shared_world)).
Proof. vm_compute. reflexivity. Defined.

Lemma setup_overflow_is_not_rolled_back_witness :
  let w := with_scan_interval (10 ^ 15) shared_world in
  let w1 := after initial_refresh w in
  let w' := after async_setup_entry w in
  fst (async_setup_entry w) = Raise OverflowError
  /\ registered_account w' = Some refreshed_account
  /\ services (hass w') = with_services (services (hass w))
  /\ update_listeners (config_entry w')
     = (update_listeners (config_entry w) ++ [async_options_updated_listener])%list
  /\ tasks (hass w') = (tasks (hass w1) ++ map forward_entry_setup PLATFORMS)%list
  /\ time_listeners (hass w') = time_listeners (hass w).
Proof.
  intros w w1.
  apply (setup_overflow_is_not_rolled_back w w1 refreshed_account
           shared_world_overflow_refreshed eq_refl).
  right. vm_compute. reflexivity.
Defined.
